(** * onion-forum: a shallow embedding of [app.py]

    The development follows the layout of [create_app]: Python values the
    code manipulates (text, integers, the SQLite store), then the helpers
    ([clamp_text], [nl2br], [markdown_to_html]), the schema bootstrap
    ([init_db]), the CSRF hook and the request handlers.  Theorems come
    after all definitions. *)

From Stdlib Require Import ZArith List Bool Lia String Ascii.
From Stdlib Require Import Sorted Permutation.
Import ListNotations.
Open Scope Z_scope.

(* ================================================================== *)
(** * Python text *)

(** A Python [str] is a sequence of Unicode code points; [len] counts
    code points, so the ellipsis U+2026 has length one. *)
Definition char := Z.
Definition str := list char.

(** ASCII literals of the source, as code points. *)
Definition lit (s : string) : str :=
  map (fun a => Z.of_nat (nat_of_ascii a)) (list_ascii_of_string s).

Definition len (s : str) : Z := Z.of_nat (List.length s).

Fixpoint str_eqb (a b : str) : bool :=
  match a, b with
  | [], [] => true
  | x :: a', y :: b' => (x =? y) && str_eqb a' b'
  | _, _ => false
  end.

(** [str.isspace] for one code point (CPython's [_PyUnicode_IsWhitespace]). *)
Definition py_isspace (c : char) : bool :=
  ((9 <=? c) && (c <=? 13)) || ((28 <=? c) && (c <=? 32))
  || (c =? 133) || (c =? 160) || (c =? 5760)
  || ((8192 <=? c) && (c <=? 8202))
  || (c =? 8232) || (c =? 8233) || (c =? 8239) || (c =? 8287) || (c =? 12288).

(** Stripping the characters that satisfy [f] from the left and from the
    right. *)
Fixpoint lstrip_by (f : char -> bool) (s : str) : str :=
  match s with
  | [] => []
  | c :: t => if f c then lstrip_by f t else s
  end.

Fixpoint rstrip_by (f : char -> bool) (s : str) : str :=
  match s with
  | [] => []
  | c :: t =>
      match rstrip_by f t with
      | [] => if f c then [] else [c]
      | r => c :: r
      end
  end.

(** [s.rstrip()], [s.lstrip()], [s.strip()] without argument. *)
Definition rstrip (s : str) : str := rstrip_by py_isspace s.
Definition lstrip (s : str) : str := lstrip_by py_isspace s.
Definition strip (s : str) : str := rstrip (lstrip s).

(** [s[:k]] for a Python integer [k]: a negative bound counts from the
    end, and every bound is clipped to the string. *)
Definition slice_to (s : str) (k : Z) : str :=
  if k <? 0 then firstn (Z.to_nat (Z.max 0 (len s + k))) s
  else firstn (Z.to_nat k) s.

(** [s.startswith(p)]. *)
Fixpoint startswith (p s : str) : bool :=
  match p, s with
  | [], _ => true
  | x :: p', y :: s' => (x =? y) && startswith p' s'
  | _ :: _, [] => false
  end.

(** [s.replace(old, new)]: occurrences are found left to right and do not
    overlap.  [skip] counts the characters of a match still to be passed
    over. *)
Fixpoint replace_go (old new : str) (skip : nat) (s : str) : str :=
  match s with
  | [] => []
  | c :: t =>
      match skip with
      | S k => replace_go old new k t
      | O =>
          if startswith old s
          then new ++ replace_go old new (List.length old - 1) t
          else c :: replace_go old new 0 t
      end
  end.

(** With an empty [old] Python inserts [new] before every character and at
    the end. *)
Definition replace (old new s : str) : str :=
  match old with
  | [] => new ++ flat_map (fun c => c :: new) s
  | _ :: _ => replace_go old new 0 s
  end.

(** [x or d] for [x : Optional[str]] and for [x : str]: [None] and the
    empty string are falsy. *)
Definition opt_or (x : option str) (d : str) : str :=
  match x with
  | Some (c :: t) => c :: t
  | _ => d
  end.

Definition str_or (x d : str) : str :=
  match x with
  | [] => d
  | _ :: _ => x
  end.

(* ================================================================== *)
(** * Utilities of [create_app] *)

Definition ellipsis : str := [8230].

(** [clamp_text(s, max_len)], app.py line 206. *)
Definition clamp_text (s : str) (max_len : Z) : str :=
  if len s <=? max_len then s
  else rstrip (slice_to s (max_len - 1)) ++ ellipsis.

(** [markupsafe.Markup]: a string marked as safe HTML. *)
Record Markup : Type := mkMarkup { markup_html : str }.

Definition CR : char := 13.
Definition LF : char := 10.
Definition LT : char := 60.
Definition GT : char := 62.
Definition BR : str := lit "<br>".

(** A value handed to a template filter: a plain [str], or the [Markup]
    (a subclass of [str]) that the [e] filter returns. *)
Inductive text : Type :=
| Str (s : str)
| Safe (m : Markup).

(** [markupsafe.escape] on a plain string: [&], [<], [>], the apostrophe
    and the quotation mark become character references. *)
Definition escape_char (c : char) : str :=
  if c =? 38 then lit "&amp;"
  else if c =? 60 then lit "&lt;"
  else if c =? 62 then lit "&gt;"
  else if c =? 39 then lit "&#39;"
  else if c =? 34 then lit "&#34;"
  else [c].

Definition escape (s : str) : str := flat_map escape_char s.

(** The [e] filter of the templates: it escapes a plain string into a
    [Markup] and leaves a [Markup] as it is. *)
Definition e_filter (v : text) : text :=
  match v with
  | Str s => Safe (mkMarkup (escape s))
  | Safe m => Safe m
  end.

(** [value or ""]: [None] and the empty string, plain or [Markup], are
    falsy. *)
Definition text_or_empty (value : option text) : text :=
  match value with
  | Some (Str (c :: t)) => Str (c :: t)
  | Some (Safe m) =>
      match markup_html m with
      | [] => Str []
      | _ :: _ => Safe m
      end
  | _ => Str []
  end.

(** [s.replace(old, new)] with plain [old] and [new]: [str.replace] on a
    plain string; on a [Markup] it is [Markup.replace], which escapes its
    arguments before it replaces and returns a [Markup]. *)
Definition text_replace (old new : str) (s : text) : text :=
  match s with
  | Str s => Str (replace old new s)
  | Safe m =>
      Safe (mkMarkup (replace (escape old) (escape new) (markup_html m)))
  end.

(** [Markup(s)]. *)
Definition to_Markup (s : text) : Markup :=
  match s with
  | Str s => mkMarkup s
  | Safe m => m
  end.

(** [nl2br(value)], app.py lines 479-500.  [value] is annotated [str]; the
    documented use [| e | nl2br] hands it a [Markup] (or [None] or an
    empty value, which [value or ""] absorbs). *)
Definition nl2br (value : option text) : Markup :=
  let s := text_or_empty value in
  let s := text_replace [CR] [LF] (text_replace [CR; LF] [LF] s) in
  let s :=
    text_replace (lit "&lt;br /&gt;") BR
      (text_replace (lit "&lt;br/&gt;") BR
         (text_replace (lit "&lt;br&gt;") BR s)) in
  let s := text_replace [LF] BR s in
  to_Markup s.

(** The three stages of [nl2br], named as the docstring lists them. *)
Definition normalize_newlines (s : str) : str :=
  replace [CR] [LF] (replace [CR; LF] [LF] s).

Definition unescape_br (s : str) : str :=
  replace (lit "&lt;br /&gt;") BR
    (replace (lit "&lt;br/&gt;") BR
       (replace (lit "&lt;br&gt;") BR s)).

Definition newlines_to_br (s : str) : str := replace [LF] BR s.

(** Text in which every angle bracket belongs to a [<br>] tag. *)
Inductive br_only : str -> Prop :=
| br_only_nil : br_only []
| br_only_char c s : c <> LT -> c <> GT -> br_only s -> br_only (c :: s)
| br_only_br s : br_only s -> br_only (BR ++ s).

(** Escaped text: no angle bracket at all (the escaper turned them into
    [&lt;] and [&gt;]). *)
Definition escaped (s : str) : Prop := ~ In LT s /\ ~ In GT s.

(** ** Markdown rendering *)

Definition _ALLOWED_TAGS : list str :=
  map lit ["p"; "br"; "strong"; "em"; "code"; "pre"; "blockquote";
           "ul"; "ol"; "li"; "a"; "h1"; "h2"; "h3"; "h4"; "h5"; "h6"]%string.

Definition _ALLOWED_ATTRS : list (str * list str) :=
  [(lit "a", map lit ["href"; "title"; "rel"]%string)].

Definition _ALLOWED_PROTOCOLS : list str :=
  map lit ["http"; "https"; "mailto"]%string.

Section Markdown.

(** The two third-party functions [markdown_to_html] composes.  Their code
    is not part of the repository: [md_render preset breaks] stands for
    [MarkdownIt(preset, {"breaks": breaks}).render] and [bleach_clean] for
    [bleach.clean(html, tags=, attributes=, protocols=, strip=)]. *)
Variable md_render : string -> bool -> str -> str.
Variable bleach_clean :
  list str -> list (str * list str) -> list str -> bool -> str -> str.

(** [markdown_to_html(text)], app.py lines 514-526. *)
Definition markdown_to_html (text : option str) : Markup :=
  let raw := opt_or text [] in
  let html := md_render "commonmark" true raw in
  let cleaned :=
    bleach_clean _ALLOWED_TAGS _ALLOWED_ATTRS _ALLOWED_PROTOCOLS true html in
  mkMarkup cleaned.

End Markdown.

(* ================================================================== *)
(** * Python integers and their text form *)

(** First code point of each run of ten decimal digits (Unicode category
    Nd, database 14.0 as shipped with CPython 3.11); the digit value of a
    character is its offset in the run. *)
Definition decimal_zeros : list Z :=
  [48; 1632; 1776; 1984; 2406; 2534; 2662; 2790; 2918; 3046; 3174; 3302;
   3430; 3558; 3664; 3792; 3872; 4160; 4240; 6112; 6160; 6470; 6608; 6784;
   6800; 6992; 7088; 7232; 7248; 42528; 43216; 43264; 43472; 43504; 43600;
   44016; 65296; 66720; 68912; 69734; 69872; 69942; 70096; 70384; 70736;
   70864; 71248; 71360; 71472; 71904; 72016; 72784; 73040; 73120; 92768;
   92864; 93008; 120782; 120792; 120802; 120812; 120822; 123200; 123632;
   125264; 130032].

Definition decimal_value (c : char) : option Z :=
  match find (fun z => (z <=? c) && (c <=? z + 9)) decimal_zeros with
  | Some z => Some (c - z)
  | None => None
  end.

(** Characters that are digits without being decimal (superscripts,
    circled digits, ...): [str.isdigit] accepts them, [int] does not. *)
Definition digit_only_ranges : list (Z * Z) :=
  [(178, 179); (185, 185); (4969, 4977); (6618, 6618); (8304, 8304);
   (8308, 8313); (8320, 8329); (9312, 9320); (9332, 9340); (9352, 9360);
   (9450, 9450); (9461, 9469); (9471, 9471); (10102, 10110);
   (10112, 10120); (10122, 10130); (68160, 68163); (69216, 69224);
   (69714, 69722); (127232, 127242)].

Definition isdigit_char (c : char) : bool :=
  match decimal_value c with
  | Some _ => true
  | None => existsb (fun r => (fst r <=? c) && (c <=? snd r)) digit_only_ranges
  end.

(** [s.isdigit()]: non-empty and made of digits only. *)
Definition isdigit (s : str) : bool :=
  match s with
  | [] => false
  | _ :: _ => forallb isdigit_char s
  end.

(** Whitespace [int] tolerates around a number: the ASCII blanks of C and
    the non-ASCII Unicode whitespace. *)
Definition int_space (c : char) : bool :=
  ((9 <=? c) && (c <=? 13)) || (c =? 32) || ((128 <=? c) && py_isspace c).

(** Digits with single underscores between them; [prev] tells whether the
    previous character was a digit.  Returns the value and the number of
    digits read. *)
Fixpoint int_digits (prev : bool) (acc : Z) (n : nat) (s : str)
  : option (Z * nat) :=
  match s with
  | [] => if prev then Some (acc, n) else None
  | c :: t =>
      if c =? 95 then (if prev then int_digits false acc n t else None)
      else match decimal_value c with
           | Some d => int_digits true (10 * acc + d) (S n) t
           | None => None
           end
  end.

(** [sys.get_int_max_str_digits()]. *)
Definition int_max_str_digits : nat := 4300.

(** [int(s)] for a [str]; [None] is [ValueError]. *)
Definition py_int (s : str) : option Z :=
  let s := rstrip_by int_space (lstrip_by int_space s) in
  let '(neg, body) :=
    match s with
    | 43 :: t => (false, t)
    | 45 :: t => (true, t)
    | _ => (false, s)
    end in
  match int_digits false 0 0 body with
  | Some (v, n) =>
      if (int_max_str_digits <? n)%nat then None
      else Some (if neg then - v else v)
  | None => None
  end.

(* ================================================================== *)
(** * Outcomes of a request *)

(** [OperationalError] and [IntegrityError] are [sqlite3]'s. *)
Inductive exn : Type :=
  ValueError | OverflowError | OperationalError | IntegrityError.

(** What running a piece of a view function gives: a value, an HTTP error
    raised by [abort], or an exception nobody catches. *)
Inductive outcome (A : Type) : Type :=
| Ok (a : A)
| Abort (status : Z) (description : string)
| Raise (e : exn).
Arguments Ok {A} a.
Arguments Abort {A} status description.
Arguments Raise {A} e.

(* ================================================================== *)
(** * The SQLite store *)

Record category : Type := mkCategory
  { cat_id : Z; cat_slug : str; cat_name : str }.

Record thread : Type := mkThread
  { thread_id : Z;
    thread_title : str;
    posts_count : Z;
    thread_created_at : Z;
    last_activity_at : Z;
    category_id : option Z }.

Record post : Type := mkPost
  { post_id : Z;
    post_thread_id : Z;
    post_author : str;
    post_content : str;
    post_created_at : Z }.

Record comment_row : Type := mkComment
  { comment_id : Z;
    comment_post_id : Z;
    comment_author : str;
    comment_content : str;
    comment_created_at : Z }.

(** Which objects of the schema exist.  A table that exists has the
    columns of its [CREATE TABLE] statement; [threads] may be the legacy
    table without [category_id]. *)
Record schema : Type := mkSchema
  { has_categories : bool;
    has_threads : bool;
    has_posts : bool;
    has_comments : bool;
    threads_has_category_id : bool;
    indexes : list string }.

(** Rows are kept in insertion order; [seq_*] is the [sqlite_sequence]
    entry of an [AUTOINCREMENT] table. *)
Record db : Type := mkDb
  { db_schema : schema;
    categories : list category;
    threads : list thread;
    posts : list post;
    comments : list comment_row;
    seq_categories : Z;
    seq_threads : Z;
    seq_posts : Z;
    seq_comments : Z }.

(** A Python [int] bound to a statement parameter must fit SQLite's signed
    64-bit INTEGER; the [sqlite3] module raises [OverflowError]
    otherwise. *)
Definition fits_int64 (n : Z) : bool :=
  (- 2 ^ 63 <=? n) && (n <? 2 ^ 63).

Definition list_max (l : list Z) : Z := fold_right Z.max 0 l.

(** [AUTOINCREMENT]: one more than the largest rowid the table ever had.
    Once the largest 64-bit rowid has been used no row can be inserted:
    SQLite reports [SQLITE_FULL], which [sqlite3] raises as
    [OperationalError]. *)
Definition next_rowid (seq : Z) (ids : list Z) : Z :=
  Z.max seq (list_max ids) + 1.

(** Code running against the store: it reads and writes the connection's
    view of the database and may stop with an error.  What is written
    becomes durable at [commit]; the connection of a request that fails is
    closed without one. *)
Definition M (A : Type) : Type := db -> outcome (A * db).

Definition ret {A} (a : A) : M A := fun d => Ok (a, d).

Definition bind {A B} (m : M A) (k : A -> M B) : M B :=
  fun d =>
    match m d with
    | Ok (a, d') => k a d'
    | Abort st ds => Abort st ds
    | Raise e => Raise e
    end.

Notation "x <- m ;; k" := (bind m (fun x => k))
  (at level 61, m at next level, right associativity).
Notation "m ;;; k" := (bind m (fun _ => k))
  (at level 61, right associativity).

Definition abort {A} (status : Z) (description : string) : M A :=
  fun _ => Abort status description.

Definition raise {A} (e : exn) : M A := fun _ => Raise e.

(** Binding the integer parameters of a statement. *)
Definition bind_params (ps : list Z) : M unit :=
  fun d => if forallb fits_int64 ps then Ok (tt, d) else Raise OverflowError.

Definition query {A} (f : db -> A) : M A := fun d => Ok (f d, d).

Definition execute (f : db -> db) : M unit := fun d => Ok (tt, f d).

(** [int(s)] inside a view function. *)
Definition int_of (s : str) : M Z :=
  match py_int s with
  | Some n => ret n
  | None => raise ValueError
  end.

(* ================================================================== *)
(** * [init_db], app.py lines 101-174 *)

Definition set_schema (s : schema) (d : db) : db :=
  mkDb s (categories d) (threads d) (posts d) (comments d)
       (seq_categories d) (seq_threads d) (seq_posts d) (seq_comments d).

Definition set_categories (cs : list category) (seq : Z) (d : db) : db :=
  mkDb (db_schema d) cs (threads d) (posts d) (comments d)
       seq (seq_threads d) (seq_posts d) (seq_comments d).

Definition set_threads (ts : list thread) (seq : Z) (d : db) : db :=
  mkDb (db_schema d) (categories d) ts (posts d) (comments d)
       (seq_categories d) seq (seq_posts d) (seq_comments d).

Definition set_posts (ps : list post) (seq : Z) (d : db) : db :=
  mkDb (db_schema d) (categories d) (threads d) ps (comments d)
       (seq_categories d) (seq_threads d) seq (seq_comments d).

Definition set_comments (cs : list comment_row) (seq : Z) (d : db) : db :=
  mkDb (db_schema d) (categories d) (threads d) (posts d) cs
       (seq_categories d) (seq_threads d) (seq_posts d) seq.

(** [CREATE TABLE IF NOT EXISTS]: a table that is created starts empty.
    The [threads] table of the script has no [category_id] column. *)
Definition create_categories (d : db) : db :=
  let s := db_schema d in
  if has_categories s then d
  else set_schema (mkSchema true (has_threads s) (has_posts s) (has_comments s)
                            (threads_has_category_id s) (indexes s))
                  (set_categories [] 0 d).

Definition create_threads (d : db) : db :=
  let s := db_schema d in
  if has_threads s then d
  else set_schema (mkSchema (has_categories s) true (has_posts s)
                            (has_comments s) false (indexes s))
                  (set_threads [] 0 d).

Definition create_posts (d : db) : db :=
  let s := db_schema d in
  if has_posts s then d
  else set_schema (mkSchema (has_categories s) (has_threads s) true
                            (has_comments s) (threads_has_category_id s)
                            (indexes s))
                  (set_posts [] 0 d).

Definition create_comments (d : db) : db :=
  let s := db_schema d in
  if has_comments s then d
  else set_schema (mkSchema (has_categories s) (has_threads s) (has_posts s)
                            true (threads_has_category_id s) (indexes s))
                  (set_comments [] 0 d).

Definition has_index (name : string) (s : schema) : bool :=
  existsb (String.eqb name) (indexes s).

(** [CREATE INDEX IF NOT EXISTS]. *)
Definition create_index (name : string) (d : db) : db :=
  let s := db_schema d in
  if has_index name s then d
  else set_schema (mkSchema (has_categories s) (has_threads s) (has_posts s)
                            (has_comments s) (threads_has_category_id s)
                            (indexes s ++ [name]))
                  d.

(** The [executescript] call. *)
Definition create_schema (d : db) : db :=
  create_index "idx_comments_post_id"
    (create_comments
       (create_index "idx_posts_thread_id"
          (create_index "idx_threads_last_activity"
             (create_posts (create_threads (create_categories d)))))).

(** Column names reported by [PRAGMA table_info(threads)]. *)
Definition threads_columns (s : schema) : list string :=
  if has_threads s then
    ["id"; "title"; "posts_count"; "created_at"; "last_activity_at"]%string
    ++ (if threads_has_category_id s then ["category_id"%string] else [])
  else [].

Definition clear_category (t : thread) : thread :=
  mkThread (thread_id t) (thread_title t) (posts_count t)
           (thread_created_at t) (last_activity_at t) None.

(** [ALTER TABLE threads ADD COLUMN category_id INTEGER]: an error when
    the column is already there; existing rows get NULL. *)
Definition alter_threads_add_category_id : M unit :=
  fun d =>
    let s := db_schema d in
    if threads_has_category_id s then Raise OperationalError
    else Ok (tt, set_schema
                   (mkSchema (has_categories s) (has_threads s) (has_posts s)
                             (has_comments s) true (indexes s))
                   (set_threads (map clear_category (threads d))
                                (seq_threads d) d)).

(** [INSERT INTO categories (slug, name)]: the rowid is drawn first, then
    [slug], which is [UNIQUE], is checked. *)
Definition insert_category (sn : str * str) : M unit :=
  fun d =>
    let id := next_rowid (seq_categories d) (map cat_id (categories d)) in
    if negb (fits_int64 id) then Raise OperationalError
    else if existsb (fun c => str_eqb (cat_slug c) (fst sn)) (categories d)
    then Raise IntegrityError
    else
      Ok (tt, set_categories (categories d ++ [mkCategory id (fst sn) (snd sn)])
                             id d).

Fixpoint executemany {A} (f : A -> M unit) (l : list A) : M unit :=
  match l with
  | [] => ret tt
  | x :: l' => f x ;;; executemany f l'
  end.

Definition default_categories : list (str * str) :=
  [(lit "technology", lit "Technology");
   (lit "learning", lit "Learning");
   (lit "politics", lit "Politics");
   (lit "secret", lit "Secret")].

(** [SELECT id FROM categories ORDER BY id ASC LIMIT 1]. *)
Fixpoint lowest_category_id (cs : list category) : option Z :=
  match cs with
  | [] => None
  | c :: cs' =>
      match lowest_category_id cs' with
      | Some m => Some (Z.min (cat_id c) m)
      | None => Some (cat_id c)
      end
  end.

Definition coalesce_category (default : Z) (t : thread) : thread :=
  match category_id t with
  | None => mkThread (thread_id t) (thread_title t) (posts_count t)
                     (thread_created_at t) (last_activity_at t) (Some default)
  | Some _ => t
  end.

(** [# Migrations: add category_id to threads if missing]. *)
Definition migrate_threads : M unit :=
  cols <- query (fun d => threads_columns (db_schema d)) ;;
  if existsb (String.eqb "category_id") cols then ret tt
  else alter_threads_add_category_id ;;;
       execute (create_index "idx_threads_category").

(** [# Seed default categories]. *)
Definition seed_categories : M unit :=
  existing <- query (fun d => Z.of_nat (List.length (categories d))) ;;
  if existing =? 0 then executemany insert_category default_categories
  else ret tt.

(** [# Ensure existing threads have a category (default to first
    category)]. *)
Definition backfill_threads : M unit :=
  row <- query (fun d => lowest_category_id (categories d)) ;;
  match row with
  | Some default_cat_id =>
      execute (fun d => set_threads (map (coalesce_category default_cat_id)
                                         (threads d))
                                    (seq_threads d) d)
  | None => ret tt
  end.

Definition init_db : M unit :=
  execute create_schema ;;;
  migrate_threads ;;;
  seed_categories ;;;
  backfill_threads.

(* ================================================================== *)
(** * Requests and sessions *)

(** Form fields, query arguments and the session are string-keyed
    dictionaries of text; [get] returns the first value of a key. *)
Definition dict : Type := list (string * str).

Fixpoint dict_get (k : string) (m : dict) : option str :=
  match m with
  | [] => None
  | (k', v) :: m' => if String.eqb k k' then Some v else dict_get k m'
  end.

Definition dict_get_default (k : string) (default : str) (m : dict) : str :=
  match dict_get k m with
  | Some v => v
  | None => default
  end.

Definition dict_mem (k : string) (m : dict) : bool :=
  match dict_get k m with
  | Some _ => true
  | None => false
  end.

Definition dict_set (k : string) (v : str) (m : dict) : dict :=
  (k, v) :: filter (fun kv => negb (String.eqb k (fst kv))) m.

Definition is_empty (s : str) : bool :=
  match s with
  | [] => true
  | _ :: _ => false
  end.

Inductive http_method : Type := GET | POST.

(** The routes of the application with their URL parameters
    ([<int:...>] yields a non-negative Python [int] of any size). *)
Inductive endpoint : Type :=
| Index
| ThreadView (thread_id : Z)
| CreateThread
| Reply (thread_id : Z)
| Comment (post_id : Z)
| Healthz.

(** A request: [content_length] is the size of the body in bytes and
    [form] the fields the body holds. *)
Record request : Type := mkRequest
  { method : http_method;
    target : endpoint;
    args : dict;
    form : dict;
    content_length : Z }.

(** [MAX_CONTENT_LENGTH=256 * 1024], app.py line 73. *)
Definition MAX_CONTENT_LENGTH : Z := 256 * 1024.

(** [csrf_and_session_bootstrap], app.py lines 177-188.  [fresh] is the
    value [secrets.token_hex(16)] returns when it is called.  The hook is
    the first code to read [request.form]; reading the form of a body
    longer than [MAX_CONTENT_LENGTH] ends the request with status 413. *)
Definition csrf_and_session_bootstrap (fresh : str) (session : dict)
    (req : request) : outcome unit * dict :=
  let session :=
    if negb (dict_mem "csrf_token" session)
    then dict_set "csrf_token" fresh session
    else session in
  match method req with
  | POST =>
      if MAX_CONTENT_LENGTH <? content_length req
      then (Abort 413 "", session)
      else
        let token_form := dict_get_default "csrf_token" [] (form req) in
        let token_sess := dict_get_default "csrf_token" [] session in
        if is_empty token_form || negb (str_eqb token_form token_sess)
        then (Abort 400 "Invalid CSRF token", session)
        else (Ok tt, session)
  | GET => (Ok tt, session)
  end.

(* ================================================================== *)
(** * View functions *)

Definition thread_row : Type := (thread * option category)%type.

Record index_page : Type := mkIndexPage
  { ip_threads : list thread_row;
    ip_categories : list category;
    ip_cat : option category;
    ip_recent_posts : list (post * thread_row);
    ip_page : Z;
    ip_total_pages : Z }.

Record thread_page : Type := mkThreadPage
  { tp_thread : thread_row;
    tp_posts : list post;
    tp_comments_map : list (Z * list comment_row);
    tp_page : Z;
    tp_total_pages : Z }.

Inductive response : Type :=
| Redirect (thread : Z) (anchor : option Z)
| IndexPage (page : index_page)
| ThreadPage (page : thread_page)
| Health
| ErrorResponse (status : Z).

(** [ORDER BY]: a stable insertion sort. *)
Fixpoint insert_sorted {A} (le : A -> A -> bool) (x : A) (l : list A)
  : list A :=
  match l with
  | [] => [x]
  | y :: l' => if le x y then x :: l else y :: insert_sorted le x l'
  end.

Definition order_by {A} (le : A -> A -> bool) (l : list A) : list A :=
  fold_right (insert_sorted le) [] l.

(** [LIMIT ? OFFSET ?]: a negative limit means no limit, a negative offset
    is zero, an offset past the last row leaves nothing. *)
Definition limit_offset {A} (limit offset : Z) (l : list A) : list A :=
  let rest :=
    if Z.of_nat (List.length l) <=? offset then []
    else skipn (Z.to_nat offset) l in
  if limit <? 0 then rest else firstn (Z.to_nat limit) rest.

Fixpoint str_leb (a b : str) : bool :=
  match a, b with
  | [], _ => true
  | _ :: _, [] => false
  | x :: a', y :: b' => (x <? y) || ((x =? y) && str_leb a' b')
  end.

Definition find_category (id : option Z) (d : db) : option category :=
  match id with
  | Some i => find (fun c => cat_id c =? i) (categories d)
  | None => None
  end.

(** [FROM threads t LEFT JOIN categories c ON c.id = t.category_id]. *)
Definition join_category (d : db) (t : thread) : thread_row :=
  (t, find_category (category_id t) d).

Definition thread_before (a b : thread_row) : bool :=
  (last_activity_at (fst b) <? last_activity_at (fst a))
  || ((last_activity_at (fst a) =? last_activity_at (fst b))
      && (thread_id (fst b) <=? thread_id (fst a))).

(** [get_categories_list], app.py lines 210-214. *)
Definition get_categories_list : M (list category) :=
  query (fun d => order_by (fun a b => str_leb (cat_name a) (cat_name b))
                           (categories d)).

(** The [page] argument of a listing, app.py lines 227-230 and 305-308. *)
Definition page_of (args : dict) : Z :=
  match py_int (dict_get_default "page" (lit "1") args) with
  | Some n => Z.max n 1
  | None => 1
  end.

Definition total_pages_of (total per_page : Z) : Z :=
  Z.max ((total + per_page - 1) / per_page) 1.

Definition recent_posts (d : db) : list (post * thread_row) :=
  limit_offset 10 0
    (order_by (fun a b => post_id (fst b) <=? post_id (fst a))
       (flat_map
          (fun p =>
             match find (fun t => thread_id t =? post_thread_id p) (threads d) with
             | Some t => [(p, join_category d t)]
             | None => []
             end)
          (posts d))).

(** [index], app.py lines 216-287. *)
Definition index (args : dict) : M response :=
  categories_list <- get_categories_list ;;
  let cat_arg := dict_get "cat" args in
  cat <- match cat_arg with
         | Some (c :: s) =>
             query (fun d => find (fun k => str_eqb (cat_slug k) (c :: s))
                                  (categories d))
         | _ => ret None
         end ;;
  let page := page_of args in
  let per_page := 20 in
  let offset := (page - 1) * per_page in
  let selected (d : db) : list thread :=
    match cat with
    | None => threads d
    | Some k =>
        filter (fun t => match category_id t with
                         | Some i => i =? cat_id k
                         | None => false
                         end)
               (threads d)
    end in
  total_threads <- query (fun d => Z.of_nat (List.length (selected d))) ;;
  bind_params [per_page; offset] ;;;
  rows <- query (fun d => limit_offset per_page offset
                            (order_by thread_before
                               (map (join_category d) (selected d)))) ;;
  let total_pages := total_pages_of total_threads per_page in
  recent <- query recent_posts ;;
  ret (IndexPage (mkIndexPage rows categories_list cat recent page total_pages)).

(** Grouping of the comments of a page by post, in the order the posts
    first occur ([comments_map.setdefault(...).append(c)]). *)
Fixpoint group_comment (c : comment_row) (m : list (Z * list comment_row))
  : list (Z * list comment_row) :=
  match m with
  | [] => [(comment_post_id c, [c])]
  | (k, cs) :: m' =>
      if k =? comment_post_id c then (k, cs ++ [c]) :: m'
      else (k, cs) :: group_comment c m'
  end.

Definition comments_map_of (cs : list comment_row) : list (Z * list comment_row) :=
  fold_left (fun m c => group_comment c m) cs [].

(** [thread_view], app.py lines 289-348. *)
Definition thread_view (tid : Z) (args : dict) : M response :=
  bind_params [tid] ;;;
  row <- query (fun d => option_map (join_category d)
                           (find (fun t => thread_id t =? tid) (threads d))) ;;
  match row with
  | None => abort 404 ""
  | Some thread_row =>
      let page := page_of args in
      let per_page := 50 in
      let offset := (page - 1) * per_page in
      let of_thread (d : db) : list post :=
        filter (fun p => post_thread_id p =? tid) (posts d) in
      total_posts <- query (fun d => Z.of_nat (List.length (of_thread d))) ;;
      bind_params [tid; per_page; offset] ;;;
      page_posts <-
        query (fun d => limit_offset per_page offset
                          (order_by (fun a b => post_id a <=? post_id b)
                                    (of_thread d))) ;;
      let post_ids := map post_id page_posts in
      comments_map <-
        (if Z.of_nat (List.length post_ids) =? 0 then ret []
         else query (fun d =>
                comments_map_of
                  (order_by (fun a b => comment_id a <=? comment_id b)
                     (filter (fun c =>
                                existsb (Z.eqb (comment_post_id c)) post_ids)
                             (comments d))))) ;;
      let total_pages := total_pages_of total_posts per_page in
      ret (ThreadPage (mkThreadPage thread_row page_posts comments_map
                                    page total_pages))
  end.

(** [now_ts()] is read once per mutating request; its value is the
    argument [ts] of the view functions below. *)

Definition insert_thread (title : str) (ts : Z) (cat : Z) : M Z :=
  fun d =>
    let id := next_rowid (seq_threads d) (map thread_id (threads d)) in
    if negb (fits_int64 id) then Raise OperationalError
    else
      Ok (id, set_threads (threads d ++ [mkThread id title 0 ts ts (Some cat)])
                          id d).

Definition insert_post (tid : Z) (author content : str) (ts : Z) : M Z :=
  fun d =>
    let id := next_rowid (seq_posts d) (map post_id (posts d)) in
    if negb (fits_int64 id) then Raise OperationalError
    else
      Ok (id, set_posts (posts d ++ [mkPost id tid author content ts]) id d).

Definition insert_comment (pid : Z) (author content : str) (ts : Z) : M Z :=
  fun d =>
    let id := next_rowid (seq_comments d) (map comment_id (comments d)) in
    if negb (fits_int64 id) then Raise OperationalError
    else
      Ok (id, set_comments (comments d ++ [mkComment id pid author content ts])
                           id d).

(** [UPDATE threads SET posts_count = posts_count + 1, last_activity_at=?
    WHERE id=?]. *)
Definition bump_post_row (ts tid : Z) (t : thread) : thread :=
  if thread_id t =? tid
  then mkThread (thread_id t) (thread_title t) (posts_count t + 1)
                (thread_created_at t) ts (category_id t)
  else t.

Definition bump_post (ts tid : Z) (d : db) : db :=
  set_threads (map (bump_post_row ts tid) (threads d)) (seq_threads d) d.

(** [UPDATE threads SET last_activity_at=? WHERE id=?]. *)
Definition bump_activity_row (ts tid : Z) (t : thread) : thread :=
  if thread_id t =? tid
  then mkThread (thread_id t) (thread_title t) (posts_count t)
                (thread_created_at t) ts (category_id t)
  else t.

Definition bump_activity (ts tid : Z) (d : db) : db :=
  set_threads (map (bump_activity_row ts tid) (threads d)) (seq_threads d) d.

Definition commit : M unit := ret tt.

Definition require (ok : bool) (status : Z) (description : string) : M unit :=
  if ok then ret tt else abort status description.

(** The cleaned-up text fields of a form. *)
Definition field (name : string) (form : dict) : str :=
  strip (opt_or (dict_get name form) []).

Definition author_field (form : dict) : str :=
  str_or (field "author" form) (lit "anon").

(** Category resolution of [create_thread], app.py lines 365-378: the row
    named by [category_id] when that is a digit string, else the category
    of lowest id, else an error. *)
Definition resolve_category (cat_id_raw : option str) : M Z :=
  cat_row <-
    match cat_id_raw with
    | Some raw =>
        if negb (is_empty raw) && isdigit raw then
          n <- int_of raw ;;
          bind_params [n] ;;;
          query (fun d => option_map cat_id
                            (find (fun c => cat_id c =? n) (categories d)))
        else ret None
    | None => ret None
    end ;;
  cat_row <-
    match cat_row with
    | Some id => ret (Some id)
    | None => query (fun d => lowest_category_id (categories d))
    end ;;
  match cat_row with
  | Some id => ret id
  | None => abort 400 "No categories configured"
  end.

(** [create_thread], app.py lines 350-395. *)
Definition create_thread (form : dict) (ts : Z) : M response :=
  let title := field "title" form in
  let author := author_field form in
  let content := field "content" form in
  let cat_id_raw := dict_get "category_id" form in
  require (negb (is_empty title || is_empty content)) 400
          "Title and content are required" ;;;
  let title := clamp_text title 140 in
  let author := clamp_text author 32 in
  let content := clamp_text content 5000 in
  cat <- resolve_category cat_id_raw ;;
  bind_params [ts] ;;;
  tid <- insert_thread title ts cat ;;
  insert_post tid author content ts ;;;
  execute (bump_post ts tid) ;;;
  commit ;;;
  ret (Redirect tid None).

(** [reply], app.py lines 397-423. *)
Definition reply (tid : Z) (form : dict) (ts : Z) : M response :=
  bind_params [tid] ;;;
  found <- query (fun d => existsb (fun t => thread_id t =? tid) (threads d)) ;;
  require found 404 "" ;;;
  let author := author_field form in
  let content := field "content" form in
  require (negb (is_empty content)) 400 "Content is required" ;;;
  let author := clamp_text author 32 in
  let content := clamp_text content 5000 in
  bind_params [ts] ;;;
  insert_post tid author content ts ;;;
  execute (bump_post ts tid) ;;;
  commit ;;;
  ret (Redirect tid None).

(** [comment], app.py lines 425-455. *)
Definition comment (pid : Z) (form : dict) (ts : Z) : M response :=
  bind_params [pid] ;;;
  found <- query (fun d => find (fun p => post_id p =? pid) (posts d)) ;;
  match found with
  | None => abort 404 ""
  | Some p =>
      let author := author_field form in
      let content := field "content" form in
      require (negb (is_empty content)) 400 "Content is required" ;;;
      let author := clamp_text author 32 in
      let content := clamp_text content 2000 in
      bind_params [ts] ;;;
      insert_comment pid author content ts ;;;
      execute (bump_activity ts (post_thread_id p)) ;;;
      commit ;;;
      ret (Redirect (post_thread_id p) (Some pid))
  end.

(** Running a view function against the stored database: an [abort] or an
    uncaught exception (status 500) leaves the store as it was, since the
    request's connection is closed without a commit. *)
Definition run_view (v : M response) (d : db) : response * db :=
  match v d with
  | Ok (r, d') => (r, d')
  | Abort status _ => (ErrorResponse status, d)
  | Raise _ => (ErrorResponse 500, d)
  end.

(** The view bound to each route and the methods it accepts. *)
Definition dispatch (ts : Z) (req : request) : M response :=
  match target req, method req with
  | Index, GET => index (args req)
  | ThreadView tid, GET => thread_view tid (args req)
  | Healthz, GET => ret Health
  | CreateThread, POST => create_thread (form req) ts
  | Reply tid, POST => reply tid (form req) ts
  | Comment pid, POST => comment pid (form req) ts
  | _, _ => abort 405 ""
  end.

(** One request: the [before_request] hook, then the view. *)
Definition handle_request (fresh : str) (ts : Z) (session : dict) (d : db)
    (req : request) : response * dict * db :=
  match csrf_and_session_bootstrap fresh session req with
  | (Ok _, session') =>
      let '(r, d') := run_view (dispatch ts req) d in (r, session', d')
  | (Abort status _, session') => (ErrorResponse status, session', d)
  | (Raise _, session') => (ErrorResponse 500, session', d)
  end.

(** Mutating operations and their effect on the store. *)
Inductive op : Type :=
| CreateThreadOp (form : dict) (ts : Z)
| ReplyOp (tid : Z) (form : dict) (ts : Z)
| CommentOp (pid : Z) (form : dict) (ts : Z).

Definition op_ts (o : op) : Z :=
  match o with
  | CreateThreadOp _ ts | ReplyOp _ _ ts | CommentOp _ _ ts => ts
  end.

Definition op_view (o : op) : M response :=
  match o with
  | CreateThreadOp form ts => create_thread form ts
  | ReplyOp tid form ts => reply tid form ts
  | CommentOp pid form ts => comment pid form ts
  end.

Definition apply_op (d : db) (o : op) : db := snd (run_view (op_view o) d).

Definition apply_ops (d : db) (os : list op) : db := fold_left apply_op os d.

(** The database of a fresh installation: nothing exists before
    [init_db] runs at start-up (app.py lines 462-464). *)
Definition blank_db : db :=
  mkDb (mkSchema false false false false false []) [] [] [] [] 0 0 0 0.

Definition initial_db : db :=
  match init_db blank_db with
  | Ok (_, d) => d
  | _ => blank_db
  end.

(** The quantities C3 relates. *)
Definition posts_of (tid : Z) (d : db) : list post :=
  filter (fun p => post_thread_id p =? tid) (posts d).

Definition comments_of (tid : Z) (d : db) : list comment_row :=
  filter (fun c => existsb (fun p => comment_post_id c =? post_id p)
                           (posts_of tid d))
         (comments d).

Definition activity_times (tid : Z) (d : db) : list Z :=
  map post_created_at (posts_of tid d)
  ++ map comment_created_at (comments_of tid d).

Fixpoint maximum (l : list Z) : option Z :=
  match l with
  | [] => None
  | x :: l' =>
      match maximum l' with
      | Some m => Some (Z.max x m)
      | None => Some x
      end
  end.

Definition count_ok (d : db) (t : thread) : Prop :=
  posts_count t = Z.of_nat (List.length (posts_of (thread_id t) d)).

Definition activity_ok (d : db) (t : thread) : Prop :=
  maximum (activity_times (thread_id t) d) = Some (last_activity_at t).

Fixpoint nondecreasing (l : list Z) : Prop :=
  match l with
  | [] => True
  | x :: l' => (match l' with [] => True | y :: _ => x <= y end)
               /\ nondecreasing l'
  end.

(** Referential integrity and primary keys, as SQLite enforces them
    ([PRIMARY KEY], [FOREIGN KEY] with [PRAGMA foreign_keys=ON]). *)
Definition store_ok (d : db) : Prop :=
  NoDup (map thread_id (threads d))
  /\ NoDup (map post_id (posts d))
  /\ (forall p, In p (posts d) ->
                In (post_thread_id p) (map thread_id (threads d)))
  /\ (forall c, In c (comments d) ->
                In (comment_post_id c) (map post_id (posts d))).

Definition counts_ok (d : db) : Prop :=
  forall t, In t (threads d) -> count_ok d t.

Definition activities_ok (d : db) : Prop :=
  forall t, In t (threads d) -> activity_ok d t.

(** No row is stamped later than [now]. *)
Definition times_le (now : Z) (d : db) : Prop :=
  (forall p, In p (posts d) -> post_created_at p <= now)
  /\ (forall c, In c (comments d) -> comment_created_at c <= now).

(** What one operation stamped [ts] does to the rows: nothing (it
    failed), a new thread with its first post, a reply, or a comment. *)
Inductive effect (ts : Z) (d d' : db) : Prop :=
| effect_none :
    d' = d -> effect ts d d'
| effect_thread (title author content : str) (cat : Z) :
    threads d'
    = map (bump_post_row ts (next_rowid (seq_threads d)
                                        (map thread_id (threads d))))
          (threads d
           ++ [mkThread (next_rowid (seq_threads d) (map thread_id (threads d)))
                        title 0 ts ts (Some cat)]) ->
    posts d'
    = posts d
      ++ [mkPost (next_rowid (seq_posts d) (map post_id (posts d)))
                 (next_rowid (seq_threads d) (map thread_id (threads d)))
                 author content ts] ->
    comments d' = comments d ->
    effect ts d d'
| effect_reply (tid : Z) (author content : str) :
    In tid (map thread_id (threads d)) ->
    threads d' = map (bump_post_row ts tid) (threads d) ->
    posts d'
    = posts d
      ++ [mkPost (next_rowid (seq_posts d) (map post_id (posts d)))
                 tid author content ts] ->
    comments d' = comments d ->
    effect ts d d'
| effect_comment (p : post) (author content : str) :
    In p (posts d) ->
    threads d' = map (bump_activity_row ts (post_thread_id p)) (threads d) ->
    posts d' = posts d ->
    comments d'
    = comments d
      ++ [mkComment (next_rowid (seq_comments d) (map comment_id (comments d)))
                    (post_id p) author content ts] ->
    effect ts d d'.

(** Code that only reads the store. *)
Definition reads_only {A} (m : M A) : Prop :=
  forall d a d', m d = Ok (a, d') -> d' = d.

(** The tables that exist. *)
Definition tables_of (d : db) : bool * bool * bool * bool :=
  let s := db_schema d in
  (has_categories s, has_threads s, has_posts s, has_comments s).

(** A database on which [init_db] has nothing left to do. *)
Definition initialized (d : db) : Prop :=
  let s := db_schema d in
  has_categories s = true /\ has_threads s = true /\ has_posts s = true
  /\ has_comments s = true /\ threads_has_category_id s = true
  /\ has_index "idx_threads_last_activity" s = true
  /\ has_index "idx_posts_thread_id" s = true
  /\ has_index "idx_comments_post_id" s = true
  /\ categories d <> []
  /\ Forall (fun t => category_id t <> None) (threads d).

(* ================================================================== *)
(** * [set_security_headers], app.py lines 190-200 *)

(** Response headers: an ordered list of name/value pairs whose names
    compare without regard to ASCII case. *)
Definition headers : Type := list (string * string).

Definition lower_ascii (a : ascii) : ascii :=
  let n := nat_of_ascii a in
  if ((65 <=? n) && (n <=? 90))%nat then ascii_of_nat (n + 32) else a.

Fixpoint lower (s : string) : string :=
  match s with
  | EmptyString => EmptyString
  | String a s' => String (lower_ascii a) (lower s')
  end.

Definition same_header (k k' : string) : bool :=
  String.eqb (lower k) (lower k').

Fixpoint header_get (k : string) (h : headers) : option string :=
  match h with
  | [] => None
  | (k', v) :: h' => if same_header k k' then Some v else header_get k h'
  end.

(** [headers.setdefault(key, default)]: nothing when the header is there,
    else the pair is appended. *)
Definition header_setdefault (k v : string) (h : headers) : headers :=
  match header_get k h with
  | Some _ => h
  | None => h ++ [(k, v)]
  end.

Definition security_headers : headers :=
  [("X-Content-Type-Options", "nosniff");
   ("X-Frame-Options", "DENY");
   ("Referrer-Policy", "no-referrer");
   ("Content-Security-Policy",
    "default-src 'self'; img-src 'self' data:; style-src 'self'; script-src 'none'")
  ]%string.

Definition set_security_headers (resp : headers) : headers :=
  header_setdefault "Content-Security-Policy"
    "default-src 'self'; img-src 'self' data:; style-src 'self'; script-src 'none'"
    (header_setdefault "Referrer-Policy" "no-referrer"
       (header_setdefault "X-Frame-Options" "DENY"
          (header_setdefault "X-Content-Type-Options" "nosniff" resp))).

(* ================================================================== *)
(** * [_get_persistent_secret], app.py lines 22-59 *)

(** A [pathlib] path on a POSIX system: the root (no, one or exactly two
    leading slashes) and the components, empty ones and [.] dropped. *)
Record Path : Type := mkPath { path_root : nat; path_parts : list str }.

Definition SLASH : char := 47.

(** [s.split("/")], with [cur] the component being read, reversed. *)
Fixpoint split_slash (cur : str) (s : str) : list str :=
  match s with
  | [] => [rev cur]
  | c :: t => if c =? SLASH then rev cur :: split_slash [] t
              else split_slash (c :: cur) t
  end.

Definition leading_slashes (s : str) : nat :=
  List.length s - List.length (lstrip_by (fun c => c =? SLASH) s).

Definition Path_of (s : str) : Path :=
  mkPath (match leading_slashes s with
          | O => 0
          | 2 => 2
          | _ => 1
          end)%nat
         (filter (fun part => negb (is_empty part || str_eqb part [46]))
                 (split_slash [] s)).

(** [p.parent] and [p / name] for a one-component relative [name]. *)
Definition parent (p : Path) : Path :=
  mkPath (path_root p) (removelast (path_parts p)).

Definition joinpath (p : Path) (name : str) : Path :=
  mkPath (path_root p) (path_parts p ++ [name]).

Definition path_eqb (p q : Path) : bool :=
  Nat.eqb (path_root p) (path_root q)
  && Nat.eqb (List.length (path_parts p)) (List.length (path_parts q))
  && forallb (fun ab => str_eqb (fst ab) (snd ab))
             (combine (path_parts p) (path_parts q)).

(** How the operating system reads the paths of one start-up.
    [read_place p] is the place [p] names for [exists] and [read_text]: none
    when a directory on the way is missing, else the place the system
    reaches after following [.], [..] and symbolic links, where a file may
    or may not be.  [write_place p] is the place [write_text] and [chmod]
    reach once [mkdir] has made the directories. *)
Record os_paths : Type := mkPaths
  { read_place : Path -> option Path;
    write_place : Path -> Path }.

(** [os.path.normpath]: [name/..] pairs are dropped, and [..] at the
    root. *)
Fixpoint normparts (rooted : bool) (stack : list str) (parts : list str)
  : list str :=
  match parts with
  | [] => rev stack
  | p :: ps =>
      if str_eqb p (lit "..") then
        match stack with
        | top :: rest =>
            if str_eqb top (lit "..") then normparts rooted (p :: stack) ps
            else normparts rooted rest ps
        | [] => if rooted then normparts rooted [] ps
                else normparts rooted [p] ps
        end
      else normparts rooted (p :: stack) ps
  end.

Definition normpath (p : Path) : Path :=
  mkPath (path_root p)
         (normparts (negb (Nat.eqb (path_root p) 0)) [] (path_parts p)).

(** A system without symbolic links in which every directory named
    exists: a path names the place its normal form spells. *)
Definition plain_paths : os_paths :=
  mkPaths (fun p => Some (normpath p)) normpath.

(** The same system when the directory [missing] does not exist yet:
    paths through it cannot be looked up, and [mkdir] makes it. *)
Definition paths_without (missing : str) : os_paths :=
  mkPaths (fun p => if existsb (str_eqb missing) (path_parts p) then None
                    else Some (normpath p))
          normpath.

(** A regular file: its text and, once [chmod] has set it, its mode. *)
Record file : Type := mkFile { file_text : str; file_mode : option Z }.

(** The regular files, each under the place it is at. *)
Definition files : Type := list (Path * file).

Fixpoint file_at (p : Path) (fs : files) : option file :=
  match fs with
  | [] => None
  | (q, f) :: fs' => if path_eqb p q then Some f else file_at p fs'
  end.

Definition file_remove (p : Path) (fs : files) : files :=
  filter (fun qf => negb (path_eqb p (fst qf))) fs.

Definition file_put (p : Path) (f : file) (fs : files) : files :=
  (p, f) :: file_remove p fs.

(** What the operating system does to the calls of one start-up:
    [exists], [read_text], [mkdir] and [chmod] may raise, and a
    [write_text] that raises leaves the file in the state given
    ([None]: no file). *)
Record os_faults : Type := mkFaults
  { exists_raises : bool;
    read_raises : bool;
    mkdir_raises : bool;
    write_raises : option (option str);
    chmod_raises : bool }.

Definition no_faults : os_faults := mkFaults false false false None false.

(** [secret_file.write_text(new_sk)] followed by the best-effort
    [os.chmod(secret_file, 0o600)]; an existing file keeps its mode when it
    is rewritten. *)
Definition write_secret (faults : os_faults) (p : Path) (text : str)
    (fs : files) : files :=
  let mode := match file_at p fs with
              | Some f => file_mode f
              | None => None
              end in
  match write_raises faults with
  | Some None => file_remove p fs
  | Some (Some partial) => file_put p (mkFile partial mode) fs
  | None =>
      file_put p (mkFile text (if chmod_raises faults then mode
                               else Some 384)) fs
  end.

(** The secret file that goes with the database file of [environ]. *)
Definition secret_file_of (environ : dict) : Path :=
  joinpath (parent (Path_of (dict_get_default "FORUM_DB_PATH" (lit "forum.db")
                                              environ)))
           (lit "secret_key").

(** [secret_file.exists()]: a file at the place the path names. *)
Definition file_exists (sys : os_paths) (p : Path) (fs : files)
  : option file :=
  match read_place sys p with
  | Some place => file_at place fs
  | None => None
  end.

(** [_get_persistent_secret()]: the key and the files afterwards.  [token]
    is what [secrets.token_hex(32)] returns in this run (it is called at
    most once on every path). *)
Definition _get_persistent_secret (sys : os_paths) (environ : dict)
    (faults : os_faults) (token : str) (fs : files) : str * files :=
  let sk := strip (dict_get_default "SECRET_KEY" [] environ) in
  if negb (is_empty sk) then (sk, fs)
  else
    let secret_file := secret_file_of environ in
    if exists_raises faults then (token, fs)
    else
      let stored :=
        match file_exists sys secret_file fs with
        | Some f => if read_raises faults then None
                    else Some (strip (file_text f))
        | None => None
        end in
      match stored with
      | Some s => (s, fs)
      | None =>
          if mkdir_raises faults then (token, fs)
          else (token,
                write_secret faults (write_place sys secret_file) token fs)
      end.

(** The shape of [secrets.token_hex(n)]: [2 n] lower-case hexadecimal
    digits. *)
Definition is_hex_char (c : char) : bool :=
  ((48 <=? c) && (c <=? 57)) || ((97 <=? c) && (c <=? 102)).

Definition is_token_hex (n : nat) (s : str) : bool :=
  Nat.eqb (List.length s) (2 * n) && forallb is_hex_char s.

(* ================================================================== *)
(** * [get_db] and [close_db], app.py lines 83-99 *)

(** The application context [g] and the connections of the process:
    [g_db] is the connection stored in [g], [opened] the connections
    that are open, [next_conn] the next connection to be made. *)
Record app_ctx : Type := mkCtx
  { g_db : option nat; opened : list nat; next_conn : nat }.

Definition get_db (c : app_ctx) : nat * app_ctx :=
  match g_db c with
  | Some conn => (conn, c)
  | None =>
      let conn := next_conn c in
      (conn, mkCtx (Some conn) (conn :: opened c) (S conn))
  end.

Definition close_db (c : app_ctx) : app_ctx :=
  match g_db c with
  | Some conn =>
      mkCtx None (filter (fun x => negb (Nat.eqb x conn)) (opened c))
            (next_conn c)
  | None => c
  end.

(** [n] calls of [get_db] in one context, with the connections they
    return. *)
Fixpoint get_db_many (n : nat) (c : app_ctx) : list nat * app_ctx :=
  match n with
  | O => ([], c)
  | S k => let '(conn, c1) := get_db c in
           let '(conns, c2) := get_db_many k c1 in
           (conn :: conns, c2)
  end.

(* ================================================================== *)
(** * Properties of the stored rows *)

(** Text that is not empty and at most [n] characters long. *)
Definition bounded (n : Z) (s : str) : Prop := s <> [] /\ len s <= n.

(** The field bounds the views enforce before they insert. *)
Definition fields_ok (d : db) : Prop :=
  (forall t, In t (threads d) -> bounded 140 (thread_title t))
  /\ (forall p, In p (posts d) ->
        bounded 32 (post_author p) /\ bounded 5000 (post_content p))
  /\ (forall c, In c (comments d) ->
        bounded 32 (comment_author c) /\ bounded 2000 (comment_content c)).

(** Every thread names a category of the table. *)
Definition categories_ok (d : db) : Prop :=
  forall t, In t (threads d) ->
    exists c, In c (categories d) /\ category_id t = Some (cat_id c).

(** The threads a listing selects: all of them, or those of one category. *)
Definition listed_threads (cat : option category) (d : db) : list thread :=
  match cat with
  | None => threads d
  | Some k =>
      filter (fun t => match category_id t with
                       | Some i => i =? cat_id k
                       | None => false
                       end)
             (threads d)
  end.

(** The category a [cat] argument selects, if any. *)
Definition selected_category (args : dict) (d : db) : option category :=
  match dict_get "cat" args with
  | Some (c :: s) => find (fun k => str_eqb (cat_slug k) (c :: s)) (categories d)
  | _ => None
  end.

Definition whitespace_only (s : str) : Prop :=
  forall c, In c s -> py_isspace c = true.

(** The order of a thread listing: later activity first and, at equal
    activity, the higher id first. *)
Definition listed_before (a b : thread_row) : Prop :=
  last_activity_at (fst b) < last_activity_at (fst a)
  \/ (last_activity_at (fst a) = last_activity_at (fst b)
      /\ thread_id (fst b) <= thread_id (fst a)).

(** The page numbers [1 .. n]. *)
Definition page_numbers (n : Z) : list Z :=
  map Z.of_nat (seq 1 (Z.to_nat n)).

(** The posts and the comments a [thread_view] page shows. *)
Definition page_posts (tid : Z) (args : dict) (d : db) : list post :=
  limit_offset 50 ((page_of args - 1) * 50)
    (order_by (fun a b => post_id a <=? post_id b) (posts_of tid d)).

Definition page_comments (tid : Z) (args : dict) (d : db) : list comment_row :=
  order_by (fun a b => comment_id a <=? comment_id b)
    (filter (fun c => existsb (Z.eqb (comment_post_id c))
                              (map post_id (page_posts tid args d)))
            (comments d)).

Definition page_comments_map (tid : Z) (args : dict) (d : db)
  : list (Z * list comment_row) :=
  if Z.of_nat (List.length (map post_id (page_posts tid args d))) =? 0 then []
  else comments_map_of (page_comments tid args d).

(* ================================================================== *)
(** * Rows that [init_db] finds *)

(** The rows of a table that may not exist yet. *)
Definition stored_threads (d : db) : list thread :=
  if has_threads (db_schema d) then threads d else [].

Definition stored_posts (d : db) : list post :=
  if has_posts (db_schema d) then posts d else [].

Definition stored_comments (d : db) : list comment_row :=
  if has_comments (db_schema d) then comments d else [].

(** A [threads] table written before the [category_id] column existed
    has no category in any row. *)
Definition stored_category (d : db) (t : thread) : option Z :=
  if has_threads (db_schema d) && threads_has_category_id (db_schema d)
  then category_id t else None.

Definition with_category (c : option Z) (t : thread) : thread :=
  mkThread (thread_id t) (thread_title t) (posts_count t)
           (thread_created_at t) (last_activity_at t) c.

(* ================================================================== *)
(** * Start-up with an exhausted [categories] sequence *)

(** Whether the seeding of [init_db] has the rowids it needs: the table
    is missing (it is created with a fresh sequence), or it holds rows
    (nothing is inserted), or four more rowids are left. *)
Definition can_seed (d : db) : bool :=
  negb (has_categories (db_schema d))
  || negb (Z.of_nat (List.length (categories d)) =? 0)
  || fits_int64 (Z.max (seq_categories d) 0 + 4).

(** The statements of [init_db] up to its first [commit], app.py lines
    103-150: the script and the migration.  What they write is durable
    also when the seeding after them fails. *)
Definition init_db_schema : M unit :=
  execute create_schema ;;; migrate_threads.

(* ================================================================== *)
(** * Theorems *)

Section PyStrFacts.

Lemma rstrip_length (s : str) : (List.length (rstrip s) <= List.length s)%nat.
Proof.
  unfold rstrip. induction s as [|c t IH]; simpl; [lia|].
  destruct (rstrip_by py_isspace t) as [|x r].
  - destruct (py_isspace c); simpl; lia.
  - simpl in *; lia.
Qed.

Lemma slice_to_nonneg (s : str) (k : Z) :
  0 <= k -> slice_to s k = firstn (Z.to_nat k) s.
Proof.
  intros Hk. unfold slice_to.
  destruct (k <? 0) eqn:E; [apply Z.ltb_lt in E; lia | reflexivity].
Qed.

End PyStrFacts.

Example clamp_text_short : clamp_text (lit "hello") 140 = lit "hello".
Proof. reflexivity. Qed.

Example clamp_text_long :
  clamp_text (lit "hello   world") 7 = lit "hello" ++ ellipsis.
Proof. reflexivity. Qed.

(** ** C4: [clamp_text] *)

(** C4, as stated, fails for a bound below one: [s[:max_len - 1]] is then a
    slice with a negative bound, which drops characters from the end
    instead of keeping [max_len - 1] of them.  [clamp_text("abc", 0)] is
    ["ab…"], three characters long. *)
Lemma clamp_text_zero_bound_exceeds :
  clamp_text (lit "abc") 0 = lit "ab" ++ ellipsis
  /\ (len (clamp_text (lit "abc") 0) <=? 0) = false.
Proof. split; reflexivity. Qed.

(** C4 (amended): for every text and every bound [max_len >= 1],
    [clamp_text] returns the text unchanged when its length is at most
    [max_len]; otherwise it keeps the first [max_len - 1] characters,
    strips trailing whitespace and appends one ellipsis; the result is never
    longer than [max_len]. *)
Theorem clamp_text_spec (s : str) (max_len : Z) :
  1 <= max_len ->
  (len s <= max_len -> clamp_text s max_len = s)
  /\ (max_len < len s ->
      clamp_text s max_len
      = rstrip (firstn (Z.to_nat (max_len - 1)) s) ++ ellipsis
      /\ len (firstn (Z.to_nat (max_len - 1)) s) = max_len - 1)
  /\ len (clamp_text s max_len) <= max_len.
Proof.
  intros Hpos. unfold clamp_text, len.
  destruct (Z.of_nat (List.length s) <=? max_len) eqn:E.
  - apply Z.leb_le in E. repeat split; try assumption; intros; lia.
  - apply Z.leb_gt in E.
    rewrite slice_to_nonneg by lia.
    assert (Hcut : List.length (firstn (Z.to_nat (max_len - 1)) s)
                   = Z.to_nat (max_len - 1)).
    { rewrite length_firstn. lia. }
    split; [intros; lia|]. split.
    + intros _. split; [reflexivity | rewrite Hcut; lia].
    + rewrite length_app. simpl.
      pose proof (rstrip_length (firstn (Z.to_nat (max_len - 1)) s)). lia.
Qed.

Lemma clamp_text_spec_witness :
  1 <= 7
  /\ clamp_text (lit "hello   world") 7 = lit "hello" ++ ellipsis
  /\ len (clamp_text (lit "hello   world") 7) <= 7.
Proof.
  assert (H1 : 1 <= 7) by lia.
  destruct (clamp_text_spec (lit "hello   world") 7 H1) as (_ & Hcut & Hlen).
  split; [exact H1|]. split; [|exact Hlen].
  destruct Hcut as [Heq _]; [reflexivity|].
  rewrite Heq. reflexivity.
Defined.

(** ** [str.replace] *)

Section ReplaceFacts.

Variables old new : str.

Lemma replace_go_skip (n : nat) (s : str) :
  replace_go old new n s = replace_go old new 0 (skipn n s).
Proof.
  revert n. induction s as [|c t IH]; intros [|k]; try reflexivity.
  simpl. apply IH.
Qed.

Lemma replace_go_step (c : char) (t : str) :
  replace_go old new 0 (c :: t)
  = if startswith old (c :: t)
    then new ++ replace_go old new 0 (skipn (List.length old - 1) t)
    else c :: replace_go old new 0 t.
Proof.
  cbn [replace_go]. destruct (startswith old (c :: t)); [|reflexivity].
  now rewrite replace_go_skip.
Qed.

Lemma startswith_firstn (p s : str) :
  startswith p s = true -> firstn (List.length p) s = p.
Proof.
  revert s. induction p as [|x p IH]; intros [|y s] H; simpl in *;
    try reflexivity; try discriminate.
  apply andb_prop in H as [Hxy Hps]. apply Z.eqb_eq in Hxy. subst y.
  now rewrite IH.
Qed.

Lemma In_skipn (x : char) (n : nat) (s : str) : In x (skipn n s) -> In x s.
Proof.
  revert s. induction n as [|n IH]; intros [|c t] H; simpl in *; auto.
Qed.

(** Induction along the scan of [replace_go]: a match jumps over the
    matched text, a mismatch moves one character on. *)
Lemma replace_go_scan (P : str -> str -> Prop) :
  P [] [] ->
  (forall c t,
      startswith old (c :: t) = true ->
      P (skipn (List.length old - 1) t)
        (replace_go old new 0 (skipn (List.length old - 1) t)) ->
      P (c :: t) (new ++ replace_go old new 0 (skipn (List.length old - 1) t))) ->
  (forall c t,
      startswith old (c :: t) = false ->
      P t (replace_go old new 0 t) ->
      P (c :: t) (c :: replace_go old new 0 t)) ->
  forall s, P s (replace_go old new 0 s).
Proof.
  intros Hnil Hhit Hmiss s.
  remember (List.length s) as n eqn:Hn.
  revert s Hn. induction n as [n IH] using lt_wf_ind. intros s Hn.
  destruct s as [|c t]; [exact Hnil|].
  rewrite replace_go_step.
  destruct (startswith old (c :: t)) eqn:E.
  - apply Hhit; [exact E|].
    apply (IH (List.length (skipn (List.length old - 1) t))); [|reflexivity].
    rewrite length_skipn. subst n. simpl. lia.
  - apply Hmiss; [exact E|].
    apply (IH (List.length t)); [subst n; simpl; lia | reflexivity].
Qed.

(** A character absent from the text and from [new] is absent from the
    result. *)
Lemma replace_go_keeps_out (x : char) (s : str) :
  ~ In x new -> ~ In x s -> ~ In x (replace_go old new 0 s).
Proof.
  intros Hnew. pattern s, (replace_go old new 0 s). apply replace_go_scan.
  - auto.
  - intros c t _ IH Hs Hin. apply in_app_or in Hin as [Hin|Hin]; [tauto|].
    apply IH; [|exact Hin]. intro Hk. apply Hs. right.
    eapply In_skipn; eassumption.
  - intros c t _ IH Hs [Hin|Hin]; [apply Hs; now left|].
    apply IH; [|exact Hin]. intro Hk. apply Hs. now right.
Qed.

(** Text without any occurrence of the first character of [old] is left
    as it is. *)
Lemma replace_go_no_head (o : char) (old' : str) (s : str) :
  old = o :: old' -> ~ In o s -> replace_go old new 0 s = s.
Proof.
  intros Hold. pattern s, (replace_go old new 0 s). apply replace_go_scan.
  - reflexivity.
  - intros c t E _ Hs. exfalso. apply Hs. left.
    rewrite Hold in E. simpl in E. apply andb_prop in E as [E _].
    apply Z.eqb_eq in E. now symmetry.
  - intros c t _ IH Hs. f_equal. apply IH. intro Hk. apply Hs. now right.
Qed.

End ReplaceFacts.

(** Replacing a single character removes it, unless [new] brings it back. *)
Lemma replace_go_removes (c : char) (new s : str) :
  ~ In c new -> ~ In c (replace_go [c] new 0 s).
Proof.
  intros Hnew. pattern s, (replace_go [c] new 0 s). apply replace_go_scan.
  - auto.
  - intros c' t _ IH Hin. apply in_app_or in Hin as [Hin|Hin]; tauto.
  - intros c' t E IH [Hin|Hin]; [|tauto].
    simpl in E. subst c'. rewrite Z.eqb_refl in E. discriminate.
Qed.

(** ** [nl2br] *)

Example nl2br_sample :
  markup_html (nl2br (Some (Str ([97; 13; 10; 98] ++ lit "&lt;br/&gt;c"
                                   ++ [13] ++ lit "d&lt;b&gt;" ++ [10]))))
  = lit "a<br>b<br>c<br>d&lt;b&gt;<br>".
Proof. reflexivity. Qed.

(** Upper-case or otherwise different spellings are not converted. *)
Example nl2br_other_tags_stay_escaped :
  markup_html (nl2br (Some (Str (lit "&lt;BR&gt;&lt;b&gt;&lt;br  /&gt;"))))
  = lit "&lt;BR&gt;&lt;b&gt;&lt;br  /&gt;".
Proof. reflexivity. Qed.

Lemma br_only_app (a b : str) : br_only a -> br_only b -> br_only (a ++ b).
Proof.
  intros Ha Hb. induction Ha as [|c s H1 H2 _ IH|s _ IH]; simpl.
  - exact Hb.
  - now apply br_only_char.
  - apply (br_only_br (s ++ b)). exact IH.
Qed.

Lemma br_only_skipn (n : nat) (s : str) :
  br_only s -> ~ In LT (firstn n s) -> br_only (skipn n s).
Proof.
  revert s. induction n as [|n IH]; intros s Hs Hno; [exact Hs|].
  inversion Hs as [Hnil|c t H1 H2 Ht Heq|t Ht Heq]; subst.
  - constructor.
  - simpl. apply IH; [exact Ht|]. intro Hin. apply Hno. now right.
  - exfalso. apply Hno. now left.
Qed.

Lemma br_only_of_escaped (s : str) : escaped s -> br_only s.
Proof.
  intros [H1 H2]. induction s as [|c t IH]; constructor.
  - intro E. apply H1. now left.
  - intro E. apply H2. now left.
  - apply IH; intro Hin; [apply H1 | apply H2]; now right.
Qed.

Section ReplaceKeepsTags.

Variables (o : char) (old' new : str).
Hypothesis o_not_lt : o <> LT.
Hypothesis o_not_b : o <> 98.
Hypothesis o_not_r : o <> 114.
Hypothesis o_not_gt : o <> GT.
Hypothesis old_no_lt : ~ In LT (o :: old').
Hypothesis new_ok : br_only new.

Lemma startswith_miss (c : char) (t : str) :
  o <> c -> startswith (o :: old') (c :: t) = false.
Proof.
  intros Hne. simpl. apply Z.eqb_neq in Hne. now rewrite Hne.
Qed.

Lemma replace_go_over_br (t : str) :
  replace_go (o :: old') new 0 (BR ++ t)
  = BR ++ replace_go (o :: old') new 0 t.
Proof.
  change (BR ++ t) with (LT :: 98 :: 114 :: GT :: t).
  rewrite replace_go_step, startswith_miss by assumption.
  rewrite replace_go_step, startswith_miss by assumption.
  rewrite replace_go_step, startswith_miss by assumption.
  rewrite replace_go_step, startswith_miss by assumption.
  reflexivity.
Qed.

(** A replacement whose pattern has no angle bracket and cannot start
    inside a [<br>] keeps the text free of other tags. *)
Lemma replace_go_br_only (s : str) :
  br_only s -> br_only (replace_go (o :: old') new 0 s).
Proof.
  remember (List.length s) as n eqn:Hn.
  revert s Hn. induction n as [n IH] using lt_wf_ind. intros s Hn Hs.
  inversion Hs as [Hnil|c t H1 H2 Ht Heq|t Ht Heq]; subst s.
  - constructor.
  - rewrite replace_go_step.
    destruct (startswith (o :: old') (c :: t)) eqn:E.
    + apply br_only_app; [exact new_ok|].
      pose proof (startswith_firstn _ _ E) as Hpre.
      set (k := (List.length (o :: old') - 1)%nat) in *.
      apply (IH (List.length (skipn k t))); [|reflexivity|].
      * rewrite length_skipn. subst n. simpl. lia.
      * apply br_only_skipn; [exact Ht|].
        intro Hin. apply old_no_lt. rewrite <- Hpre.
        simpl. right. subst k. simpl in Hin.
        now rewrite Nat.sub_0_r in Hin.
    + apply br_only_char; try assumption.
      apply (IH (List.length t)); [subst n; simpl; lia | reflexivity | exact Ht].
  - rewrite replace_go_over_br. apply br_only_br.
    apply (IH (List.length t)); [|reflexivity|exact Ht].
    subst n. rewrite length_app. simpl. lia.
Qed.

End ReplaceKeepsTags.

Lemma opt_or_some_nil (s : str) : opt_or (Some s) [] = s.
Proof. now destruct s. Qed.

Lemma br_only_BR : br_only BR.
Proof. exact (br_only_br [] br_only_nil). Qed.

Lemma br_only_LF : br_only [LF].
Proof. apply br_only_char; [discriminate | discriminate | constructor]. Qed.

Ltac not_among := cbv; intuition discriminate.

Lemma normalize_newlines_br_only (s : str) :
  br_only s -> br_only (normalize_newlines s).
Proof.
  intro H. unfold normalize_newlines, replace.
  apply replace_go_br_only; try discriminate; try not_among;
    [apply br_only_LF|].
  apply replace_go_br_only; try discriminate; try not_among.
  apply br_only_LF.
Qed.

Lemma unescape_br_br_only (s : str) : br_only s -> br_only (unescape_br s).
Proof.
  intro H. unfold unescape_br.
  change (lit "&lt;br /&gt;") with (38 :: lit "lt;br /&gt;").
  change (lit "&lt;br/&gt;") with (38 :: lit "lt;br/&gt;").
  change (lit "&lt;br&gt;") with (38 :: lit "lt;br&gt;").
  unfold replace.
  repeat (apply replace_go_br_only; try discriminate; try not_among;
          try apply br_only_BR).
Qed.

Lemma newlines_to_br_br_only (s : str) :
  br_only s -> br_only (newlines_to_br s).
Proof.
  intro H. unfold newlines_to_br, replace.
  apply replace_go_br_only; try discriminate; try not_among.
  apply br_only_BR.
Qed.

Lemma normalize_newlines_no_CR (s : str) : ~ In CR (normalize_newlines s).
Proof.
  unfold normalize_newlines, replace. apply replace_go_removes. not_among.
Qed.

Lemma unescape_br_keeps_out (x : char) (s : str) :
  ~ In x BR -> ~ In x s -> ~ In x (unescape_br s).
Proof.
  intros Hx H. unfold unescape_br.
  change (lit "&lt;br /&gt;") with (38 :: lit "lt;br /&gt;").
  change (lit "&lt;br/&gt;") with (38 :: lit "lt;br/&gt;").
  change (lit "&lt;br&gt;") with (38 :: lit "lt;br&gt;").
  unfold replace.
  repeat (apply replace_go_keeps_out; [exact Hx|]).
  exact H.
Qed.

(** ** [nl2br] on a plain string *)

(** On a plain [str] holding escaped text (no angle bracket left),
    [nl2br] is the composition, in this order, of newline normalisation
    ([\r\n] and [\r] to [\n]), the conversion of exactly [&lt;br&gt;],
    [&lt;br/&gt;] and [&lt;br /&gt;] to [<br>], and the conversion of
    every [\n] to [<br>].  Its output holds no angle bracket outside a
    [<br>] tag, no carriage return and no newline, and text without [\r],
    [\n] and [&] comes out as it went in. *)
Lemma nl2br_stages (s : str) :
  escaped s ->
  nl2br (Some (Str s))
  = mkMarkup (newlines_to_br (unescape_br (normalize_newlines s)))
  /\ br_only (markup_html (nl2br (Some (Str s))))
  /\ ~ In CR (markup_html (nl2br (Some (Str s))))
  /\ ~ In LF (markup_html (nl2br (Some (Str s))))
  /\ (~ In CR s -> ~ In LF s -> ~ In 38 s ->
      markup_html (nl2br (Some (Str s))) = s).
Proof.
  intros Hesc.
  assert (Heq : nl2br (Some (Str s))
                = mkMarkup (newlines_to_br (unescape_br (normalize_newlines s)))).
  { unfold nl2br. now destruct s. }
  rewrite Heq. cbn [markup_html]. split; [reflexivity|].
  split; [|split; [|split]].
  - apply newlines_to_br_br_only, unescape_br_br_only,
      normalize_newlines_br_only, br_only_of_escaped, Hesc.
  - unfold newlines_to_br, replace.
    apply replace_go_keeps_out; [not_among|].
    apply unescape_br_keeps_out; [not_among|].
    apply normalize_newlines_no_CR.
  - unfold newlines_to_br, replace. apply replace_go_removes. not_among.
  - intros HCR HLF Hamp.
    assert (Hn : normalize_newlines s = s).
    { unfold normalize_newlines, replace.
      rewrite (replace_go_no_head [CR; LF] [LF] CR [LF]) by (auto; reflexivity).
      now rewrite (replace_go_no_head [CR] [LF] CR []) by (auto; reflexivity). }
    assert (Hu : unescape_br s = s).
    { unfold unescape_br.
      change (lit "&lt;br /&gt;") with (38 :: lit "lt;br /&gt;").
      change (lit "&lt;br/&gt;") with (38 :: lit "lt;br/&gt;").
      change (lit "&lt;br&gt;") with (38 :: lit "lt;br&gt;").
      unfold replace.
      rewrite (replace_go_no_head (38 :: lit "lt;br&gt;") BR 38 (lit "lt;br&gt;"))
        by (auto; reflexivity).
      rewrite (replace_go_no_head (38 :: lit "lt;br/&gt;") BR 38 (lit "lt;br/&gt;"))
        by (auto; reflexivity).
      now rewrite (replace_go_no_head (38 :: lit "lt;br /&gt;") BR 38 (lit "lt;br /&gt;"))
        by (auto; reflexivity). }
    rewrite Hn, Hu. unfold newlines_to_br, replace.
    now rewrite (replace_go_no_head [LF] BR LF []) by (auto; reflexivity).
Qed.

Example nl2br_plain_str_sample :
  markup_html (nl2br (Some (Str (lit "a&lt;br&gt;b" ++ [CR; LF] ++ lit "c"))))
  = lit "a<br>b<br>c".
Proof. reflexivity. Qed.

(** ** C9: [nl2br] after the [e] filter *)

Example escape_sample :
  escape (lit "<a href='x'>&</a>")
  = lit "&lt;a href=&#39;x&#39;&gt;&amp;&lt;/a&gt;"
  /\ escape [34] = lit "&#34;"
  /\ escape BR = lit "&lt;br&gt;"
  /\ escape (lit "&lt;br&gt;") = lit "&amp;lt;br&amp;gt;".
Proof. repeat split. Qed.

(** C9 fails on the code for the input the function is documented for,
    text escaped by the [e] filter ([| e | nl2br]).  That input is a
    [Markup], on which [replace] escapes its arguments: a newline is
    replaced by the text [&lt;br&gt;], not by a [<br>] tag, and a typed
    [<br>], escaped to [&lt;br&gt;], is left as it is.  Whatever the
    escaped input, the output holds no angle bracket, hence no [<br>] at
    all.  The same characters as a plain [str] give the breaks the claim
    describes. *)
Theorem nl2br_markup_gets_no_break :
  nl2br (Some (e_filter (Str (lit "a" ++ [LF] ++ lit "b" ++ [LF] ++ lit "c"))))
  = mkMarkup (lit "a&lt;br&gt;b&lt;br&gt;c")
  /\ nl2br (Some (e_filter (Str (lit "x<br>y"))))
     = mkMarkup (lit "x&lt;br&gt;y")
  /\ (forall m : Markup,
        escaped (markup_html m) ->
        escaped (markup_html (nl2br (Some (Safe m)))))
  /\ nl2br (Some (Str (lit "a" ++ [LF] ++ lit "b" ++ [LF] ++ lit "c")))
     = mkMarkup (lit "a<br>b<br>c")
  /\ nl2br (Some (Str (escape (lit "x<br>y"))))
     = mkMarkup (lit "x<br>y").
Proof.
  split; [reflexivity|]. split; [reflexivity|].
  split; [|split; reflexivity].
  intros [s] [H1 H2]. cbn [markup_html] in *. unfold nl2br, text_or_empty.
  cbn [markup_html]. destruct s as [|c t]; [split; intros []|].
  set (s := c :: t) in *. cbn [text_replace to_Markup markup_html].
  change (escape [CR; LF]) with [CR; LF].
  change (escape [CR]) with [CR].
  change (escape [LF]) with [LF].
  change (escape BR) with (lit "&lt;br&gt;").
  change (escape (lit "&lt;br&gt;")) with (38 :: lit "amp;lt;br&amp;gt;").
  change (escape (lit "&lt;br/&gt;")) with (38 :: lit "amp;lt;br/&amp;gt;").
  change (escape (lit "&lt;br /&gt;")) with (38 :: lit "amp;lt;br /&amp;gt;").
  unfold replace.
  split;
    repeat (apply replace_go_keeps_out; [not_among|]); assumption.
Qed.

(** ** C10: [None] and the empty string *)

(** C10: [nl2br] and [markdown_to_html] take [None] for the empty string:
    [nl2br] returns the empty fragment for both, also for an empty
    [Markup], and [markdown_to_html] hands the empty string to the
    Markdown renderer and the sanitizer in both cases and wraps what they
    return. *)
Theorem renderers_accept_none_and_empty
    (md_render : string -> bool -> str -> str)
    (bleach_clean :
       list str -> list (str * list str) -> list str -> bool -> str -> str) :
  nl2br None = mkMarkup []
  /\ nl2br (Some (Str [])) = mkMarkup []
  /\ nl2br (Some (Safe (mkMarkup []))) = mkMarkup []
  /\ markdown_to_html md_render bleach_clean None
     = mkMarkup (bleach_clean _ALLOWED_TAGS _ALLOWED_ATTRS _ALLOWED_PROTOCOLS
                              true (md_render "commonmark"%string true []))
  /\ markdown_to_html md_render bleach_clean (Some [])
     = markdown_to_html md_render bleach_clean None.
Proof. repeat split. Qed.

(** ** [init_db] *)

Lemma create_index_eq (n : string) (d : db) :
  create_index n d
  = let s := db_schema d in
    set_schema (mkSchema (has_categories s) (has_threads s) (has_posts s)
                         (has_comments s) (threads_has_category_id s)
                         (if has_index n s then indexes s
                          else indexes s ++ [n]))
               d.
Proof.
  destruct d as [[hc ht hp hm col idx] cs ts ps ms q1 q2 q3 q4].
  unfold create_index. simpl. now destruct (has_index n _).
Qed.

Lemma existsb_grows (n m : string) (b : bool) (idx : list string) :
  existsb (String.eqb n) idx = true ->
  existsb (String.eqb n) (if b then idx else idx ++ [m]) = true.
Proof.
  intros H. destruct b; [exact H|]. rewrite existsb_app, H. reflexivity.
Qed.

Lemma create_index_has (n : string) (d : db) :
  has_index n (db_schema (create_index n d)) = true.
Proof.
  rewrite create_index_eq.
  destruct d as [[hc ht hp hm col idx] cs ts ps ms q1 q2 q3 q4].
  unfold has_index. simpl.
  destruct (existsb (String.eqb n) idx) eqn:E; [exact E|].
  rewrite existsb_app. simpl. rewrite String.eqb_refl.
  now rewrite orb_true_r.
Qed.

Lemma create_index_keeps (n m : string) (d : db) :
  has_index n (db_schema d) = true ->
  has_index n (db_schema (create_index m d)) = true.
Proof.
  rewrite create_index_eq.
  destruct d as [[hc ht hp hm col idx] cs ts ps ms q1 q2 q3 q4].
  unfold has_index. simpl. apply existsb_grows.
Qed.

Lemma create_index_present (n : string) (d : db) :
  has_index n (db_schema d) = true -> create_index n d = d.
Proof.
  intros H. unfold create_index. now rewrite H.
Qed.

Lemma coalesce_category_id (default : Z) (ts : list thread) :
  Forall (fun t => category_id t <> None) ts ->
  map (coalesce_category default) ts = ts.
Proof.
  induction 1 as [|t ts Ht _ IH]; simpl; [reflexivity|].
  rewrite IH. f_equal. unfold coalesce_category.
  destruct (category_id t); [reflexivity | contradiction].
Qed.

Lemma coalesce_category_fills (default : Z) (ts : list thread) :
  Forall (fun t => category_id t <> None)
         (map (coalesce_category default) ts).
Proof.
  induction ts as [|t ts IH]; simpl; constructor; [|exact IH].
  unfold coalesce_category. destruct (category_id t) eqn:E; simpl.
  - rewrite E. discriminate.
  - discriminate.
Qed.

Lemma lowest_category_id_some (c : category) (cs : list category) :
  exists m, lowest_category_id (c :: cs) = Some m.
Proof.
  simpl. destruct (lowest_category_id cs); eauto.
Qed.

Lemma init_db_initialized (d : db) :
  initialized d -> init_db d = Ok (tt, d).
Proof.
  destruct d as [[hc ht hp hm col idx] cs ts ps ms q1 q2 q3 q4].
  unfold initialized. simpl.
  intros (-> & -> & -> & -> & -> & H1 & H2 & H3 & Hcs & Hts).
  unfold init_db, migrate_threads, seed_categories, backfill_threads.
  unfold bind, execute, query, ret, create_schema.
  unfold create_comments, create_posts, create_threads, create_categories.
  simpl.
  rewrite (create_index_present "idx_threads_last_activity") by exact H1.
  rewrite (create_index_present "idx_posts_thread_id") by exact H2.
  rewrite (create_index_present "idx_comments_post_id") by exact H3.
  simpl.
  destruct cs as [|c cs]; [contradiction|].
  destruct (lowest_category_id_some c cs) as [m Hm].
  cbn [List.length]. rewrite Nat2Z.inj_succ.
  destruct (Z.succ (Z.of_nat (List.length cs)) =? 0) eqn:E;
    [apply Z.eqb_eq in E; lia|].
  cbn [categories]. rewrite Hm. unfold set_threads. simpl.
  now rewrite coalesce_category_id.
Qed.

Lemma bind_Ok {A B} (m : M A) (k : A -> M B) (d d' : db) (a : A) :
  m d = Ok (a, d') -> bind m k d = k a d'.
Proof. intros H. unfold bind. now rewrite H. Qed.

Lemma create_index_tables (n : string) (d : db) :
  tables_of (create_index n d) = tables_of d
  /\ categories (create_index n d) = categories d.
Proof.
  unfold create_index. now destruct (has_index n (db_schema d)).
Qed.

Lemma create_categories_tables (d : db) :
  tables_of (create_categories d)
  = (let '(_, ht, hp, hm) := tables_of d in (true, ht, hp, hm))
  /\ categories (create_categories d)
     = (if has_categories (db_schema d) then categories d else []).
Proof.
  unfold create_categories, tables_of.
  destruct (has_categories (db_schema d)) eqn:E; [rewrite E|]; now split.
Qed.

Lemma create_threads_tables (d : db) :
  tables_of (create_threads d)
  = (let '(hc, _, hp, hm) := tables_of d in (hc, true, hp, hm))
  /\ categories (create_threads d) = categories d.
Proof.
  unfold create_threads, tables_of.
  destruct (has_threads (db_schema d)) eqn:E; [rewrite E|]; now split.
Qed.

Lemma create_posts_tables (d : db) :
  tables_of (create_posts d)
  = (let '(hc, ht, _, hm) := tables_of d in (hc, ht, true, hm))
  /\ categories (create_posts d) = categories d.
Proof.
  unfold create_posts, tables_of.
  destruct (has_posts (db_schema d)) eqn:E; [rewrite E|]; now split.
Qed.

Lemma create_comments_tables (d : db) :
  tables_of (create_comments d)
  = (let '(hc, ht, hp, _) := tables_of d in (hc, ht, hp, true))
  /\ categories (create_comments d) = categories d.
Proof.
  unfold create_comments, tables_of.
  destruct (has_comments (db_schema d)) eqn:E; [rewrite E|]; now split.
Qed.

Lemma create_schema_tables (d : db) :
  tables_of (create_schema d) = (true, true, true, true).
Proof.
  unfold create_schema.
  rewrite (proj1 (create_index_tables _ _)).
  rewrite (proj1 (create_comments_tables _)).
  rewrite (proj1 (create_index_tables _ _)).
  rewrite (proj1 (create_index_tables _ _)).
  rewrite (proj1 (create_posts_tables _)).
  rewrite (proj1 (create_threads_tables _)).
  rewrite (proj1 (create_categories_tables _)).
  now destruct (tables_of d) as [[[hc ht] hp] hm].
Qed.

Lemma create_schema_categories (d : db) :
  categories (create_schema d)
  = (if has_categories (db_schema d) then categories d else []).
Proof.
  unfold create_schema.
  rewrite (proj2 (create_index_tables _ _)).
  rewrite (proj2 (create_comments_tables _)).
  rewrite (proj2 (create_index_tables _ _)).
  rewrite (proj2 (create_index_tables _ _)).
  rewrite (proj2 (create_posts_tables _)).
  rewrite (proj2 (create_threads_tables _)).
  apply create_categories_tables.
Qed.

Lemma create_comments_indexes (d : db) :
  indexes (db_schema (create_comments d)) = indexes (db_schema d).
Proof.
  destruct d as [[hc ht hp hm col idx] cs ts ps ms q1 q2 q3 q4].
  unfold create_comments. cbn. now destruct hm.
Qed.

Lemma create_schema_indexes (d : db) :
  let s' := db_schema (create_schema d) in
  has_index "idx_threads_last_activity" s' = true
  /\ has_index "idx_posts_thread_id" s' = true
  /\ has_index "idx_comments_post_id" s' = true.
Proof.
  unfold create_schema. cbv zeta. repeat split.
  - apply create_index_keeps. unfold has_index.
    rewrite create_comments_indexes.
    apply create_index_keeps, create_index_has.
  - apply create_index_keeps. unfold has_index.
    rewrite create_comments_indexes. apply create_index_has.
  - apply create_index_has.
Qed.

Lemma migrate_threads_spec (d : db) :
  has_threads (db_schema d) = true ->
  exists d',
    migrate_threads d = Ok (tt, d')
    /\ has_categories (db_schema d') = has_categories (db_schema d)
    /\ has_threads (db_schema d') = true
    /\ has_posts (db_schema d') = has_posts (db_schema d)
    /\ has_comments (db_schema d') = has_comments (db_schema d)
    /\ threads_has_category_id (db_schema d') = true
    /\ (forall n, has_index n (db_schema d) = true ->
                  has_index n (db_schema d') = true)
    /\ categories d' = categories d.
Proof.
  destruct d as [[hc ht hp hm col idx] cs ts ps ms q1 q2 q3 q4].
  cbn. intros ->.
  unfold migrate_threads, bind, query, ret, threads_columns. cbn.
  destruct col; cbn.
  - eexists. split; [reflexivity|]. cbn. auto 10.
  - unfold alter_threads_add_category_id, execute. cbn.
    eexists. split; [reflexivity|].
    rewrite create_index_eq. cbn. repeat split; try reflexivity.
    intros n Hn. unfold has_index in *. cbn in *. now apply existsb_grows.
Qed.

Lemma create_index_seq (n : string) (d : db) :
  seq_categories (create_index n d) = seq_categories d.
Proof. unfold create_index. now destruct (has_index n (db_schema d)). Qed.

Lemma create_categories_seq (d : db) :
  seq_categories (create_categories d)
  = (if has_categories (db_schema d) then seq_categories d else 0).
Proof. unfold create_categories. now destruct (has_categories (db_schema d)). Qed.

Lemma create_threads_seq (d : db) :
  seq_categories (create_threads d) = seq_categories d.
Proof. unfold create_threads. now destruct (has_threads (db_schema d)). Qed.

Lemma create_posts_seq (d : db) :
  seq_categories (create_posts d) = seq_categories d.
Proof. unfold create_posts. now destruct (has_posts (db_schema d)). Qed.

Lemma create_comments_seq (d : db) :
  seq_categories (create_comments d) = seq_categories d.
Proof. unfold create_comments. now destruct (has_comments (db_schema d)). Qed.

Lemma create_schema_seq (d : db) :
  seq_categories (create_schema d)
  = (if has_categories (db_schema d) then seq_categories d else 0).
Proof.
  unfold create_schema.
  rewrite create_index_seq, create_comments_seq, !create_index_seq,
    create_posts_seq, create_threads_seq.
  apply create_categories_seq.
Qed.

Lemma migrate_threads_seq (d d' : db) :
  migrate_threads d = Ok (tt, d') -> seq_categories d' = seq_categories d.
Proof.
  destruct d as [[hc ht hp hm col idx] cs ts ps ms q1 q2 q3 q4].
  unfold migrate_threads, bind, query, ret, threads_columns,
    alter_threads_add_category_id, execute.
  cbn. destruct ht, col; cbn; try discriminate;
    try rewrite create_index_eq; intros [= <-]; reflexivity.
Qed.

Lemma fits_int64_below (a b : Z) :
  0 <= a <= b -> fits_int64 b = true -> fits_int64 a = true.
Proof.
  unfold fits_int64. intros H Hb. apply andb_prop in Hb as [_ Hb].
  apply Z.ltb_lt in Hb. apply andb_true_intro. split.
  - apply Z.leb_le. lia.
  - apply Z.ltb_lt. lia.
Qed.

Lemma fits_int64_above (a b : Z) :
  0 <= a <= b -> fits_int64 a = false -> fits_int64 b = false.
Proof.
  intros H Ha. destruct (fits_int64 b) eqn:E; [|reflexivity].
  now rewrite (fits_int64_below a b H E) in Ha.
Qed.

Ltac slug_is_new :=
  match goal with
  | |- context [if ?b then Raise IntegrityError else _] =>
      change b with false; cbv iota
  end.

(** The seeding of an empty table, insert by insert: the rowids are the
    four after the sequence, and the first one that does not fit stops
    it. *)
Lemma seed_defaults (d : db) :
  categories d = [] ->
  executemany insert_category default_categories d
  = let m := Z.max (seq_categories d) 0 in
    if fits_int64 (m + 4)
    then Ok (tt, set_categories
                   [mkCategory (m + 1) (lit "technology") (lit "Technology");
                    mkCategory (m + 2) (lit "learning") (lit "Learning");
                    mkCategory (m + 3) (lit "politics") (lit "Politics");
                    mkCategory (m + 4) (lit "secret") (lit "Secret")]
                   (m + 4) d)
    else Raise OperationalError.
Proof.
  destruct d as [s cs ts ps ms q1 q2 q3 q4]. cbn [categories seq_categories].
  intros ->. cbv zeta. set (m := Z.max q1 0).
  assert (Hm : 0 <= m) by (subst m; lia).
  assert (E1 : next_rowid q1 [] = m + 1)
    by (unfold next_rowid, list_max; cbn [fold_right]; subst m; lia).
  assert (E2 : next_rowid (m + 1) [m + 1] = m + 2)
    by (unfold next_rowid, list_max; cbn [fold_right]; lia).
  assert (E3 : next_rowid (m + 2) [m + 1; m + 2] = m + 3)
    by (unfold next_rowid, list_max; cbn [fold_right]; lia).
  assert (E4 : next_rowid (m + 3) [m + 1; m + 2; m + 3] = m + 4)
    by (unfold next_rowid, list_max; cbn [fold_right]; lia).
  unfold default_categories, executemany, bind, ret, insert_category,
    set_categories.
  cbn [categories seq_categories db_schema threads posts comments
       seq_threads seq_posts seq_comments map cat_id app fst snd].
  rewrite E1.
  destruct (fits_int64 (m + 1)) eqn:F1; cbn [negb];
    [|now rewrite (fits_int64_above (m + 1) (m + 4)) by (auto; lia)].
  cbn [existsb categories seq_categories db_schema threads posts comments
       seq_threads seq_posts seq_comments map cat_id app fst snd].
  rewrite E2.
  destruct (fits_int64 (m + 2)) eqn:F2; cbn [negb];
    [|now rewrite (fits_int64_above (m + 2) (m + 4)) by (auto; lia)].
  slug_is_new.
  cbn [categories seq_categories db_schema threads posts comments
       seq_threads seq_posts seq_comments map cat_id app fst snd].
  rewrite E3.
  destruct (fits_int64 (m + 3)) eqn:F3; cbn [negb];
    [|now rewrite (fits_int64_above (m + 3) (m + 4)) by (auto; lia)].
  slug_is_new.
  cbn [categories seq_categories db_schema threads posts comments
       seq_threads seq_posts seq_comments map cat_id app fst snd].
  rewrite E4.
  destruct (fits_int64 (m + 4)) eqn:F4; cbn [negb]; [|reflexivity].
  slug_is_new. reflexivity.
Qed.

Lemma seed_categories_spec (d : db) :
  (Z.of_nat (List.length (categories d)) =? 0) = false
  \/ fits_int64 (Z.max (seq_categories d) 0 + 4) = true ->
  exists d',
    seed_categories d = Ok (tt, d')
    /\ db_schema d' = db_schema d
    /\ threads d' = threads d
    /\ categories d' <> []
    /\ (if Z.of_nat (List.length (categories d)) =? 0
        then map (fun c => (cat_slug c, cat_name c)) (categories d')
             = default_categories
        else d' = d).
Proof.
  intros Hroom. unfold seed_categories, bind, query, ret.
  destruct (Z.of_nat (List.length (categories d)) =? 0) eqn:E.
  - destruct Hroom as [Hroom|Hroom]; [discriminate|].
    assert (Hcs : categories d = []).
    { apply Z.eqb_eq in E. destruct (categories d); [reflexivity|].
      simpl in E. lia. }
    rewrite (seed_defaults d Hcs). cbv zeta. rewrite Hroom.
    eexists. split; [reflexivity|].
    destruct d as [s cs ts ps ms q1 q2 q3 q4].
    cbn [set_categories db_schema threads categories map cat_slug cat_name].
    repeat split. discriminate.
  - exists d. repeat split.
    destruct (categories d); [discriminate E | discriminate].
Qed.

Lemma seed_categories_full (d : db) :
  categories d = [] ->
  fits_int64 (Z.max (seq_categories d) 0 + 4) = false ->
  seed_categories d = Raise OperationalError.
Proof.
  intros Hcs Hfull. unfold seed_categories, bind, query, ret.
  rewrite Hcs. cbn [List.length Z.of_nat Z.eqb].
  rewrite (seed_defaults d Hcs). cbv zeta. now rewrite Hfull.
Qed.

Lemma backfill_threads_spec (d : db) :
  categories d <> [] ->
  exists d',
    backfill_threads d = Ok (tt, d')
    /\ db_schema d' = db_schema d
    /\ categories d' = categories d
    /\ Forall (fun t => category_id t <> None) (threads d').
Proof.
  destruct d as [s cs ts ps ms q1 q2 q3 q4]. cbn [categories].
  intros Hcs. destruct cs as [|c cs]; [contradiction|].
  destruct (lowest_category_id_some c cs) as [m Hm].
  unfold backfill_threads, bind, query, execute. cbn [categories].
  rewrite Hm. eexists. split; [reflexivity|]. cbn.
  repeat split. apply coalesce_category_fills.
Qed.

Lemma init_db_schema_Ok (d d0 : db) :
  init_db_schema d = Ok (tt, d0) ->
  init_db d = (seed_categories ;;; backfill_threads) d0.
Proof.
  unfold init_db_schema, init_db, bind, execute.
  destruct (migrate_threads (create_schema d)) as [[[] d1]| |];
    [|discriminate|discriminate].
  now intros [= ->].
Qed.

(** The schema part of [init_db] runs on every database, and leaves one
    on which it has nothing left to do. *)
Lemma init_db_schema_runs (d : db) :
  exists d0,
    init_db_schema d = Ok (tt, d0)
    /\ init_db_schema d0 = Ok (tt, d0)
    /\ (let s := db_schema d0 in
        has_categories s = true /\ has_threads s = true
        /\ has_posts s = true /\ has_comments s = true
        /\ threads_has_category_id s = true
        /\ has_index "idx_threads_last_activity" s = true
        /\ has_index "idx_posts_thread_id" s = true
        /\ has_index "idx_comments_post_id" s = true)
    /\ categories d0
       = (if has_categories (db_schema d) then categories d else [])
    /\ seq_categories d0
       = (if has_categories (db_schema d) then seq_categories d else 0).
Proof.
  pose proof (create_schema_tables d) as T. unfold tables_of in T.
  injection T as T1 T2 T3 T4.
  destruct (create_schema_indexes d) as (I1 & I2 & I3).
  pose proof (create_schema_categories d) as C0.
  pose proof (create_schema_seq d) as Q0.
  set (da := create_schema d) in *.
  destruct (migrate_threads_spec da T2)
    as (d0 & Eb & B1 & B2 & B3 & B4 & B5 & B6 & B7).
  pose proof (migrate_threads_seq _ _ Eb) as Q1.
  exists d0.
  assert (R : let s := db_schema d0 in
              has_categories s = true /\ has_threads s = true
              /\ has_posts s = true /\ has_comments s = true
              /\ threads_has_category_id s = true
              /\ has_index "idx_threads_last_activity" s = true
              /\ has_index "idx_posts_thread_id" s = true
              /\ has_index "idx_comments_post_id" s = true).
  { cbv zeta. rewrite B1, B2, B3, B4, B5, T1, T3, T4. repeat split; auto. }
  split; [|split; [|split; [exact R|split]]].
  - unfold init_db_schema.
    now rewrite (bind_Ok _ _ d da tt) by reflexivity.
  - clear - R. destruct d0 as [[hc ht hp hm col idx] cs ts ps ms q1 q2 q3 q4].
    cbv zeta in R. simpl in R.
    destruct R as (-> & -> & -> & -> & -> & H1 & H2 & H3).
    unfold init_db_schema, migrate_threads.
    unfold bind, execute, query, ret, create_schema.
    unfold create_comments, create_posts, create_threads, create_categories.
    simpl.
    rewrite (create_index_present "idx_threads_last_activity") by exact H1.
    rewrite (create_index_present "idx_posts_thread_id") by exact H2.
    rewrite (create_index_present "idx_comments_post_id") by exact H3.
    reflexivity.
  - now rewrite B7.
  - now rewrite Q1.
Qed.

Lemma can_seed_after_schema (d d0 : db) :
  categories d0 = (if has_categories (db_schema d) then categories d else []) ->
  seq_categories d0
  = (if has_categories (db_schema d) then seq_categories d else 0) ->
  can_seed d
  = (negb (Z.of_nat (List.length (categories d0)) =? 0)
     || fits_int64 (Z.max (seq_categories d0) 0 + 4)).
Proof.
  intros -> ->. unfold can_seed.
  destruct (has_categories (db_schema d)); reflexivity.
Qed.

(** When the seeding has the rowids it needs, [init_db] succeeds and
    leaves an initialised database, with the categories it found or, when
    there were none, the four defaults. *)
Lemma init_db_runs (d : db) :
  can_seed d = true ->
  exists d1,
    init_db d = Ok (tt, d1)
    /\ initialized d1
    /\ (if has_categories (db_schema d)
           && negb (Z.of_nat (List.length (categories d)) =? 0)
        then categories d1 = categories d
        else map (fun c => (cat_slug c, cat_name c)) (categories d1)
             = default_categories).
Proof.
  intros Hroom.
  destruct (init_db_schema_runs d) as (d0 & E0 & _ & R & C0 & Q0).
  rewrite (can_seed_after_schema d d0 C0 Q0) in Hroom.
  cbv zeta in R. destruct R as (R1 & R2 & R3 & R4 & R5 & R6 & R7 & R8).
  assert (Hseed : (Z.of_nat (List.length (categories d0)) =? 0) = false
                  \/ fits_int64 (Z.max (seq_categories d0) 0 + 4) = true).
  { apply orb_prop in Hroom as [H|H]; [left|now right].
    now apply negb_true_iff in H. }
  destruct (seed_categories_spec d0 Hseed) as (dc & Ec & C1 & C2 & C3 & C4).
  destruct (backfill_threads_spec dc C3) as (d1 & E1 & D1 & D2 & D3).
  exists d1. split.
  - rewrite (init_db_schema_Ok d d0 E0).
    now rewrite (bind_Ok _ _ d0 dc tt Ec).
  - split.
    + unfold initialized. cbv zeta. rewrite D1, C1, D2.
      repeat split; auto.
    + rewrite D2. rewrite C0 in C4.
      destruct (has_categories (db_schema d)); cbn [andb].
      * destruct (Z.of_nat (List.length (categories d)) =? 0); cbn [negb].
        -- exact C4.
        -- subst dc. exact C0.
      * exact C4.
Qed.

(** When it has not, [init_db] raises while seeding; the schema part,
    which is committed before, has been done and a second start finds
    nothing to add to it and fails in the same way. *)
Lemma init_db_full (d : db) :
  can_seed d = false ->
  init_db d = Raise OperationalError
  /\ exists d0,
       init_db_schema d = Ok (tt, d0)
       /\ init_db_schema d0 = Ok (tt, d0)
       /\ init_db d0 = Raise OperationalError
       /\ categories d0 = []
       /\ threads_columns (db_schema d0)
          = ["id"; "title"; "posts_count"; "created_at"; "last_activity_at";
             "category_id"]%string.
Proof.
  intros Hfull.
  destruct (init_db_schema_runs d) as (d0 & E0 & E0' & R & C0 & Q0).
  rewrite (can_seed_after_schema d d0 C0 Q0) in Hfull.
  apply orb_false_elim in Hfull as [Hlen Hfit].
  apply negb_false_iff, Z.eqb_eq in Hlen.
  assert (Hcs : categories d0 = []).
  { destruct (categories d0); [reflexivity | simpl in Hlen; lia]. }
  assert (Hraise : (seed_categories ;;; backfill_threads) d0
                   = Raise OperationalError).
  { unfold bind. now rewrite (seed_categories_full d0 Hcs Hfit). }
  split; [now rewrite (init_db_schema_Ok d d0 E0)|].
  exists d0. split; [exact E0|]. split; [exact E0'|].
  split; [now rewrite (init_db_schema_Ok d0 d0 E0')|].
  split; [exact Hcs|].
  cbv zeta in R. destruct R as (_ & Ht & _ & _ & Hc & _).
  unfold threads_columns. now rewrite Ht, Hc.
Qed.

(** ** C5: [init_db] is idempotent *)

(** C5: from every starting database a second [init_db] repeats the
    first and changes nothing.  When the seeding has the rowids it needs
    (the categories table is missing, or holds rows, or four more
    [AUTOINCREMENT] ids are left), [init_db] succeeds, and running it
    again succeeds and returns the same database: same schema, same
    rows.  Categories that were there are kept as they are; the four
    defaults (technology/Technology, learning/Learning,
    politics/Politics, secret/Secret) are inserted exactly when the table
    was missing or empty.  The [category_id] column is added only when
    [PRAGMA table_info] does not list it (adding it twice would raise),
    so that afterwards [threads] has it exactly once.  Otherwise
    [init_db] raises while seeding an empty table: the schema part,
    committed before, is complete, no category is stored, and a second
    [init_db] leaves the schema as it is and raises again. *)
Theorem init_db_idempotent (d : db) :
  (can_seed d = true ->
   exists d1,
     init_db d = Ok (tt, d1)
     /\ init_db d1 = Ok (tt, d1)
     /\ (if has_categories (db_schema d)
            && negb (Z.of_nat (List.length (categories d)) =? 0)
         then categories d1 = categories d
         else map (fun c => (cat_slug c, cat_name c)) (categories d1)
              = default_categories)
     /\ threads_columns (db_schema d1)
        = ["id"; "title"; "posts_count"; "created_at"; "last_activity_at";
           "category_id"]%string)
  /\ (can_seed d = false ->
      init_db d = Raise OperationalError
      /\ exists d0,
           init_db_schema d = Ok (tt, d0)
           /\ init_db_schema d0 = Ok (tt, d0)
           /\ init_db d0 = Raise OperationalError
           /\ categories d0 = []
           /\ threads_columns (db_schema d0)
              = ["id"; "title"; "posts_count"; "created_at";
                 "last_activity_at"; "category_id"]%string).
Proof.
  split; [|apply init_db_full].
  intros Hroom.
  destruct (init_db_runs d Hroom) as (d1 & E & I & C).
  exists d1. split; [exact E|]. split; [now apply init_db_initialized|].
  split; [exact C|].
  destruct I as (_ & Ht & _ & _ & Hc & _).
  unfold threads_columns. now rewrite Ht, Hc.
Qed.

Lemma init_db_idempotent_witness :
  (exists d1, init_db blank_db = Ok (tt, d1) /\ init_db d1 = Ok (tt, d1))
  /\ init_db (mkDb (mkSchema true true true true true []) [] [] [] []
                   9223372036854775805 0 0 0)
     = Raise OperationalError.
Proof.
  split.
  - destruct (proj1 (init_db_idempotent blank_db) eq_refl)
      as (d1 & E1 & E2 & _).
    exists d1. split; [exact E1 | exact E2].
  - exact (proj1 (proj2 (init_db_idempotent
                           (mkDb (mkSchema true true true true true [])
                                 [] [] [] [] 9223372036854775805 0 0 0))
                        eq_refl)).
Defined.

Example init_db_exhausted_sequence :
  init_db (mkDb (mkSchema true true true true true []) [] [] [] []
                9223372036854775807 0 0 0)
  = Raise OperationalError
  /\ init_db (mkDb (mkSchema true true true true true []) [] [] [] []
                   9223372036854775803 0 0 0)
     = Ok (tt, mkDb (mkSchema true true true true true
                       ["idx_threads_last_activity"; "idx_posts_thread_id";
                        "idx_comments_post_id"]%string)
                 [mkCategory 9223372036854775804 (lit "technology")
                             (lit "Technology");
                  mkCategory 9223372036854775805 (lit "learning")
                             (lit "Learning");
                  mkCategory 9223372036854775806 (lit "politics")
                             (lit "Politics");
                  mkCategory 9223372036854775807 (lit "secret")
                             (lit "Secret")]
                 [] [] [] 9223372036854775807 0 0 0).
Proof. split; vm_compute; reflexivity. Qed.

Example init_db_fresh_install :
  option_map (fun c => map cat_id (categories c))
             (match init_db blank_db with Ok (_, d) => Some d | _ => None end)
  = Some [1; 2; 3; 4].
Proof. reflexivity. Qed.

(** ** C2: the CSRF hook *)

Lemma str_eqb_eq (a b : str) : str_eqb a b = true <-> a = b.
Proof.
  revert b. induction a as [|x a IH]; intros [|y b]; simpl; split;
    intros H; try reflexivity; try discriminate.
  - apply andb_prop in H as [H1 H2]. apply Z.eqb_eq in H1.
    apply IH in H2. now subst.
  - injection H as -> ->. rewrite Z.eqb_refl. now apply IH.
Qed.

Lemma dict_get_set (k : string) (v : str) (m : dict) :
  dict_get k (dict_set k v m) = Some v.
Proof. unfold dict_set. simpl. now rewrite String.eqb_refl. Qed.




(** ** The store monad *)

Lemma bind_inv {A B} (m : M A) (k : A -> M B) (d d' : db) (b : B) :
  bind m k d = Ok (b, d') ->
  exists a d1, m d = Ok (a, d1) /\ k a d1 = Ok (b, d').
Proof.
  unfold bind. destruct (m d) as [[a d1]| |]; try discriminate. eauto.
Qed.

Lemma reads_only_ret {A} (a : A) : reads_only (ret a).
Proof. intros d x d' [= _ <-]. reflexivity. Qed.

Lemma reads_only_query {A} (f : db -> A) : reads_only (query f).
Proof. intros d x d' [= _ <-]. reflexivity. Qed.

Lemma reads_only_abort {A} (st : Z) (ds : string) : reads_only (@abort A st ds).
Proof. intros d x d' [=]. Qed.

Lemma reads_only_raise {A} (e : exn) : reads_only (@raise A e).
Proof. intros d x d' [=]. Qed.

Lemma reads_only_bind_params (ps : list Z) : reads_only (bind_params ps).
Proof.
  intros d x d'. unfold bind_params.
  destruct (forallb fits_int64 ps); [intros [= _ <-]; reflexivity | discriminate].
Qed.

Lemma reads_only_int_of (s : str) : reads_only (int_of s).
Proof.
  unfold int_of. destruct (py_int s);
    [apply reads_only_ret | apply reads_only_raise].
Qed.

Lemma reads_only_require (b : bool) (st : Z) (ds : string) :
  reads_only (require b st ds).
Proof.
  unfold require. destruct b; [apply reads_only_ret | apply reads_only_abort].
Qed.

Lemma reads_only_bind {A B} (m : M A) (k : A -> M B) :
  reads_only m -> (forall a, reads_only (k a)) -> reads_only (bind m k).
Proof.
  intros Hm Hk d b d' H. apply bind_inv in H as (a & d1 & H1 & H2).
  apply Hm in H1. subst d1. eapply Hk. exact H2.
Qed.

Ltac reads_only_tac :=
  repeat first
    [ apply reads_only_ret | apply reads_only_query | apply reads_only_abort
    | apply reads_only_raise | apply reads_only_bind_params
    | apply reads_only_int_of | apply reads_only_require
    | apply reads_only_bind; [|intros ?]
    | match goal with
      | |- reads_only (match ?x with _ => _ end) => destruct x
      end ].

(** ** [create_thread]: category resolution *)

Example py_int_samples :
  map py_int [lit "12"; lit " 1_0 "; lit "+5"; lit "-7"; lit ""; lit "1__0";
              lit "_1"; lit "1_"; lit "+ 1"; lit "0x10"; lit "abc";
              [1633; 1634]; [178]; [28; 49]; [49; 133]; lit "007"]
  = [Some 12; Some 10; Some 5; Some (-7); None; None; None; None; None; None;
     None; Some 12; None; None; Some 1; Some 7].
Proof. vm_compute. reflexivity. Qed.

Example isdigit_samples :
  map isdigit [lit "12"; []; lit "1 "; lit "-1"; [1633]; [178]]
  = [true; false; false; false; true; true].
Proof. vm_compute. reflexivity. Qed.

Lemma resolve_category_reads_only (raw : option str) :
  reads_only (resolve_category raw).
Proof. unfold resolve_category. reads_only_tac. Qed.

Lemma find_cat_id (n : Z) (cs : list category) (c : category) :
  find (fun k => cat_id k =? n) cs = Some c -> cat_id c = n /\ In c cs.
Proof.
  intros H. apply find_some in H as [Hin He]. apply Z.eqb_eq in He. auto.
Qed.

(** A supplied [category_id] that is a digit string naming a category
    (within SQLite's integer range) selects that category. *)
Lemma resolve_category_named (raw : str) (n : Z) (c : category) (d : db) :
  isdigit raw = true -> py_int raw = Some n -> fits_int64 n = true ->
  find (fun k => cat_id k =? n) (categories d) = Some c ->
  resolve_category (Some raw) d = Ok (n, d) /\ cat_id c = n.
Proof.
  intros Hd Hi Hf Hc. split; [|now apply find_cat_id in Hc].
  unfold resolve_category, int_of.
  destruct raw as [|x raw]; [discriminate|]. cbn [is_empty negb andb].
  rewrite Hd, Hi.
  unfold bind, query, ret, bind_params. cbn [forallb]. rewrite Hf.
  cbn [andb]. rewrite Hc. cbn [option_map].
  now rewrite (proj1 (find_cat_id _ _ _ Hc)).
Qed.

(** Without a usable [category_id] -- omitted, empty, not a digit string,
    or naming no category -- the lowest category id is taken, and there
    being none is a 400. *)
Lemma resolve_category_default (raw : option str) (d : db) :
  match raw with
  | None => True
  | Some r =>
      r = [] \/ isdigit r = false
      \/ exists n, py_int r = Some n /\ fits_int64 n = true
                   /\ find (fun k => cat_id k =? n) (categories d) = None
  end ->
  resolve_category raw d
  = match lowest_category_id (categories d) with
    | Some m => Ok (m, d)
    | None => Abort 400 "No categories configured"
    end.
Proof.
  assert (Hlow : forall d0,
    bind (ret None)
      (fun cat_row : option Z =>
         bind match cat_row with
              | Some id => ret (Some id)
              | None => query (fun d => lowest_category_id (categories d))
              end
           (fun cat_row => match cat_row with
                           | Some id => ret id
                           | None => abort 400 "No categories configured"
                           end)) d0
    = match lowest_category_id (categories d0) with
      | Some m => Ok (m, d0)
      | None => Abort 400 "No categories configured"
      end).
  { intros d0. unfold bind, ret, query, abort.
    now destruct (lowest_category_id (categories d0)). }
  unfold resolve_category.
  destruct raw as [r|]; [|intros _; apply Hlow].
  intros [->|[Hd|(n & Hi & Hf & Hc)]].
  - cbn [is_empty negb andb]. apply Hlow.
  - rewrite Hd, andb_false_r. apply Hlow.
  - destruct (negb (is_empty r) && isdigit r); [|apply Hlow].
    unfold int_of. rewrite Hi.
    unfold bind, query, ret, abort, bind_params. cbn [forallb]. rewrite Hf.
    cbn [andb]. rewrite Hc. cbn [option_map].
    now destruct (lowest_category_id (categories d)).
Qed.

Lemma lowest_category_id_least (cs : list category) (m : Z) :
  lowest_category_id cs = Some m ->
  In m (map cat_id cs) /\ forall c, In c cs -> m <= cat_id c.
Proof.
  revert m. induction cs as [|c cs IH]; intros m; simpl; [discriminate|].
  destruct (lowest_category_id cs) as [m'|] eqn:E.
  - intros [= <-]. destruct (IH m' eq_refl) as [Hin Hle]. split.
    + destruct (Z.min_spec (cat_id c) m') as [[_ ->]|[_ ->]]; auto.
    + intros k [->|Hk]; [lia|]. specialize (Hle k Hk). lia.
  - intros [= <-]. split; [now left|].
    intros k [->|Hk]; [lia|]. destruct cs as [|c0 cs']; [contradiction|].
    simpl in E. destruct (lowest_category_id cs'); discriminate.
Qed.

(** ** C6: a [category_id] SQLite cannot hold *)

(** C6 fails on the code: [isdigit] lets through digit strings that
    [int] or the statement binding reject.  With [category_id] equal to
    2^63 ([OverflowError] when the number is bound) or to a superscript two
    ([ValueError] from [int]) the request ends in a server error and no
    thread is created, whatever the categories are -- the claim has such
    invalid ids fall back to the lowest category. *)
Theorem create_thread_category_id_unbound (d : db) (ts : Z) :
  run_view (create_thread [("title"%string, lit "Hello");
                           ("content"%string, lit "first");
                           ("category_id"%string, lit "9223372036854775808")]
                          ts) d
  = (ErrorResponse 500, d)
  /\ run_view (create_thread [("title"%string, lit "Hello");
                              ("content"%string, lit "first");
                              ("category_id"%string, [178])]
                             ts) d
     = (ErrorResponse 500, d).
Proof. split; vm_compute; reflexivity. Qed.

(** ** Pagination *)

Lemma page_of_at_least_1 (args : dict) : 1 <= page_of args.
Proof. unfold page_of. destruct (py_int _); lia. Qed.

(** A [page] that is not a number, or a number below one, is page 1. *)
Lemma page_of_invalid (args : dict) :
  match py_int (dict_get_default "page" (lit "1") args) with
  | None => True
  | Some n => n < 1
  end ->
  page_of args = 1.
Proof. unfold page_of. destruct (py_int _); [lia | reflexivity]. Qed.

Example page_of_samples :
  map page_of [[]; [("page"%string, lit "0")]; [("page"%string, lit "-3")];
               [("page"%string, lit "abc")]; [("page"%string, lit "")];
               [("page"%string, lit "7")]]
  = [1; 1; 1; 1; 1; 7].
Proof. vm_compute. reflexivity. Qed.

(** [total_pages] is the ceiling of [total / per_page], and 1 at least. *)
Lemma total_pages_of_ceiling (total per_page : Z) :
  0 < per_page -> 0 <= total ->
  1 <= total_pages_of total per_page
  /\ total <= total_pages_of total per_page * per_page
  /\ (0 < total -> (total_pages_of total per_page - 1) * per_page < total)
  /\ (total = 0 -> total_pages_of total per_page = 1).
Proof.
  intros Hp Ht. unfold total_pages_of.
  pose proof (Z.div_mod (total + per_page - 1) per_page ltac:(lia)) as Hdm.
  pose proof (Z.mod_pos_bound (total + per_page - 1) per_page Hp) as Hb.
  set (q := (total + per_page - 1) / per_page) in *.
  set (r := (total + per_page - 1) mod per_page) in *.
  assert (Hq : 0 <= q) by (apply Z.div_pos; lia).
  repeat split; nia.
Qed.

Lemma limit_offset_beyond {A} (limit offset : Z) (l : list A) :
  Z.of_nat (List.length l) <= offset -> limit_offset limit offset l = [].
Proof.
  intros H. unfold limit_offset.
  apply Z.leb_le in H. rewrite H. destruct (limit <? 0); [reflexivity|].
  apply firstn_nil.
Qed.

Lemma insert_sorted_length {A} (le : A -> A -> bool) (x : A) (l : list A) :
  List.length (insert_sorted le x l) = S (List.length l).
Proof.
  induction l as [|y l IH]; simpl; [reflexivity|].
  destruct (le x y); simpl; now rewrite ?IH.
Qed.

Lemma order_by_length {A} (le : A -> A -> bool) (l : list A) :
  List.length (order_by le l) = List.length l.
Proof.
  induction l as [|x l IH]; simpl; [reflexivity|].
  unfold order_by in *. simpl. now rewrite insert_sorted_length, IH.
Qed.

(** As long as the offset can be bound, [index] renders page
    [page_of args] with at least one page in total, and a page past the
    last one lists no thread. *)
Lemma index_within_range (args : dict) (d : db) :
  fits_int64 ((page_of args - 1) * 20) = true ->
  exists p,
    index args d = Ok (IndexPage p, d)
    /\ ip_page p = page_of args
    /\ 1 <= ip_total_pages p
    /\ (ip_total_pages p < page_of args -> ip_threads p = []).
Proof.
  intros Hfit.
  unfold index, get_categories_list, bind, query, ret, bind_params.
  cbn [forallb]. rewrite Hfit.
  change (fits_int64 20) with true. cbn [andb].
  set (cat := match dict_get "cat" args with
              | Some (c :: s) => _
              | _ => _
              end).
  assert (Hcat : exists k, cat d = Ok (k, d)).
  { subst cat. destruct (dict_get "cat" args) as [[|c s]|]; eauto. }
  destruct Hcat as [k Hk]. rewrite Hk.
  eexists. split; [reflexivity|]. cbn [ip_page ip_total_pages ip_threads].
  split; [reflexivity|].
  set (sel := match k with None => threads d | Some _ => _ end).
  destruct (total_pages_of_ceiling (Z.of_nat (List.length sel)) 20)
    as (H1 & H2 & _); [lia | lia |].
  split; [exact H1|]. intros Hlast.
  apply limit_offset_beyond. rewrite order_by_length, length_map. lia.
Qed.

(** ** C7: a page whose offset SQLite cannot hold *)

(** C7 fails on the code for very large page numbers: the page is
    accepted as a number, but the offset [(page - 1) * per_page] no longer
    fits a 64-bit integer and binding it raises [OverflowError].  The
    listing ends in a server error where the claim has an empty page with
    [total_pages >= 1]. *)
Theorem listing_page_offset_unbound (d : db) :
  page_of [("page"%string, lit "461168601842738792")] = 461168601842738792
  /\ run_view (index [("page"%string, lit "461168601842738792")]) d
     = (ErrorResponse 500, d)
  /\ fst (run_view (thread_view 1 [("page"%string, lit "184467440737095518")])
            (apply_op initial_db
               (CreateThreadOp [("title"%string, lit "Hello");
                                ("content"%string, lit "first")] 100)))
     = ErrorResponse 500.
Proof. repeat split; vm_compute; reflexivity. Qed.

(** One page earlier the same requests are served: an empty listing. *)
Example listing_last_bindable_page :
  option_map (fun p => (ip_threads p, ip_total_pages p))
    (match fst (run_view (index [("page"%string, lit "461168601842738791")])
                         initial_db) with
     | IndexPage p => Some p
     | _ => None
     end)
  = Some ([], 1).
Proof. vm_compute. reflexivity. Qed.

(** ** [reply] and [comment]: the parent row *)

Lemma reply_missing_thread (tid : Z) (form : dict) (ts : Z) (d : db) :
  fits_int64 tid = true ->
  existsb (fun t => thread_id t =? tid) (threads d) = false ->
  run_view (reply tid form ts) d = (ErrorResponse 404, d).
Proof.
  intros Hf He. unfold run_view, reply, bind, bind_params, query, require.
  cbn [forallb]. rewrite Hf. cbn [andb]. now rewrite He.
Qed.

Lemma comment_missing_post (pid : Z) (form : dict) (ts : Z) (d : db) :
  fits_int64 pid = true ->
  find (fun p => post_id p =? pid) (posts d) = None ->
  run_view (comment pid form ts) d = (ErrorResponse 404, d).
Proof.
  intros Hf He. unfold run_view, comment, bind, bind_params, query.
  cbn [forallb]. rewrite Hf. cbn [andb]. now rewrite He.
Qed.

(** With the parent row in place the request is not answered 404. *)
Lemma reply_existing_thread (tid : Z) (form : dict) (ts : Z) (d : db) :
  existsb (fun t => thread_id t =? tid) (threads d) = true ->
  fst (run_view (reply tid form ts) d) <> ErrorResponse 404.
Proof.
  intros He.
  unfold run_view, reply, commit, bind, bind_params, query, require, abort,
    ret, execute, insert_post.
  cbn [forallb andb].
  destruct (fits_int64 tid); cbn [fst andb]; [|discriminate].
  rewrite He.
  destruct (negb (is_empty (field "content" form))); cbn [fst];
    [|discriminate].
  destruct (fits_int64 ts); cbn [fst andb]; [|discriminate].
  destruct (fits_int64 (next_rowid _ _)); cbn [negb fst]; discriminate.
Qed.

Lemma comment_existing_post (pid : Z) (form : dict) (ts : Z) (d : db) (p : post) :
  find (fun q => post_id q =? pid) (posts d) = Some p ->
  fst (run_view (comment pid form ts) d) <> ErrorResponse 404.
Proof.
  intros He.
  unfold run_view, comment, commit, bind, bind_params, query, require, abort,
    ret, execute, insert_comment.
  cbn [forallb andb].
  destruct (fits_int64 pid); cbn [fst andb]; [|discriminate].
  rewrite He.
  destruct (negb (is_empty (field "content" form))); cbn [fst];
    [|discriminate].
  destruct (fits_int64 ts); cbn [fst andb]; [|discriminate].
  destruct (fits_int64 (next_rowid _ _)); cbn [negb fst]; discriminate.
Qed.

(** ** C8: a parent id SQLite cannot hold *)

(** C8 fails on the code for ids beyond 64 bits, which the [<int:...>]
    URL converter accepts: binding 2^63 to the look-up of the parent row
    raises [OverflowError], so the request ends in a server error (500)
    instead of not-found (404).  The store is unchanged in either case. *)
Theorem reply_comment_id_unbound (d : db) (form : dict) (ts : Z) :
  run_view (reply 9223372036854775808 form ts) d = (ErrorResponse 500, d)
  /\ run_view (comment 9223372036854775808 form ts) d = (ErrorResponse 500, d)
  /\ existsb (fun t => thread_id t =? 9223372036854775808)
             (threads initial_db) = false
  /\ find (fun p => post_id p =? 9223372036854775808) (posts initial_db)
     = None.
Proof. repeat split; vm_compute; reflexivity. Qed.

(** ** The effect of the mutating views *)

Lemma insert_thread_inv (title : str) (ts cat : Z) (d d' : db) (tid : Z) :
  insert_thread title ts cat d = Ok (tid, d') ->
  tid = next_rowid (seq_threads d) (map thread_id (threads d))
  /\ threads d' = threads d ++ [mkThread tid title 0 ts ts (Some cat)]
  /\ posts d' = posts d /\ comments d' = comments d
  /\ seq_posts d' = seq_posts d.
Proof.
  unfold insert_thread. destruct (fits_int64 (next_rowid _ _)); [|discriminate].
  intros [= <- <-]. repeat split.
Qed.

Lemma insert_post_inv (tid : Z) (a c : str) (ts : Z) (d d' : db) (pid : Z) :
  insert_post tid a c ts d = Ok (pid, d') ->
  threads d' = threads d
  /\ posts d' = posts d ++ [mkPost (next_rowid (seq_posts d)
                                               (map post_id (posts d)))
                                   tid a c ts]
  /\ comments d' = comments d.
Proof.
  unfold insert_post. destruct (fits_int64 (next_rowid _ _)); [|discriminate].
  intros [= <- <-]. repeat split.
Qed.

Lemma insert_comment_inv (pid : Z) (a c : str) (ts : Z) (d d' : db) (cid : Z) :
  insert_comment pid a c ts d = Ok (cid, d') ->
  threads d' = threads d /\ posts d' = posts d
  /\ comments d' = comments d
                   ++ [mkComment (next_rowid (seq_comments d)
                                             (map comment_id (comments d)))
                                 pid a c ts].
Proof.
  unfold insert_comment. destruct (fits_int64 (next_rowid _ _)); [|discriminate].
  intros [= <- <-]. repeat split.
Qed.

Lemma execute_inv (f : db -> db) (d d' : db) (u : unit) :
  execute f d = Ok (u, d') -> d' = f d.
Proof. unfold execute. now intros [= <-]. Qed.

Ltac bind_steps :=
  repeat match goal with
         | H : bind _ _ _ = Ok _ |- _ =>
             let a := fresh "a" in
             let d1 := fresh "d" in
             let H1 := fresh "Hstep" in
             apply bind_inv in H as (a & d1 & H1 & H)
         end.

Lemma create_thread_effect (form : dict) (ts : Z) (d d' : db) (r : response) :
  create_thread form ts d = Ok (r, d') -> effect ts d d'.
Proof.
  unfold create_thread. intros H. bind_steps.
  apply reads_only_require in Hstep. subst.
  apply resolve_category_reads_only in Hstep0. subst.
  apply reads_only_bind_params in Hstep1. subst.
  apply insert_thread_inv in Hstep2 as (-> & T1 & T2 & T3 & T4).
  apply insert_post_inv in Hstep3 as (P1 & P2 & P3).
  apply execute_inv in Hstep4. subst.
  apply reads_only_ret in Hstep5. subst.
  apply reads_only_ret in H. subst.
  eapply effect_thread; cbn [bump_post set_threads threads posts comments].
  - rewrite P1, T1. reflexivity.
  - rewrite P2, T2, T4. reflexivity.
  - now rewrite P3, T3.
Qed.

Lemma existsb_thread_id (tid : Z) (l : list thread) :
  existsb (fun t => thread_id t =? tid) l = true -> In tid (map thread_id l).
Proof.
  intros H. apply existsb_exists in H as (t & Hin & He).
  apply Z.eqb_eq in He. subst. now apply in_map.
Qed.

Lemma reply_effect (tid : Z) (form : dict) (ts : Z) (d d' : db) (r : response) :
  reply tid form ts d = Ok (r, d') -> effect ts d d'.
Proof.
  unfold reply. intros H. bind_steps.
  apply reads_only_bind_params in Hstep. subst.
  unfold query in Hstep0. injection Hstep0 as <- <-.
  destruct (existsb _ (threads d)) eqn:Hfound; [|discriminate].
  apply reads_only_require in Hstep1. subst.
  apply reads_only_require in Hstep2. subst.
  apply reads_only_bind_params in Hstep3. subst.
  apply insert_post_inv in Hstep4 as (P1 & P2 & P3).
  apply execute_inv in Hstep5. subst.
  apply reads_only_ret in Hstep6. subst.
  apply reads_only_ret in H. subst.
  eapply (effect_reply ts d _ tid);
    cbn [bump_post set_threads threads posts comments].
  - now apply existsb_thread_id.
  - now rewrite P1.
  - exact P2.
  - exact P3.
Qed.

Lemma comment_effect (pid : Z) (form : dict) (ts : Z) (d d' : db) (r : response) :
  comment pid form ts d = Ok (r, d') -> effect ts d d'.
Proof.
  unfold comment. intros H. bind_steps.
  apply reads_only_bind_params in Hstep. subst.
  unfold query in Hstep0. injection Hstep0 as <- <-.
  destruct (find _ (posts d)) as [p|] eqn:Hfound; [|discriminate].
  apply find_some in Hfound as [Hin Hid]. apply Z.eqb_eq in Hid.
  bind_steps.
  apply reads_only_require in Hstep. subst.
  apply reads_only_bind_params in Hstep0. subst.
  apply insert_comment_inv in Hstep1 as (C1 & C2 & C3).
  apply execute_inv in Hstep2. subst.
  apply reads_only_ret in Hstep3. subst.
  apply reads_only_ret in H. subst.
  eapply (effect_comment ts d _ p);
    cbn [bump_activity set_threads threads posts comments].
  - exact Hin.
  - now rewrite C1.
  - exact C2.
  - rewrite C3. reflexivity.
Qed.

Lemma apply_op_effect (d : db) (o : op) : effect (op_ts o) d (apply_op d o).
Proof.
  unfold apply_op, run_view.
  destruct (op_view o d) as [[r d']| |] eqn:E; cbn [snd];
    try (now apply effect_none).
  destruct o as [form ts|tid form ts|pid form ts]; cbn [op_view op_ts] in *.
  - eapply create_thread_effect; eassumption.
  - eapply reply_effect; eassumption.
  - eapply comment_effect; eassumption.
Qed.

(** ** Row identifiers and list facts *)

Lemma list_max_ge (l : list Z) (x : Z) : In x l -> x <= list_max l.
Proof.
  induction l as [|y l IH]; simpl; [contradiction|].
  intros [->|H]; [lia|]. specialize (IH H). lia.
Qed.

Lemma next_rowid_fresh (seq : Z) (ids : list Z) :
  ~ In (next_rowid seq ids) ids.
Proof.
  intros H. apply list_max_ge in H. unfold next_rowid in H. lia.
Qed.

Lemma NoDup_snoc {A} (l : list A) (x : A) :
  NoDup l -> ~ In x l -> NoDup (l ++ [x]).
Proof.
  induction 1 as [|y l Hy Hl IH]; intros Hx; simpl.
  - constructor; [intros []|constructor].
  - constructor.
    + intros Hin. apply in_app_or in Hin as [Hin|[->|[]]]; [tauto|].
      apply Hx. now left.
    + apply IH. intros Hin. apply Hx. now right.
Qed.

Lemma NoDup_map_inj {A B} (f : A -> B) (l : list A) (x y : A) :
  NoDup (map f l) -> In x l -> In y l -> f x = f y -> x = y.
Proof.
  induction l as [|z l IH]; simpl; [contradiction|].
  intros Hnd Hx Hy Hf. inversion Hnd as [|? ? Hz Hl]; subst.
  destruct Hx as [->|Hx], Hy as [->|Hy]; auto.
  - exfalso. apply Hz. rewrite Hf. now apply in_map.
  - exfalso. apply Hz. rewrite <- Hf. now apply in_map.
Qed.

Lemma bump_post_row_id (ts tid : Z) (t : thread) :
  thread_id (bump_post_row ts tid t) = thread_id t.
Proof. unfold bump_post_row. now destruct (thread_id t =? tid). Qed.

Lemma bump_activity_row_id (ts tid : Z) (t : thread) :
  thread_id (bump_activity_row ts tid t) = thread_id t.
Proof. unfold bump_activity_row. now destruct (thread_id t =? tid). Qed.

Lemma map_bump_post_ids (ts tid : Z) (l : list thread) :
  map thread_id (map (bump_post_row ts tid) l) = map thread_id l.
Proof.
  rewrite map_map. apply map_ext. intros t. apply bump_post_row_id.
Qed.

Lemma map_bump_activity_ids (ts tid : Z) (l : list thread) :
  map thread_id (map (bump_activity_row ts tid) l) = map thread_id l.
Proof.
  rewrite map_map. apply map_ext. intros t. apply bump_activity_row_id.
Qed.

Lemma maximum_bound (l : list Z) (m b : Z) :
  maximum l = Some m -> (forall x, In x l -> x <= b) -> m <= b.
Proof.
  revert m. induction l as [|y l IH]; intros m E Hall; [discriminate|].
  simpl in E. assert (Hy : y <= b) by (apply Hall; now left).
  destruct (maximum l) as [n|]; injection E as <-; [|exact Hy].
  specialize (IH n eq_refl ltac:(intros x Hx; apply Hall; now right)). lia.
Qed.

Lemma maximum_spec (l : list Z) (m : Z) :
  In m l -> (forall x, In x l -> x <= m) -> maximum l = Some m.
Proof.
  revert m. induction l as [|y l IH]; intros m Hin Hle; [contradiction|].
  simpl. assert (Hy : y <= m) by (apply Hle; now left).
  assert (Hl : forall x, In x l -> x <= m) by (intros x Hx; apply Hle; now right).
  destruct Hin as [->|Hin].
  - destruct (maximum l) as [n|] eqn:E; [|reflexivity].
    pose proof (maximum_bound l n m E Hl). f_equal. lia.
  - rewrite (IH m Hin Hl). f_equal. lia.
Qed.

(** ** Rows of a thread after an insertion *)

Lemma posts_of_snoc (tid : Z) (d d' : db) (np : post) :
  posts d' = posts d ++ [np] ->
  posts_of tid d'
  = posts_of tid d ++ (if post_thread_id np =? tid then [np] else []).
Proof.
  intros H. unfold posts_of. rewrite H, filter_app. simpl.
  now destruct (post_thread_id np =? tid).
Qed.

Lemma posts_of_same (tid : Z) (d d' : db) :
  posts d' = posts d -> posts_of tid d' = posts_of tid d.
Proof. intros H. unfold posts_of. now rewrite H. Qed.

Lemma posts_of_In (tid : Z) (d : db) (p : post) :
  In p (posts_of tid d) <-> In p (posts d) /\ post_thread_id p = tid.
Proof.
  unfold posts_of. rewrite filter_In. now rewrite Z.eqb_eq.
Qed.

Lemma comments_of_same (tid : Z) (d d' : db) :
  posts_of tid d' = posts_of tid d -> comments d' = comments d ->
  comments_of tid d' = comments_of tid d.
Proof. intros Hp Hc. unfold comments_of. now rewrite Hp, Hc. Qed.

Lemma activity_times_same (tid : Z) (d d' : db) :
  posts_of tid d' = posts_of tid d -> comments_of tid d' = comments_of tid d ->
  activity_times tid d' = activity_times tid d.
Proof. intros Hp Hc. unfold activity_times. now rewrite Hp, Hc. Qed.

(** The latest stamp of the store, once it belongs to a thread, is that
    thread's maximum. *)
Lemma latest_is_maximum (tid ts : Z) (d : db) :
  times_le ts d -> In ts (activity_times tid d) ->
  maximum (activity_times tid d) = Some ts.
Proof.
  intros [Hp Hc] Hin. apply maximum_spec; [exact Hin|].
  intros x Hx. unfold activity_times in Hx.
  apply in_app_or in Hx as [Hx|Hx]; apply in_map_iff in Hx as (r & <- & Hr).
  - apply Hp. now apply posts_of_In in Hr.
  - apply Hc. unfold comments_of in Hr. now apply filter_In in Hr.
Qed.

(** ** Invariants of the store *)

Lemma effect_store_ok (ts : Z) (d d' : db) :
  effect ts d d' -> store_ok d -> store_ok d'.
Proof.
  intros E (N1 & N2 & F1 & F2).
  destruct E as [->|title author content cat T P C
                |tid author content Htid T P C|p author content Hp T P C];
    unfold store_ok.
  - auto.
  - rewrite T, P, C, map_bump_post_ids, !map_app. simpl.
    split; [apply NoDup_snoc; [exact N1 | apply next_rowid_fresh]|].
    split; [apply NoDup_snoc; [exact N2 | apply next_rowid_fresh]|].
    split.
    + intros q Hq. apply in_or_app.
      apply in_app_or in Hq as [Hq|[<-|[]]]; [left; now apply F1|].
      right. now left.
    + intros c Hc. apply in_or_app. left. now apply F2.
  - rewrite T, P, C, map_bump_post_ids, map_app. simpl.
    split; [exact N1|].
    split; [apply NoDup_snoc; [exact N2 | apply next_rowid_fresh]|].
    split.
    + intros q Hq.
      apply in_app_or in Hq as [Hq|[<-|[]]]; [now apply F1 | exact Htid].
    + intros c Hc. apply in_or_app. left. now apply F2.
  - rewrite T, P, C, map_bump_activity_ids.
    split; [exact N1|]. split; [exact N2|]. split; [exact F1|].
    intros c Hc. apply in_app_or in Hc as [Hc|[<-|[]]]; [now apply F2|].
    simpl. now apply in_map.
Qed.

Lemma posts_of_unknown_thread (tid : Z) (d : db) :
  store_ok d -> ~ In tid (map thread_id (threads d)) -> posts_of tid d = [].
Proof.
  intros (_ & _ & F1 & _) Hno.
  destruct (posts_of tid d) as [|p l] eqn:E; [reflexivity|].
  exfalso. assert (Hin : In p (posts_of tid d)) by (rewrite E; now left).
  apply posts_of_In in Hin as [Hin <-]. apply Hno. now apply F1.
Qed.

Lemma effect_counts_ok (ts : Z) (d d' : db) :
  effect ts d d' -> store_ok d -> counts_ok d -> counts_ok d'.
Proof.
  intros E Hok Hc.
  destruct E as [->|title author content cat T P C
                |tid author content Htid T P C|p author content Hp T P C];
    [exact Hc| | |]; intros t' Ht'; rewrite T in Ht';
    apply in_map_iff in Ht' as (t & <- & Ht); unfold count_ok.
  - set (tid := next_rowid (seq_threads d) (map thread_id (threads d))) in *.
    rewrite bump_post_row_id, (posts_of_snoc _ d d' _ P).
    cbn [post_thread_id]. unfold bump_post_row.
    apply in_app_or in Ht as [Ht|[<-|[]]].
    + assert (Hne : thread_id t <> tid).
      { intros Heq. apply (next_rowid_fresh (seq_threads d)
                             (map thread_id (threads d))).
        fold tid. rewrite <- Heq. now apply in_map. }
      apply Z.eqb_neq in Hne. rewrite Hne.
      rewrite Z.eqb_sym, Hne, app_nil_r. now apply Hc.
    + cbn [thread_id posts_count]. rewrite Z.eqb_refl. cbn [posts_count].
      rewrite posts_of_unknown_thread
        by (try exact Hok; apply next_rowid_fresh).
      reflexivity.
  - rewrite bump_post_row_id, (posts_of_snoc _ d d' _ P).
    cbn [post_thread_id]. unfold bump_post_row. rewrite (Z.eqb_sym tid).
    destruct (thread_id t =? tid); cbn [posts_count].
    + rewrite length_app, Nat2Z.inj_add. simpl. f_equal. now apply Hc.
    + rewrite app_nil_r. now apply Hc.
  - rewrite bump_activity_row_id, (posts_of_same _ d d' P).
    unfold bump_activity_row.
    destruct (thread_id t =? post_thread_id p); cbn [posts_count];
      now apply Hc.
Qed.

Lemma effect_times_le (ts now : Z) (d d' : db) :
  effect ts d d' -> times_le now d -> now <= ts -> times_le ts d'.
Proof.
  intros E [Hp Hc] Hle.
  assert (Hp' : forall q, In q (posts d) -> post_created_at q <= ts)
    by (intros q Hq; specialize (Hp q Hq); lia).
  assert (Hc' : forall c, In c (comments d) -> comment_created_at c <= ts)
    by (intros c Hq; specialize (Hc c Hq); lia).
  destruct E as [->|title author content cat T P C
                |tid author content Htid T P C|p author content Hin T P C];
    unfold times_le; [auto| | |]; rewrite P, C; split; try assumption.
  - intros q Hq. apply in_app_or in Hq as [Hq|[<-|[]]]; [auto | simpl; lia].
  - intros q Hq. apply in_app_or in Hq as [Hq|[<-|[]]]; [auto | simpl; lia].
  - intros c Hq. apply in_app_or in Hq as [Hq|[<-|[]]]; [auto | simpl; lia].
Qed.

(** A new post belongs to the activity of its thread. *)
Lemma new_post_in_activity (tid ts : Z) (d d' : db) (np : post) :
  posts d' = posts d ++ [np] -> post_thread_id np = tid ->
  post_created_at np = ts -> In ts (activity_times tid d').
Proof.
  intros P Ht Hts. unfold activity_times. apply in_or_app. left.
  rewrite <- Hts. apply in_map. apply posts_of_In. split; [|exact Ht].
  rewrite P. apply in_or_app. right. now left.
Qed.

(** A thread that gets no row keeps its activity. *)
Lemma other_thread_post (tid : Z) (d d' : db) (np : post) :
  posts d' = posts d ++ [np] -> comments d' = comments d ->
  post_thread_id np <> tid ->
  activity_times tid d' = activity_times tid d.
Proof.
  intros P C Hne.
  assert (Hp : posts_of tid d' = posts_of tid d).
  { rewrite (posts_of_snoc _ d d' _ P). apply Z.eqb_neq in Hne.
    now rewrite Hne, app_nil_r. }
  apply activity_times_same; [exact Hp|]. now apply comments_of_same.
Qed.

Lemma other_thread_comment (tid : Z) (d d' : db) (p : post) (nc : comment_row) :
  store_ok d -> In p (posts d) ->
  posts d' = posts d -> comments d' = comments d ++ [nc] ->
  comment_post_id nc = post_id p -> post_thread_id p <> tid ->
  activity_times tid d' = activity_times tid d.
Proof.
  intros (_ & N2 & _ & _) Hp P C Hid Hne.
  apply activity_times_same; [now apply posts_of_same|].
  unfold comments_of. rewrite (posts_of_same _ d d' P), C, filter_app.
  simpl. rewrite Hid.
  destruct (existsb (fun q => post_id p =? post_id q) (posts_of tid d)) eqn:E;
    [|now rewrite app_nil_r].
  exfalso. apply existsb_exists in E as (q & Hq & He).
  apply Z.eqb_eq in He. apply posts_of_In in Hq as [Hq Hqt].
  apply Hne. rewrite <- Hqt. f_equal.
  exact (NoDup_map_inj post_id (posts d) p q N2 Hp Hq He).
Qed.

Lemma effect_activities_ok (ts now : Z) (d d' : db) :
  effect ts d d' -> store_ok d -> times_le now d -> now <= ts ->
  activities_ok d -> activities_ok d'.
Proof.
  intros E Hok Hnow Hle Ha.
  pose proof (effect_times_le ts now d d' E Hnow Hle) as Hts.
  destruct E as [->|title author content cat T P C
                |tid author content Htid T P C|p author content Hp T P C];
    [exact Ha| | |]; intros t' Ht'; rewrite T in Ht';
    apply in_map_iff in Ht' as (t & <- & Ht); unfold activity_ok.
  - set (tid := next_rowid (seq_threads d) (map thread_id (threads d))) in *.
    rewrite bump_post_row_id. unfold bump_post_row.
    apply in_app_or in Ht as [Ht|[<-|[]]].
    + assert (Hne : thread_id t <> tid).
      { intros Heq. apply (next_rowid_fresh (seq_threads d)
                             (map thread_id (threads d))).
        fold tid. rewrite <- Heq. now apply in_map. }
      pose proof Hne as Hne'. apply Z.eqb_neq in Hne'. rewrite Hne'.
      rewrite (other_thread_post _ d d' _ P C) by (simpl; congruence).
      now apply Ha.
    + cbn [thread_id]. rewrite Z.eqb_refl. cbn [last_activity_at].
      apply latest_is_maximum; [exact Hts|].
      eapply new_post_in_activity; [exact P| |]; reflexivity.
  - rewrite bump_post_row_id. unfold bump_post_row.
    destruct (thread_id t =? tid) eqn:Heq; cbn [last_activity_at].
    + apply Z.eqb_eq in Heq. apply latest_is_maximum; [exact Hts|].
      eapply new_post_in_activity; [exact P| |]; simpl; congruence.
    + apply Z.eqb_neq in Heq.
      rewrite (other_thread_post _ d d' _ P C) by (simpl; congruence).
      now apply Ha.
  - rewrite bump_activity_row_id. unfold bump_activity_row.
    destruct (thread_id t =? post_thread_id p) eqn:Heq; cbn [last_activity_at].
    + apply Z.eqb_eq in Heq. apply latest_is_maximum; [exact Hts|].
      unfold activity_times. apply in_or_app. right.
      set (nc := mkComment _ (post_id p) author content ts) in C.
      change ts with (comment_created_at nc). apply in_map.
      unfold comments_of. apply filter_In. split.
      * rewrite C. apply in_or_app. right. now left.
      * apply existsb_exists. exists p. split.
        -- apply posts_of_In. rewrite P. auto.
        -- apply Z.eqb_refl.
    + apply Z.eqb_neq in Heq.
      rewrite (other_thread_comment _ d d' p _ Hok Hp P C)
        by (simpl; congruence).
      now apply Ha.
Qed.

(** ** C3: [posts_count] and [last_activity_at] *)

Lemma initial_db_rows :
  threads initial_db = [] /\ posts initial_db = [] /\ comments initial_db = [].
Proof. repeat split. Qed.

Lemma initial_db_ok :
  store_ok initial_db /\ counts_ok initial_db /\ activities_ok initial_db
  /\ forall now, times_le now initial_db.
Proof.
  destruct initial_db_rows as (T & P & C).
  unfold store_ok, counts_ok, activities_ok, times_le.
  rewrite T, P, C. simpl.
  repeat split; try constructor; intros; contradiction.
Qed.

Lemma apply_ops_counts (os : list op) (d : db) :
  store_ok d -> counts_ok d ->
  store_ok (apply_ops d os) /\ counts_ok (apply_ops d os).
Proof.
  revert d. induction os as [|o os IH]; intros d Hs Hc; [now split|].
  simpl. pose proof (apply_op_effect d o) as E. apply IH.
  - eapply effect_store_ok; eassumption.
  - eapply effect_counts_ok; eassumption.
Qed.

Lemma apply_ops_activities (os : list op) (d : db) (now : Z) :
  store_ok d -> activities_ok d -> times_le now d ->
  nondecreasing (now :: map op_ts os) ->
  activities_ok (apply_ops d os).
Proof.
  revert d now. induction os as [|o os IH]; intros d now Hs Ha Ht Hn;
    [exact Ha|].
  simpl in *. destruct Hn as [Hle Hn].
  pose proof (apply_op_effect d o) as E.
  apply (IH _ (op_ts o)).
  - eapply effect_store_ok; eassumption.
  - eapply effect_activities_ok; eassumption.
  - eapply effect_times_le; eassumption.
  - exact Hn.
Qed.

Example counters_after_three_operations :
  map (fun t => (thread_id t, posts_count t, last_activity_at t))
      (threads (apply_ops initial_db
                  [CreateThreadOp [("title"%string, lit "Hello");
                                   ("content"%string, lit "first")] 100;
                   ReplyOp 1 [("content"%string, lit "second")] 150;
                   CommentOp 2 [("content"%string, lit "third")] 170]))
  = [(1, 2, 170)].
Proof. vm_compute. reflexivity. Qed.

(** C3, as stated, fails in its second half: every insertion overwrites
    [last_activity_at] with the clock reading, whatever the stored value.
    When the clock steps back between a thread's creation (at 100) and a
    reply (at 50), the thread shows 50 although its first post is stamped
    100. *)
Lemma last_activity_follows_clock_back :
  map (fun t => (thread_id t, posts_count t, last_activity_at t))
      (threads (apply_ops initial_db
                  [CreateThreadOp [("title"%string, lit "Hello");
                                   ("content"%string, lit "first")] 100;
                   ReplyOp 1 [("content"%string, lit "second")] 50]))
  = [(1, 2, 50)]
  /\ maximum (activity_times 1
                (apply_ops initial_db
                   [CreateThreadOp [("title"%string, lit "Hello");
                                    ("content"%string, lit "first")] 100;
                    ReplyOp 1 [("content"%string, lit "second")] 50]))
     = Some 100.
Proof. split; vm_compute; reflexivity. Qed.

(** C3 (amended): after every sequence of [create_thread], [reply] and
    [comment] requests, started on the freshly initialised database and
    each either completed or failed, every thread's [posts_count] equals
    the number of posts carrying its id; and when the clock readings of
    the requests never decrease, every thread's [last_activity_at] equals
    the maximum [created_at] over its posts and the comments on them. *)
Theorem counters_follow_rows (os : list op) :
  counts_ok (apply_ops initial_db os)
  /\ (nondecreasing (map op_ts os) ->
      activities_ok (apply_ops initial_db os)).
Proof.
  destruct initial_db_ok as (Hs & Hc & Ha & Ht). split.
  - now apply apply_ops_counts.
  - intros Hn. destruct os as [|o os]; [exact Ha|].
    apply (apply_ops_activities _ _ (op_ts o)); try assumption;
      [apply Ht|].
    simpl in *. split; [lia | exact Hn].
Qed.

Lemma counters_follow_rows_witness :
  nondecreasing [100; 150; 170]
  /\ activities_ok
       (apply_ops initial_db
          [CreateThreadOp [("title"%string, lit "Hello");
                           ("content"%string, lit "first")] 100;
           ReplyOp 1 [("content"%string, lit "second")] 150;
           CommentOp 2 [("content"%string, lit "third")] 170]).
Proof.
  assert (H : nondecreasing [100; 150; 170]).
  { simpl. repeat split; lia. }
  split; [exact H|].
  exact (proj2 (counters_follow_rows
                  [CreateThreadOp [("title"%string, lit "Hello");
                                   ("content"%string, lit "first")] 100;
                   ReplyOp 1 [("content"%string, lit "second")] 150;
                   CommentOp 2 [("content"%string, lit "third")] 170]) H).
Defined.

(** ** [create_thread]: the category of the new thread *)

(** The resolved category is always one of the table. *)
Lemma resolve_category_existing (raw : option str) (d d' : db) (c : Z) :
  resolve_category raw d = Ok (c, d') -> In c (map cat_id (categories d)).
Proof.
  assert (Hlow : forall s,
    bind (ret None)
      (fun cat_row : option Z =>
         bind match cat_row with
              | Some id => ret (Some id)
              | None => query (fun d => lowest_category_id (categories d))
              end
           (fun cat_row => match cat_row with
                           | Some id => ret id
                           | None => abort 400 "No categories configured"
                           end)) d = Ok (c, s) ->
    In c (map cat_id (categories d))).
  { intros s. unfold bind, ret, query, abort.
    destruct (lowest_category_id (categories d)) as [m|] eqn:E;
      [|discriminate].
    intros [= <- _]. now apply lowest_category_id_least in E. }
  unfold resolve_category.
  destruct raw as [r|]; [|apply Hlow].
  destruct (negb (is_empty r) && isdigit r); [|apply Hlow].
  unfold int_of. destruct (py_int r) as [n|]; [|discriminate].
  unfold bind, query, ret, abort, bind_params. cbn [forallb].
  destruct (fits_int64 n); cbn [andb]; [|discriminate].
  destruct (find (fun k => cat_id k =? n) (categories d)) as [k|] eqn:Hk;
    cbn [option_map].
  - intros [= <- _]. apply find_cat_id in Hk as [<- Hin]. now apply in_map.
  - destruct (lowest_category_id (categories d)) as [m|] eqn:E;
      [|discriminate].
    intros [= <- _]. now apply lowest_category_id_least in E.
Qed.

(** Without any category nothing is created. *)
Lemma create_thread_without_categories (form : dict) (ts : Z) (d : db) :
  categories d = [] ->
  exists status, run_view (create_thread form ts) d = (ErrorResponse status, d).
Proof.
  intros Hc. unfold run_view.
  destruct (create_thread form ts d) as [[r d']|st ds|e] eqn:E; eauto.
  exfalso. unfold create_thread in E. bind_steps.
  apply reads_only_require in Hstep. subst.
  apply resolve_category_existing in Hstep0. rewrite Hc in Hstep0.
  contradiction.
Qed.

(** With valid fields and no [category_id], the missing categories are
    reported as a 400. *)
Lemma create_thread_no_categories_configured (form : dict) (ts : Z) (d : db) :
  is_empty (field "title" form) = false ->
  is_empty (field "content" form) = false ->
  dict_get "category_id" form = None ->
  categories d = [] ->
  run_view (create_thread form ts) d = (ErrorResponse 400, d).
Proof.
  intros Ht Hc Hraw Hcats. unfold run_view, create_thread.
  rewrite Ht, Hc, Hraw. cbn [orb negb require].
  rewrite (bind_Ok _ _ d d tt) by reflexivity.
  unfold bind at 1.
  rewrite (resolve_category_default None d I), Hcats. reflexivity.
Qed.

Lemma map_bump_post_fresh (ts tid : Z) (l : list thread) :
  ~ In tid (map thread_id l) -> map (bump_post_row ts tid) l = l.
Proof.
  induction l as [|t l IH]; simpl; intros H; [reflexivity|].
  rewrite IH by tauto. f_equal. unfold bump_post_row.
  destruct (thread_id t =? tid) eqn:E; [|reflexivity].
  apply Z.eqb_eq in E. tauto.
Qed.

(** A request that passes validation creates the thread in the resolved
    category, with one post counted, as long as a thread id and a post id
    are left. *)
Lemma create_thread_in_category (form : dict) (ts : Z) (d : db) (cat : Z) :
  is_empty (field "title" form) = false ->
  is_empty (field "content" form) = false ->
  resolve_category (dict_get "category_id" form) d = Ok (cat, d) ->
  fits_int64 ts = true ->
  let tid := next_rowid (seq_threads d) (map thread_id (threads d)) in
  fits_int64 tid = true ->
  fits_int64 (next_rowid (seq_posts d) (map post_id (posts d))) = true ->
  fst (run_view (create_thread form ts) d) = Redirect tid None
  /\ threads (snd (run_view (create_thread form ts) d))
     = threads d
       ++ [mkThread tid (clamp_text (field "title" form) 140) 1 ts ts
                    (Some cat)].
Proof.
  intros Ht Hc Hres Hts tid Htid Hpid. unfold run_view, create_thread.
  rewrite Ht, Hc. cbn [orb negb require].
  rewrite (bind_Ok _ _ d d tt) by reflexivity.
  rewrite (bind_Ok _ _ d d cat Hres).
  unfold bind_params. cbn [forallb]. rewrite Hts. cbn [andb].
  unfold bind, insert_thread, insert_post, execute, commit, ret.
  fold tid. rewrite Htid. cbn [negb set_threads posts seq_posts].
  rewrite Hpid. cbn [negb].
  cbn [fst snd bump_post set_posts set_threads threads]. split; [reflexivity|].
  rewrite map_app, map_bump_post_fresh by apply next_rowid_fresh.
  cbn [map]. unfold bump_post_row. cbn [thread_id]. fold tid.
  now rewrite Z.eqb_refl.
Qed.

(* ================================================================== *)
(** * Further properties of the views *)

(** ** What a successful request wrote *)

Lemma require_inv (b : bool) (st : Z) (ds : string) (d d' : db) (u : unit) :
  require b st ds d = Ok (u, d') -> b = true /\ d' = d.
Proof.
  unfold require. destruct b; [|discriminate]. now intros [= _ <-].
Qed.

Lemma bind_params_inv (ps : list Z) (d d' : db) (u : unit) :
  bind_params ps d = Ok (u, d') -> forallb fits_int64 ps = true /\ d' = d.
Proof.
  unfold bind_params. destruct (forallb fits_int64 ps); [|discriminate].
  now intros [= _ <-].
Qed.

Lemma create_thread_rows (form : dict) (ts : Z) (d d' : db) (r : response) :
  create_thread form ts d = Ok (r, d') ->
  exists cat,
    let tid := next_rowid (seq_threads d) (map thread_id (threads d)) in
    is_empty (field "title" form) = false
    /\ is_empty (field "content" form) = false
    /\ resolve_category (dict_get "category_id" form) d = Ok (cat, d)
    /\ fits_int64 ts = true
    /\ r = Redirect tid None
    /\ categories d' = categories d
    /\ threads d'
       = threads d ++ [mkThread tid (clamp_text (field "title" form) 140)
                                1 ts ts (Some cat)]
    /\ posts d'
       = posts d ++ [mkPost (next_rowid (seq_posts d) (map post_id (posts d)))
                            tid (clamp_text (author_field form) 32)
                            (clamp_text (field "content" form) 5000) ts]
    /\ comments d' = comments d.
Proof.
  unfold create_thread. intros H.
  apply bind_inv in H as (u1 & s1 & H1 & H).
  apply require_inv in H1 as [Hreq ->].
  apply bind_inv in H as (cat & s2 & H2 & H).
  pose proof (resolve_category_reads_only _ _ _ _ H2) as ->.
  apply bind_inv in H as (u3 & s3 & H3 & H).
  apply bind_params_inv in H3 as [Hts ->].
  cbn [forallb] in Hts. rewrite andb_true_r in Hts.
  apply negb_true_iff, orb_false_elim in Hreq as [Ht Hc].
  exists cat. cbv zeta.
  unfold bind, insert_thread, insert_post, execute, commit, ret in H.
  destruct (fits_int64 (next_rowid (seq_threads d) _)); cbn [negb] in H;
    [|discriminate].
  cbn [set_threads posts seq_posts] in H.
  destruct (fits_int64 (next_rowid (seq_posts d) _)); cbn [negb] in H;
    [|discriminate].
  injection H as <- <-.
  cbn [bump_post set_posts set_threads threads posts comments categories
       seq_posts].
  repeat split; try assumption; try reflexivity.
  rewrite map_app, map_bump_post_fresh by apply next_rowid_fresh.
  cbn [map]. unfold bump_post_row. cbn [thread_id]. now rewrite Z.eqb_refl.
Qed.

Lemma reply_rows (tid : Z) (form : dict) (ts : Z) (d d' : db) (r : response) :
  reply tid form ts d = Ok (r, d') ->
  fits_int64 tid = true
  /\ In tid (map thread_id (threads d))
  /\ is_empty (field "content" form) = false
  /\ fits_int64 ts = true
  /\ r = Redirect tid None
  /\ categories d' = categories d
  /\ threads d' = map (bump_post_row ts tid) (threads d)
  /\ posts d'
     = posts d ++ [mkPost (next_rowid (seq_posts d) (map post_id (posts d)))
                          tid (clamp_text (author_field form) 32)
                          (clamp_text (field "content" form) 5000) ts]
  /\ comments d' = comments d.
Proof.
  unfold reply. intros H.
  apply bind_inv in H as (u1 & s1 & H1 & H).
  apply bind_params_inv in H1 as [Htid ->].
  cbn [forallb] in Htid. rewrite andb_true_r in Htid.
  apply bind_inv in H as (found & s2 & H2 & H).
  unfold query in H2. injection H2 as <- <-.
  apply bind_inv in H as (u3 & s3 & H3 & H).
  apply require_inv in H3 as [Hfound ->].
  apply bind_inv in H as (u4 & s4 & H4 & H).
  apply require_inv in H4 as [Hc ->]. apply negb_true_iff in Hc.
  apply bind_inv in H as (u5 & s5 & H5 & H).
  apply bind_params_inv in H5 as [Hts ->].
  cbn [forallb] in Hts. rewrite andb_true_r in Hts.
  unfold bind, insert_post, execute, commit, ret in H.
  destruct (fits_int64 (next_rowid (seq_posts d) _)); cbn [negb] in H;
    [|discriminate].
  injection H as <- <-.
  cbn [bump_post set_posts set_threads threads posts comments categories].
  repeat split; try assumption; try reflexivity.
  now apply existsb_thread_id.
Qed.

Lemma comment_rows (pid : Z) (form : dict) (ts : Z) (d d' : db) (r : response) :
  comment pid form ts d = Ok (r, d') ->
  exists p,
    fits_int64 pid = true
    /\ find (fun q => post_id q =? pid) (posts d) = Some p
    /\ is_empty (field "content" form) = false
    /\ fits_int64 ts = true
    /\ r = Redirect (post_thread_id p) (Some pid)
    /\ categories d' = categories d
    /\ threads d' = map (bump_activity_row ts (post_thread_id p)) (threads d)
    /\ posts d' = posts d
    /\ comments d'
       = comments d
         ++ [mkComment (next_rowid (seq_comments d)
                                   (map comment_id (comments d)))
                       pid (clamp_text (author_field form) 32)
                       (clamp_text (field "content" form) 2000) ts].
Proof.
  unfold comment. intros H.
  apply bind_inv in H as (u1 & s1 & H1 & H).
  apply bind_params_inv in H1 as [Hpid ->].
  cbn [forallb] in Hpid. rewrite andb_true_r in Hpid.
  apply bind_inv in H as (found & s2 & H2 & H).
  unfold query in H2. injection H2 as <- <-.
  destruct (find (fun q => post_id q =? pid) (posts d)) as [p|] eqn:Hp;
    [|discriminate].
  apply bind_inv in H as (u4 & s4 & H4 & H).
  apply require_inv in H4 as [Hc ->]. apply negb_true_iff in Hc.
  apply bind_inv in H as (u5 & s5 & H5 & H).
  apply bind_params_inv in H5 as [Hts ->].
  cbn [forallb] in Hts. rewrite andb_true_r in Hts.
  unfold bind, insert_comment, execute, commit, ret in H.
  destruct (fits_int64 (next_rowid (seq_comments d) _)); cbn [negb] in H;
    [|discriminate].
  injection H as <- <-.
  exists p.
  cbn [bump_activity set_comments set_threads threads posts comments
       categories].
  repeat split; try assumption; reflexivity.
Qed.

(** ** Invariants kept by every sequence of requests *)

Lemma apply_ops_invariant (P : db -> Prop) :
  (forall d o, P d -> P (apply_op d o)) ->
  forall os d, P d -> P (apply_ops d os).
Proof.
  intros Hstep os. induction os as [|o os IH]; intros d Hd; [exact Hd|].
  simpl. apply IH. now apply Hstep.
Qed.

(** X1: whatever requests follow, the rows stay consistent: thread ids
    and post ids are unique, every post belongs to a thread of the table
    and every comment to a post of the table. *)
Theorem store_integrity_kept (d : db) (os : list op) :
  store_ok d -> store_ok (apply_ops d os).
Proof.
  revert d. apply apply_ops_invariant. intros d o Hd.
  eapply effect_store_ok; [apply apply_op_effect | exact Hd].
Qed.

Lemma store_integrity_kept_witness :
  store_ok initial_db
  /\ store_ok (apply_ops initial_db
                 [CreateThreadOp [("title"%string, lit "Hello");
                                  ("content"%string, lit "first")] 100;
                  ReplyOp 1 [("content"%string, lit "second")] 150;
                  CommentOp 7 [("content"%string, lit "lost")] 160]).
Proof.
  assert (H : store_ok initial_db).
  { unfold store_ok. vm_compute. repeat split; try constructor;
      intros ? []. }
  split; [exact H|]. exact (store_integrity_kept initial_db _ H).
Defined.

Lemma clamp_text_bounded (s : str) (n : Z) :
  s <> [] -> 1 <= n -> bounded n (clamp_text s n).
Proof.
  intros Hs Hn. unfold bounded, clamp_text, len.
  destruct (Z.of_nat (List.length s) <=? n) eqn:E.
  - apply Z.leb_le in E. now split.
  - apply Z.leb_gt in E. rewrite slice_to_nonneg by lia. split.
    + intros Hnil. apply app_eq_nil in Hnil as [_ Hnil]. discriminate.
    + rewrite length_app. cbn [List.length ellipsis].
      pose proof (rstrip_length (firstn (Z.to_nat (n - 1)) s)) as Hr.
      rewrite length_firstn in Hr. lia.
Qed.

Lemma is_empty_false (s : str) : is_empty s = false -> s <> [].
Proof. destruct s; [discriminate | discriminate]. Qed.

Lemma author_field_nonempty (form : dict) : author_field form <> [].
Proof.
  unfold author_field, str_or.
  destruct (field "author" form); discriminate.
Qed.

Lemma bump_post_row_title (ts tid : Z) (t : thread) :
  thread_title (bump_post_row ts tid t) = thread_title t
  /\ category_id (bump_post_row ts tid t) = category_id t.
Proof. unfold bump_post_row. now destruct (thread_id t =? tid). Qed.

Lemma bump_activity_row_title (ts tid : Z) (t : thread) :
  thread_title (bump_activity_row ts tid t) = thread_title t
  /\ category_id (bump_activity_row ts tid t) = category_id t.
Proof. unfold bump_activity_row. now destruct (thread_id t =? tid). Qed.

Lemma new_post_bounded (form : dict) (id tid ts : Z) :
  is_empty (field "content" form) = false ->
  bounded 32 (post_author (mkPost id tid (clamp_text (author_field form) 32)
                                  (clamp_text (field "content" form) 5000) ts))
  /\ bounded 5000
       (post_content (mkPost id tid (clamp_text (author_field form) 32)
                             (clamp_text (field "content" form) 5000) ts)).
Proof.
  intros Hc. cbn [post_author post_content]. split.
  - apply clamp_text_bounded; [apply author_field_nonempty | lia].
  - apply clamp_text_bounded; [now apply is_empty_false | lia].
Qed.

Lemma apply_op_fields_ok (d : db) (o : op) :
  fields_ok d -> fields_ok (apply_op d o).
Proof.
  intros (Ht & Hp & Hc). unfold apply_op, run_view.
  destruct (op_view o d) as [[r d']| |] eqn:E; cbn [snd];
    try (split; [|split]; assumption).
  destruct o as [form ts|tid form ts|pid form ts]; cbn [op_view] in E.
  - apply create_thread_rows in E
      as (cat & Et & Ec & _ & _ & _ & _ & T & P & C).
    unfold fields_ok. rewrite T, P, C. split; [|split; [|exact Hc]].
    + intros t Hin. apply in_app_or in Hin as [Hin|[<-|[]]]; [now apply Ht|].
      apply clamp_text_bounded; [now apply is_empty_false | lia].
    + intros q Hin. apply in_app_or in Hin as [Hin|[<-|[]]]; [now apply Hp|].
      now apply new_post_bounded.
  - apply reply_rows in E as (_ & _ & Ec & _ & _ & _ & T & P & C).
    unfold fields_ok. rewrite T, P, C. split; [|split; [|exact Hc]].
    + intros t Hin. apply in_map_iff in Hin as (t0 & <- & Hin).
      rewrite (proj1 (bump_post_row_title _ _ _)). now apply Ht.
    + intros q Hin. apply in_app_or in Hin as [Hin|[<-|[]]]; [now apply Hp|].
      now apply new_post_bounded.
  - apply comment_rows in E as (p & _ & _ & Ec & _ & _ & _ & T & P & C).
    unfold fields_ok. rewrite T, P, C. split; [|split; [exact Hp|]].
    + intros t Hin. apply in_map_iff in Hin as (t0 & <- & Hin).
      rewrite (proj1 (bump_activity_row_title _ _ _)). now apply Ht.
    + intros c Hin. apply in_app_or in Hin as [Hin|[<-|[]]]; [now apply Hc|].
      cbn [comment_author comment_content]. split.
      * apply clamp_text_bounded; [apply author_field_nonempty | lia].
      * apply clamp_text_bounded; [now apply is_empty_false | lia].
Qed.

(** X2: the length bounds hold for every stored row, whatever the forms
    contained: titles are non-empty and at most 140 characters, authors
    non-empty and at most 32, post contents non-empty and at most 5000,
    comment contents non-empty and at most 2000. *)
Theorem field_bounds_kept (d : db) (os : list op) :
  fields_ok d -> fields_ok (apply_ops d os).
Proof.
  revert d. apply apply_ops_invariant. intros d o. apply apply_op_fields_ok.
Qed.

Lemma apply_op_categories_ok (d : db) (o : op) :
  categories_ok d -> categories_ok (apply_op d o).
Proof.
  intros Hok. unfold apply_op, run_view.
  destruct (op_view o d) as [[r d']| |] eqn:E; cbn [snd]; try exact Hok.
  destruct o as [form ts|tid form ts|pid form ts]; cbn [op_view] in E;
    unfold categories_ok.
  - apply create_thread_rows in E
      as (cat & _ & _ & Hres & _ & _ & K & T & _ & _).
    rewrite T, K. intros t Hin.
    apply in_app_or in Hin as [Hin|[<-|[]]]; [now apply Hok|].
    apply resolve_category_existing in Hres.
    apply in_map_iff in Hres as (c & <- & Hc). now exists c.
  - apply reply_rows in E as (_ & _ & _ & _ & _ & K & T & _ & _).
    rewrite T, K. intros t Hin. apply in_map_iff in Hin as (t0 & <- & Hin).
    rewrite (proj2 (bump_post_row_title _ _ _)). now apply Hok.
  - apply comment_rows in E as (p & _ & _ & _ & _ & _ & K & T & _ & _).
    rewrite T, K. intros t Hin. apply in_map_iff in Hin as (t0 & <- & Hin).
    rewrite (proj2 (bump_activity_row_title _ _ _)). now apply Hok.
Qed.

(** X3: every thread keeps naming a category of the table: a new thread
    gets the id of an existing category, never NULL and never an id that
    is not there, and later replies and comments leave it alone. *)
Theorem thread_categories_kept (d : db) (os : list op) :
  categories_ok d -> categories_ok (apply_ops d os).
Proof.
  revert d. apply apply_ops_invariant. intros d o.
  apply apply_op_categories_ok.
Qed.

Ltac rows_empty := vm_compute; repeat split; intros; contradiction.

Lemma field_bounds_kept_witness :
  fields_ok initial_db
  /\ fields_ok (apply_ops initial_db
                  [CreateThreadOp [("title"%string, lit "Hello");
                                   ("author"%string, lit "  ");
                                   ("content"%string, lit "first")] 100;
                   ReplyOp 1 [("content"%string, lit "second")] 150]).
Proof.
  assert (H : fields_ok initial_db) by (unfold fields_ok; rows_empty).
  split; [exact H|]. exact (field_bounds_kept initial_db _ H).
Defined.

Lemma thread_categories_kept_witness :
  categories_ok initial_db
  /\ categories_ok (apply_ops initial_db
                      [CreateThreadOp [("title"%string, lit "Hello");
                                       ("content"%string, lit "first");
                                       ("category_id"%string, lit "99")] 100]).
Proof.
  assert (H : categories_ok initial_db)
    by (unfold categories_ok; vm_compute; intros ? []).
  split; [exact H|]. exact (thread_categories_kept initial_db _ H).
Defined.

(** ** Requests that only read *)

Lemma reads_only_index (args : dict) : reads_only (index args).
Proof.
  unfold index, get_categories_list. cbv zeta. reads_only_tac.
Qed.

Lemma reads_only_thread_view (tid : Z) (args : dict) :
  reads_only (thread_view tid args).
Proof.
  unfold thread_view. cbv zeta. reads_only_tac.
Qed.

Lemma run_view_reads_only (v : M response) (d : db) :
  reads_only v -> snd (run_view v d) = d.
Proof.
  intros Hv. unfold run_view.
  destruct (v d) as [[r d']| |] eqn:E; cbn [snd]; [|reflexivity|reflexivity].
  now apply Hv in E.
Qed.

(** X4: a GET request never changes the database, whatever its route,
    arguments and outcome (page, 404, 405 or server error). *)
Theorem get_leaves_store_unchanged
    (fresh : str) (ts : Z) (session : dict) (d : db) (req : request) :
  method req = GET ->
  snd (handle_request fresh ts session d req) = d.
Proof.
  intros Hget. unfold handle_request, csrf_and_session_bootstrap.
  rewrite Hget.
  assert (Hr : reads_only (dispatch ts req)).
  { unfold dispatch. rewrite Hget.
    destruct (target req);
      first [ apply reads_only_index | apply reads_only_thread_view
            | apply reads_only_ret | apply reads_only_abort ]. }
  pose proof (run_view_reads_only _ d Hr) as Hs.
  destruct (run_view (dispatch ts req) d) as [r d']. exact Hs.
Qed.

Lemma get_leaves_store_unchanged_witness :
  snd (handle_request (lit "00ff") 100 [] initial_db
         (mkRequest GET (ThreadView 3) [("page"%string, lit "2")] [] 0))
  = initial_db.
Proof.
  exact (get_leaves_store_unchanged (lit "00ff") 100 [] initial_db
           (mkRequest GET (ThreadView 3) [("page"%string, lit "2")] [] 0)
           eq_refl).
Defined.

(** ** The session token *)

Lemma handle_request_session
    (fresh : str) (ts : Z) (session : dict) (d : db) (req : request) :
  snd (fst (handle_request fresh ts session d req))
  = (if dict_mem "csrf_token" session then session
     else dict_set "csrf_token" fresh session).
Proof.
  unfold handle_request, csrf_and_session_bootstrap.
  destruct (dict_mem "csrf_token" session); cbn [negb];
    destruct (method req);
    repeat match goal with
           | |- context [if ?b then _ else _] => destruct b
           | |- context [run_view ?v ?x] => destruct (run_view v x)
           end; reflexivity.
Qed.

Lemma dict_mem_set (k : string) (v : str) (m : dict) :
  dict_mem k (dict_set k v m) = true.
Proof. unfold dict_mem. now rewrite dict_get_set. Qed.

(** X5: after any request the session holds a CSRF token, and it is the
    one the session already had when it had one: the token is issued once
    and no later request of the session, accepted or rejected, replaces
    it. *)
Theorem csrf_token_issued_once
    (fresh fresh' : str) (ts ts' : Z) (session : dict) (d d' : db)
    (req req' : request) :
  dict_mem "csrf_token"
    (snd (fst (handle_request fresh ts session d req))) = true
  /\ dict_get "csrf_token" (snd (fst (handle_request fresh ts session d req)))
     = Some (match dict_get "csrf_token" session with
             | Some token => token
             | None => fresh
             end)
  /\ snd (fst (handle_request fresh' ts' 
                 (snd (fst (handle_request fresh ts session d req))) d' req'))
     = snd (fst (handle_request fresh ts session d req)).
Proof.
  assert (H1 : dict_mem "csrf_token"
                 (snd (fst (handle_request fresh ts session d req))) = true).
  { rewrite handle_request_session.
    destruct (dict_mem "csrf_token" session) eqn:E;
      [exact E | apply dict_mem_set]. }
  split; [exact H1|]. split.
  - rewrite handle_request_session. unfold dict_mem.
    destruct (dict_get "csrf_token" session) as [tok|] eqn:E;
      [exact E | apply dict_get_set].
  - rewrite (handle_request_session fresh' ts'). now rewrite H1.
Qed.



(** ** Required fields *)

Lemma strip_whitespace_only (s : str) : whitespace_only s -> strip s = [].
Proof.
  intros H. unfold strip, rstrip, lstrip.
  assert (E : lstrip_by py_isspace s = []).
  { induction s as [|c t IH]; [reflexivity|]. simpl.
    rewrite (H c) by now left. apply IH. intros x Hx. apply H. now right. }
  now rewrite E.
Qed.

Lemma field_blank (name : string) (form : dict) :
  whitespace_only (opt_or (dict_get name form) []) ->
  is_empty (field name form) = true.
Proof.
  intros H. unfold field. now rewrite strip_whitespace_only.
Qed.

(** X7: [create_thread] needs a title and a content: when either is
    missing, empty or made of whitespace only, the answer is 400 and
    nothing is written, whatever else the form holds (the check comes
    before the category is looked at). *)
Theorem create_thread_requires_title_and_content
    (form : dict) (ts : Z) (d : db) :
  whitespace_only (opt_or (dict_get "title" form) [])
  \/ whitespace_only (opt_or (dict_get "content" form) []) ->
  run_view (create_thread form ts) d = (ErrorResponse 400, d).
Proof.
  intros H. unfold run_view, create_thread, bind, require.
  assert (E : is_empty (field "title" form) || is_empty (field "content" form)
              = true).
  { destruct H as [H|H]; apply field_blank in H; rewrite H;
      [reflexivity | apply orb_true_r]. }
  rewrite E. reflexivity.
Qed.

Lemma create_thread_requires_title_and_content_witness :
  run_view (create_thread [("title"%string, [32; 9; 10]);
                           ("content"%string, lit "text");
                           ("category_id"%string, [178])] 100) initial_db
  = (ErrorResponse 400, initial_db).
Proof.
  apply (create_thread_requires_title_and_content
           [("title"%string, [32; 9; 10]); ("content"%string, lit "text");
            ("category_id"%string, [178])] 100 initial_db).
  left. intros c Hc. vm_compute in Hc.
  destruct Hc as [<-|[<-|[<-|[]]]]; reflexivity.
Defined.

(** X8: a reply to an existing thread, or a comment on an existing post,
    whose content is missing, empty or whitespace only is answered 400 and
    nothing is written.  Each holds on its own: the reply needs no post
    in the store, the comment nothing of the threads. *)
Theorem reply_and_comment_require_content
    (form : dict) (ts : Z) (d : db) :
  whitespace_only (opt_or (dict_get "content" form) []) ->
  (forall tid,
     fits_int64 tid = true ->
     existsb (fun t => thread_id t =? tid) (threads d) = true ->
     run_view (reply tid form ts) d = (ErrorResponse 400, d))
  /\ (forall pid p,
        fits_int64 pid = true ->
        find (fun q => post_id q =? pid) (posts d) = Some p ->
        run_view (comment pid form ts) d = (ErrorResponse 400, d)).
Proof.
  intros Hc. apply field_blank in Hc. split.
  - intros tid Ht He.
    unfold run_view, reply, bind, bind_params, query, require.
    cbn [forallb]. rewrite Ht. cbn [andb]. now rewrite He, Hc.
  - intros pid p Hp Hf.
    unfold run_view, comment, bind, bind_params, query, require.
    cbn [forallb]. rewrite Hp. cbn [andb]. now rewrite Hf, Hc.
Qed.

Lemma reply_and_comment_require_content_witness :
  run_view (reply 5 [("content"%string, [32; 10])] 150)
    (mkDb (mkSchema true true true true true [])
          [] [mkThread 5 (lit "bare") 0 10 10 None] [] [] 0 5 0 0)
  = (ErrorResponse 400,
     mkDb (mkSchema true true true true true [])
          [] [mkThread 5 (lit "bare") 0 10 10 None] [] [] 0 5 0 0)
  /\ run_view (comment 3 [("author"%string, lit "me")] 150)
       (mkDb (mkSchema true true true true true [])
             [] [] [mkPost 3 9223372036854775808 (lit "anon") (lit "x") 10]
             [] 0 0 3 0)
     = (ErrorResponse 400,
        mkDb (mkSchema true true true true true [])
             [] [] [mkPost 3 9223372036854775808 (lit "anon") (lit "x") 10]
             [] 0 0 3 0).
Proof.
  split.
  - refine (proj1 (reply_and_comment_require_content
                     [("content"%string, [32; 10])] 150
                     (mkDb (mkSchema true true true true true [])
                           [] [mkThread 5 (lit "bare") 0 10 10 None] [] []
                           0 5 0 0) _)
                  5 eq_refl eq_refl).
    intros c Hc. vm_compute in Hc.
    destruct Hc as [<-|[<-|[]]]; reflexivity.
  - refine (proj2 (reply_and_comment_require_content
                     [("author"%string, lit "me")] 150
                     (mkDb (mkSchema true true true true true [])
                           [] []
                           [mkPost 3 9223372036854775808 (lit "anon")
                                   (lit "x") 10]
                           [] 0 0 3 0) _)
                  3 (mkPost 3 9223372036854775808 (lit "anon") (lit "x") 10)
                  eq_refl eq_refl).
    intros c Hc. vm_compute in Hc. destruct Hc.
Defined.

(** ** Listings *)

Lemma index_explicit (args : dict) (d : db) :
  index args d
  = if fits_int64 ((page_of args - 1) * 20)
    then Ok (IndexPage
               (mkIndexPage
                  (limit_offset 20 ((page_of args - 1) * 20)
                     (order_by thread_before
                        (map (join_category d)
                           (listed_threads (selected_category args d) d))))
                  (order_by (fun a b => str_leb (cat_name a) (cat_name b))
                            (categories d))
                  (selected_category args d)
                  (recent_posts d)
                  (page_of args)
                  (total_pages_of
                     (Z.of_nat (List.length
                                  (listed_threads (selected_category args d) d)))
                     20)),
             d)
    else Raise OverflowError.
Proof.
  unfold index, get_categories_list, selected_category, listed_threads.
  unfold bind at 1. unfold query at 1.
  destruct (dict_get "cat" args) as [[|c s]|];
    unfold bind, query, ret, bind_params; cbn [forallb];
    change (fits_int64 20) with true; cbn [andb];
    destruct (fits_int64 ((page_of args - 1) * 20)); reflexivity.
Qed.

Lemma insert_sorted_perm {A} (le : A -> A -> bool) (x : A) (l : list A) :
  Permutation (insert_sorted le x l) (x :: l).
Proof.
  induction l as [|y l IH]; simpl; [reflexivity|].
  destruct (le x y); [reflexivity|].
  rewrite IH. apply perm_swap.
Qed.

Lemma order_by_perm {A} (le : A -> A -> bool) (l : list A) :
  Permutation (order_by le l) l.
Proof.
  induction l as [|x l IH]; [reflexivity|].
  unfold order_by in *. simpl. rewrite insert_sorted_perm. now constructor.
Qed.

Lemma In_firstn_list {A} (n : nat) (l : list A) (x : A) :
  In x (firstn n l) -> In x l.
Proof.
  revert l. induction n as [|n IH]; intros [|y l] H; simpl in *;
    try contradiction.
  destruct H as [H|H]; [now left | right; now apply IH].
Qed.

Lemma In_skipn_list {A} (n : nat) (l : list A) (x : A) :
  In x (skipn n l) -> In x l.
Proof.
  revert l. induction n as [|n IH]; intros [|y l] H; simpl in *; auto.
Qed.

Section OrderBy.

Context {A : Type} (le : A -> A -> bool).
Hypothesis le_total : forall a b, le a b = false -> le b a = true.
Hypothesis le_trans : forall a b c, le a b = true -> le b c = true ->
                                    le a c = true.

Lemma insert_sorted_sorted (x : A) (l : list A) :
  StronglySorted (fun a b => le a b = true) l ->
  StronglySorted (fun a b => le a b = true) (insert_sorted le x l).
Proof.
  induction 1 as [|y l Hs IH Hy]; simpl.
  - repeat constructor.
  - destruct (le x y) eqn:E.
    + constructor; [now constructor|]. constructor; [exact E|].
      eapply Forall_impl; [|exact Hy]. intros z Hz. eapply le_trans; eauto.
    + constructor; [exact IH|].
      eapply Permutation_Forall; [symmetry; apply insert_sorted_perm|].
      constructor; [now apply le_total | exact Hy].
Qed.

Lemma order_by_sorted (l : list A) :
  StronglySorted (fun a b => le a b = true) (order_by le l).
Proof.
  induction l as [|x l IH]; [constructor|].
  unfold order_by in *. simpl. now apply insert_sorted_sorted.
Qed.

End OrderBy.

Lemma StronglySorted_skipn {A} (R : A -> A -> Prop) (n : nat) (l : list A) :
  StronglySorted R l -> StronglySorted R (skipn n l).
Proof.
  revert l. induction n as [|n IH]; intros l H; [exact H|].
  destruct l as [|x l]; [constructor|]. simpl. apply IH.
  now inversion H.
Qed.

Lemma StronglySorted_firstn {A} (R : A -> A -> Prop) (n : nat) (l : list A) :
  StronglySorted R l -> StronglySorted R (firstn n l).
Proof.
  revert l. induction n as [|n IH]; intros l H; [constructor|].
  destruct l as [|x l]; [constructor|]. simpl.
  inversion H as [|? ? Hs Hx]; subst. constructor; [now apply IH|].
  apply Forall_forall. intros y Hy. rewrite Forall_forall in Hx.
  apply Hx. eapply In_firstn_list; eassumption.
Qed.

Lemma StronglySorted_impl {A} (R S : A -> A -> Prop) (l : list A) :
  (forall a b, R a b -> S a b) -> StronglySorted R l -> StronglySorted S l.
Proof.
  intros HRS. induction 1 as [|x l Hs IH Hx]; constructor; [exact IH|].
  eapply Forall_impl; [|exact Hx]. intros y. apply HRS.
Qed.

Lemma limit_offset_sub {A} (limit offset : Z) (l : list A) (x : A) :
  In x (limit_offset limit offset l) -> In x l.
Proof.
  unfold limit_offset.
  destruct (Z.of_nat (List.length l) <=? offset);
    destruct (limit <? 0); intros H;
    try contradiction;
    try (apply In_firstn_list in H); try contradiction;
    eapply In_skipn_list; eassumption.
Qed.

Lemma thread_before_total (a b : thread_row) :
  thread_before a b = false -> thread_before b a = true.
Proof.
  unfold thread_before. intros H.
  apply orb_false_elim in H as [H1 H2]. apply Z.ltb_ge in H1.
  apply orb_true_iff.
  destruct (Z.lt_ge_cases (last_activity_at (fst a))
              (last_activity_at (fst b))) as [Hlt|Hge].
  - left. now apply Z.ltb_lt.
  - right. assert (E : last_activity_at (fst a) = last_activity_at (fst b))
      by lia.
    rewrite E, Z.eqb_refl in *. cbn [andb] in *.
    apply Z.leb_gt in H2. apply Z.leb_le. lia.
Qed.

Lemma thread_before_listed (a b : thread_row) :
  thread_before a b = true <-> listed_before a b.
Proof.
  unfold thread_before, listed_before.
  rewrite orb_true_iff, andb_true_iff, Z.ltb_lt, Z.eqb_eq, Z.leb_le.
  reflexivity.
Qed.

Lemma thread_before_trans (a b c : thread_row) :
  thread_before a b = true -> thread_before b c = true ->
  thread_before a c = true.
Proof.
  rewrite !thread_before_listed. unfold listed_before. lia.
Qed.

Lemma limit_offset_sorted {A} (R : A -> A -> Prop) (limit offset : Z)
    (l : list A) :
  StronglySorted R l -> StronglySorted R (limit_offset limit offset l).
Proof.
  intros H. unfold limit_offset.
  destruct (Z.of_nat (List.length l) <=? offset); destruct (limit <? 0);
    try constructor; try apply StronglySorted_firstn;
    try apply StronglySorted_skipn; try constructor; exact H.
Qed.

Lemma limit_offset_length {A} (limit offset : Z) (l : list A) :
  0 <= limit -> (List.length (limit_offset limit offset l) <= Z.to_nat limit)%nat.
Proof.
  intros H. unfold limit_offset.
  destruct (limit <? 0) eqn:E; [apply Z.ltb_lt in E; lia|].
  apply firstn_le_length.
Qed.

(** X9: the threads of an [index] page come latest activity first and,
    at equal activity, higher id first; there are at most 20 of them, each
    one is a thread of the selected listing joined with its own category,
    and [total_pages] counts that listing. *)
Theorem index_lists_by_activity (args : dict) (d : db) (p : index_page) :
  index args d = Ok (IndexPage p, d) ->
  StronglySorted listed_before (ip_threads p)
  /\ (List.length (ip_threads p) <= 20)%nat
  /\ (forall row, In row (ip_threads p) ->
        In (fst row) (listed_threads (ip_cat p) d)
        /\ snd row = find_category (category_id (fst row)) d)
  /\ ip_total_pages p
     = total_pages_of
         (Z.of_nat (List.length (listed_threads (ip_cat p) d))) 20.
Proof.
  rewrite index_explicit.
  destruct (fits_int64 ((page_of args - 1) * 20)); [|discriminate].
  intros [= <-]. cbn [ip_threads ip_cat ip_total_pages].
  split; [|split; [|split; [|reflexivity]]].
  - apply limit_offset_sorted.
    apply (StronglySorted_impl (fun a b => thread_before a b = true)).
    + intros a b. apply thread_before_listed.
    + apply order_by_sorted;
        [apply thread_before_total | apply thread_before_trans].
  - apply (limit_offset_length 20). lia.
  - intros row Hin. apply limit_offset_sub in Hin.
    apply (Permutation_in _ (order_by_perm _ _)) in Hin.
    apply in_map_iff in Hin as (t & <- & Ht). now split.
Qed.

Lemma index_lists_by_activity_witness :
  exists p,
    index [] (apply_ops initial_db
                [CreateThreadOp [("title"%string, lit "one");
                                 ("content"%string, lit "a")] 100;
                 CreateThreadOp [("title"%string, lit "two");
                                 ("content"%string, lit "b")] 200;
                 ReplyOp 1 [("content"%string, lit "c")] 300])
    = Ok (IndexPage p,
          apply_ops initial_db
            [CreateThreadOp [("title"%string, lit "one");
                             ("content"%string, lit "a")] 100;
             CreateThreadOp [("title"%string, lit "two");
                             ("content"%string, lit "b")] 200;
             ReplyOp 1 [("content"%string, lit "c")] 300])
    /\ map (fun row => thread_id (fst row)) (ip_threads p) = [1; 2]
    /\ StronglySorted listed_before (ip_threads p).
Proof.
  match goal with
  | |- exists p, index [] ?d0 = _ /\ _ =>
      pose proof (index_explicit [] d0) as E
  end.
  change (fits_int64 ((page_of [] - 1) * 20)) with true in E.
  cbv iota in E.
  eexists. split; [exact E|]. split; [vm_compute; reflexivity|].
  exact (proj1 (index_lists_by_activity _ _ _ E)).
Defined.

(** ** Pages *)

Lemma limit_offset_nat {A} (limit offset : Z) (l : list A) :
  0 <= limit -> 0 <= offset ->
  limit_offset limit offset l
  = firstn (Z.to_nat limit) (skipn (Z.to_nat offset) l).
Proof.
  intros Hl Ho. unfold limit_offset.
  destruct (limit <? 0) eqn:E; [apply Z.ltb_lt in E; lia|].
  destruct (Z.of_nat (List.length l) <=? offset) eqn:E2; [|reflexivity].
  apply Z.leb_le in E2. rewrite skipn_all2 by lia. now rewrite firstn_nil.
Qed.

Lemma chunks_concat {A} (k n : nat) (l : list A) :
  (List.length l <= n * k)%nat ->
  List.concat (map (fun i => firstn k (skipn (i * k) l)) (seq 0 n)) = l.
Proof.
  revert l. induction n as [|n IH]; intros l Hl.
  - destruct l; [reflexivity | simpl in Hl; lia].
  - cbn [seq map List.concat]. rewrite <- seq_shift, map_map.
    rewrite (map_ext _ (fun i => firstn k (skipn (i * k) (skipn k l)))).
    + rewrite IH; [apply firstn_skipn|]. rewrite length_skipn. lia.
    + intros i. rewrite skipn_skipn. do 2 f_equal. lia.
Qed.

(** X10: reading the pages [1 .. total_pages] of a listing one after the
    other gives every row of the listing once, in order; this is the
    arithmetic of [index] (20 a page) and of [thread_view] (50 a page). *)
Theorem pages_partition_listing {A} (per_page : Z) (l : list A) :
  0 < per_page ->
  List.concat (map (fun page => limit_offset per_page ((page - 1) * per_page) l)
              (page_numbers (total_pages_of (Z.of_nat (List.length l))
                                            per_page)))
  = l.
Proof.
  intros Hp. unfold page_numbers.
  destruct (total_pages_of_ceiling (Z.of_nat (List.length l)) per_page Hp)
    as (H1 & H2 & _); [lia|].
  set (n := Z.to_nat (total_pages_of (Z.of_nat (List.length l)) per_page)) in *.
  rewrite <- seq_shift, !map_map.
  rewrite (map_ext _ (fun i => firstn (Z.to_nat per_page)
                                 (skipn (i * Z.to_nat per_page) l))).
  - apply chunks_concat. subst n. nia.
  - intros i. rewrite limit_offset_nat by nia. f_equal. f_equal. nia.
Qed.

Lemma pages_partition_listing_witness :
  List.concat (map (fun page => limit_offset 2 ((page - 1) * 2) [10; 20; 30; 40; 50])
              (page_numbers (total_pages_of 5 2)))
  = [10; 20; 30; 40; 50].
Proof.
  exact (pages_partition_listing 2 [10; 20; 30; 40; 50] eq_refl).
Defined.

(** ** The category filter of [index] *)

(** X11: when the [cat] argument is the slug of a category, the page
    names that category and lists only threads whose [category_id] is that
    category's id. *)
Theorem index_filters_by_category
    (args : dict) (d : db) (k : category) (p : index_page) :
  selected_category args d = Some k ->
  index args d = Ok (IndexPage p, d) ->
  dict_get "cat" args = Some (cat_slug k)
  /\ In k (categories d)
  /\ ip_cat p = Some k
  /\ forall row, In row (ip_threads p) ->
       category_id (fst row) = Some (cat_id k).
Proof.
  intros Hk. rewrite index_explicit, Hk.
  destruct (fits_int64 ((page_of args - 1) * 20)); [|discriminate].
  intros [= <-]. cbn [ip_cat ip_threads].
  unfold selected_category in Hk.
  destruct (dict_get "cat" args) as [[|c s]|]; try discriminate.
  apply find_some in Hk as [Hin Hslug]. apply str_eqb_eq in Hslug.
  split; [now rewrite Hslug|]. split; [exact Hin|]. split; [reflexivity|].
  intros row Hrow. apply limit_offset_sub in Hrow.
  apply (Permutation_in _ (order_by_perm _ _)) in Hrow.
  apply in_map_iff in Hrow as (t & <- & Ht). cbn [fst join_category].
  unfold listed_threads in Ht. apply filter_In in Ht as [_ Ht].
  destruct (category_id t) as [i|]; [|discriminate].
  apply Z.eqb_eq in Ht. now subst.
Qed.

Lemma index_filters_by_category_witness :
  exists p,
    index [("cat"%string, lit "learning")]
      (apply_ops initial_db
         [CreateThreadOp [("title"%string, lit "one");
                          ("content"%string, lit "a")] 100;
          CreateThreadOp [("title"%string, lit "two");
                          ("content"%string, lit "b");
                          ("category_id"%string, lit "2")] 200])
    = Ok (IndexPage p,
          apply_ops initial_db
            [CreateThreadOp [("title"%string, lit "one");
                             ("content"%string, lit "a")] 100;
             CreateThreadOp [("title"%string, lit "two");
                             ("content"%string, lit "b");
                             ("category_id"%string, lit "2")] 200])
    /\ map (fun row => thread_id (fst row)) (ip_threads p) = [2]
    /\ forall row, In row (ip_threads p) -> category_id (fst row) = Some 2.
Proof.
  match goal with
  | |- exists p, index ?a ?d0 = _ /\ _ =>
      pose proof (index_explicit a d0) as E;
      assert (K : selected_category a d0
                  = Some (mkCategory 2 (lit "learning") (lit "Learning")))
        by (vm_compute; reflexivity)
  end.
  change (fits_int64 _) with true in E. cbv iota in E.
  eexists. split; [exact E|]. split; [vm_compute; reflexivity|].
  exact (proj2 (proj2 (proj2 (index_filters_by_category _ _ _ _ K E)))).
Defined.

Lemma find_slug_none (slug : str) (cs : list category) :
  (forall k, In k cs -> cat_slug k <> slug) ->
  find (fun k => str_eqb (cat_slug k) slug) cs = None.
Proof.
  induction cs as [|c cs IH]; intros H; [reflexivity|]. simpl.
  destruct (str_eqb (cat_slug c) slug) eqn:E.
  - apply str_eqb_eq in E. exfalso. eapply H; [now left | exact E].
  - apply IH. intros k Hk. apply H. now right.
Qed.

(** X12: a [cat] argument that is the slug of no category is ignored:
    the request is answered exactly like one with an empty [cat], by the
    unfiltered listing, not by an error or an empty page. *)
Theorem index_ignores_unknown_category
    (slug : str) (args : dict) (d : db) :
  (forall k, In k (categories d) -> cat_slug k <> slug) ->
  selected_category (("cat"%string, slug) :: args) d = None
  /\ index (("cat"%string, slug) :: args) d
     = index (("cat"%string, []) :: args) d.
Proof.
  intros H.
  assert (E : selected_category (("cat"%string, slug) :: args) d = None).
  { unfold selected_category. cbn [dict_get String.eqb Ascii.eqb Bool.eqb].
    destruct slug as [|c s]; [reflexivity|]. now apply find_slug_none. }
  split; [exact E|]. rewrite !index_explicit, E. reflexivity.
Qed.

Lemma index_ignores_unknown_category_witness :
  index [("cat"%string, lit "nowhere")] initial_db
  = index [("cat"%string, [])] initial_db.
Proof.
  assert (H : forall k, In k (categories initial_db) ->
                        cat_slug k <> lit "nowhere").
  { intros k Hk Heq.
    assert (E : existsb (fun c => str_eqb (cat_slug c) (lit "nowhere"))
                        (categories initial_db) = false)
      by (vm_compute; reflexivity).
    assert (E' : existsb (fun c => str_eqb (cat_slug c) (lit "nowhere"))
                         (categories initial_db) = true).
    { apply existsb_exists. exists k. split; [exact Hk|].
      now apply str_eqb_eq. }
    rewrite E in E'. discriminate E'. }
  exact (proj2 (index_ignores_unknown_category (lit "nowhere") []
                  initial_db H)).
Defined.

(** ** [thread_view] *)

Lemma thread_view_explicit (tid : Z) (args : dict) (d : db) :
  thread_view tid args d
  = if fits_int64 tid then
      match find (fun t => thread_id t =? tid) (threads d) with
      | None => Abort 404 ""
      | Some t =>
          if fits_int64 ((page_of args - 1) * 50)
          then Ok (ThreadPage
                     (mkThreadPage (join_category d t)
                        (page_posts tid args d)
                        (page_comments_map tid args d)
                        (page_of args)
                        (total_pages_of
                           (Z.of_nat (List.length (posts_of tid d))) 50)),
                   d)
          else Raise OverflowError
      end
    else Raise OverflowError.
Proof.
  unfold thread_view, page_comments_map, page_comments, page_posts, posts_of.
  unfold bind, bind_params, query, ret, abort. cbn [forallb].
  destruct (fits_int64 tid); cbn [andb]; [|reflexivity].
  destruct (find (fun t => thread_id t =? tid) (threads d)) as [t|];
    cbn [option_map]; [|reflexivity].
  change (fits_int64 50) with true. cbn [andb].
  destruct (fits_int64 ((page_of args - 1) * 50)); cbn [andb];
    [|reflexivity].
  cbv zeta.
  destruct (Z.of_nat (List.length (map post_id _)) =? 0); reflexivity.
Qed.

Lemma StronglySorted_filter {A} (R : A -> A -> Prop) (f : A -> bool)
    (l : list A) :
  StronglySorted R l -> StronglySorted R (filter f l).
Proof.
  induction 1 as [|x l Hs IH Hx]; simpl; [constructor|].
  destruct (f x); [|exact IH]. constructor; [exact IH|].
  apply Forall_forall. intros y Hy. apply filter_In in Hy as [Hy _].
  rewrite Forall_forall in Hx. now apply Hx.
Qed.

Lemma leb_order_sorted {A} (key : A -> Z) (l : list A) :
  StronglySorted (fun a b => key a <= key b)
                 (order_by (fun a b => key a <=? key b) l).
Proof.
  apply (StronglySorted_impl (fun a b => (key a <=? key b) = true)).
  - intros a b. apply Z.leb_le.
  - apply order_by_sorted.
    + intros a b H. apply Z.leb_gt in H. apply Z.leb_le. lia.
    + intros a b c H1 H2. apply Z.leb_le in H1, H2. apply Z.leb_le. lia.
Qed.

(** X13: a [thread_view] page shows the thread with its own category and
    at most 50 of its posts, all belonging to it, by ascending id;
    [total_pages] counts the posts of the thread. *)
Theorem thread_view_lists_posts
    (tid : Z) (args : dict) (d : db) (p : thread_page) :
  thread_view tid args d = Ok (ThreadPage p, d) ->
  In (fst (tp_thread p)) (threads d)
  /\ thread_id (fst (tp_thread p)) = tid
  /\ snd (tp_thread p) = find_category (category_id (fst (tp_thread p))) d
  /\ StronglySorted (fun a b => post_id a <= post_id b) (tp_posts p)
  /\ (List.length (tp_posts p) <= 50)%nat
  /\ (forall q, In q (tp_posts p) -> In q (posts d) /\ post_thread_id q = tid)
  /\ tp_total_pages p
     = total_pages_of (Z.of_nat (List.length (posts_of tid d))) 50.
Proof.
  rewrite thread_view_explicit.
  destruct (fits_int64 tid); [|discriminate].
  destruct (find (fun t => thread_id t =? tid) (threads d)) as [t|] eqn:Ht;
    [|discriminate].
  destruct (fits_int64 ((page_of args - 1) * 50)); [|discriminate].
  intros [= <-]. cbn [tp_thread tp_posts tp_total_pages fst snd join_category].
  apply find_some in Ht as [Hin Hid]. apply Z.eqb_eq in Hid.
  repeat split; try assumption.
  - apply limit_offset_sorted. apply (leb_order_sorted post_id).
  - apply (limit_offset_length 50). lia.
  - unfold page_posts in H. apply limit_offset_sub in H.
    apply (Permutation_in _ (order_by_perm _ _)) in H.
    now apply posts_of_In in H.
  - unfold page_posts in H. apply limit_offset_sub in H.
    apply (Permutation_in _ (order_by_perm _ _)) in H.
    now apply posts_of_In in H.
Qed.

(** ** Grouping the comments of a page *)

Lemma group_comment_keys (c : comment_row) (m : list (Z * list comment_row)) :
  map fst (group_comment c m)
  = if existsb (fun k => k =? comment_post_id c) (map fst m)
    then map fst m
    else map fst m ++ [comment_post_id c].
Proof.
  induction m as [|[k cs] m IH]; [reflexivity|]. simpl.
  destruct (k =? comment_post_id c); simpl; [reflexivity|].
  rewrite IH. now destruct (existsb _ (map fst m)).
Qed.

Lemma group_comment_entries (c : comment_row) (m : list (Z * list comment_row))
    (k : Z) (cs : list comment_row) :
  NoDup (map fst m) ->
  In (k, cs) (group_comment c m) ->
  (k <> comment_post_id c /\ In (k, cs) m)
  \/ (k = comment_post_id c
      /\ exists cs0, cs = cs0 ++ [c]
                     /\ (In (k, cs0) m \/ (cs0 = [] /\ ~ In k (map fst m)))).
Proof.
  induction m as [|[k0 cs0] m IH]; intros Hnd Hin.
  - destruct Hin as [[= <- <-]|[]]. right. split; [reflexivity|].
    exists []. split; [reflexivity|]. right. split; [reflexivity | intros []].
  - simpl in Hin, Hnd. inversion Hnd as [|? ? Hk0 Hnd']; subst.
    destruct (k0 =? comment_post_id c) eqn:E.
    + apply Z.eqb_eq in E. destruct Hin as [[= <- <-]|Hin].
      * right. split; [exact E|]. exists cs0. split; [reflexivity|].
        left. now left.
      * left. split; [|now right]. intros Hk. apply Hk0. rewrite E, <- Hk.
        change k with (fst (k, cs)). now apply in_map.
    + apply Z.eqb_neq in E. destruct Hin as [[= <- <-]|Hin].
      * left. split; [exact E | now left].
      * destruct (IH Hnd' Hin) as [[Hne Hm]|(-> & cs1 & -> & [Hm|[-> Hm]])].
        -- left. split; [exact Hne | now right].
        -- right. split; [reflexivity|]. exists cs1. split; [reflexivity|].
           left. now right.
        -- right. split; [reflexivity|]. exists []. split; [reflexivity|].
           right. split; [reflexivity|]. simpl. intros [Hk|Hk]; auto.
Qed.

Lemma existsb_key (k : Z) (keys : list Z) :
  existsb (fun x => x =? k) keys = true <-> In k keys.
Proof.
  rewrite existsb_exists. split.
  - intros (x & Hx & E). apply Z.eqb_eq in E. now subst.
  - intros H. exists k. split; [exact H | apply Z.eqb_refl].
Qed.

Lemma group_comment_spec (c : comment_row) (m : list (Z * list comment_row))
    (l : list comment_row) :
  NoDup (map fst m) ->
  (forall k cs, In (k, cs) m ->
     cs <> [] /\ cs = filter (fun x => comment_post_id x =? k) l) ->
  (forall x, In x l -> In (comment_post_id x) (map fst m)) ->
  NoDup (map fst (group_comment c m))
  /\ (forall k cs, In (k, cs) (group_comment c m) ->
        cs <> [] /\ cs = filter (fun x => comment_post_id x =? k) (l ++ [c]))
  /\ (forall x, In x (l ++ [c]) ->
        In (comment_post_id x) (map fst (group_comment c m))).
Proof.
  intros Hnd Hm Hl. rewrite group_comment_keys.
  destruct (existsb (fun k => k =? comment_post_id c) (map fst m)) eqn:E.
  - apply existsb_key in E. split; [exact Hnd|]. split.
    + intros k cs Hin. rewrite filter_app. simpl.
      destruct (group_comment_entries c m k cs Hnd Hin)
        as [[Hne Hk]|(-> & cs0 & -> & [Hk|[-> Hk]])].
      * apply not_eq_sym, Z.eqb_neq in Hne. rewrite Hne, app_nil_r.
        now apply Hm.
      * rewrite Z.eqb_refl. split; [now destruct cs0|].
        f_equal. now apply Hm.
      * contradiction.
    + intros x Hx. apply in_app_or in Hx as [Hx|[<-|[]]]; auto.
  - assert (Hnew : ~ In (comment_post_id c) (map fst m)).
    { intros H. apply existsb_key in H. rewrite H in E. discriminate. }
    split; [now apply NoDup_snoc|]. split.
    + intros k cs Hin. rewrite filter_app. simpl.
      destruct (group_comment_entries c m k cs Hnd Hin)
        as [[Hne Hk]|(-> & cs0 & -> & [Hk|[-> Hk]])].
      * apply not_eq_sym, Z.eqb_neq in Hne. rewrite Hne, app_nil_r.
        now apply Hm.
      * exfalso. apply Hnew. change (comment_post_id c)
          with (fst (comment_post_id c, cs0)). now apply in_map.
      * rewrite Z.eqb_refl. split; [discriminate|].
        assert (Hf : filter (fun x => comment_post_id x =? comment_post_id c) l
                     = []).
        { destruct (filter _ l) as [|y r] eqn:F; [reflexivity|].
          exfalso. assert (Hy : In y (filter
                     (fun x => comment_post_id x =? comment_post_id c) l))
            by (rewrite F; now left).
          apply filter_In in Hy as [Hy Hc]. apply Z.eqb_eq in Hc.
          apply Hnew. rewrite <- Hc. now apply Hl. }
        now rewrite Hf.
    + intros x Hx. apply in_or_app.
      apply in_app_or in Hx as [Hx|[<-|[]]]; [left; now apply Hl|].
      right. now left.
Qed.

Lemma comments_map_of_spec (l : list comment_row) :
  NoDup (map fst (comments_map_of l))
  /\ (forall k cs, In (k, cs) (comments_map_of l) ->
        cs <> [] /\ cs = filter (fun x => comment_post_id x =? k) l)
  /\ (forall x, In x l -> In (comment_post_id x) (map fst (comments_map_of l))).
Proof.
  unfold comments_map_of.
  assert (G : forall rest m done,
             NoDup (map fst m) ->
             (forall k cs, In (k, cs) m ->
                cs <> [] /\ cs = filter (fun x => comment_post_id x =? k) done) ->
             (forall x, In x done -> In (comment_post_id x) (map fst m)) ->
             let r := fold_left (fun m c => group_comment c m) rest m in
             NoDup (map fst r)
             /\ (forall k cs, In (k, cs) r ->
                   cs <> []
                   /\ cs = filter (fun x => comment_post_id x =? k)
                                  (done ++ rest))
             /\ (forall x, In x (done ++ rest) ->
                   In (comment_post_id x) (map fst r))).
  { induction rest as [|c rest IH]; intros m done H1 H2 H3; cbv zeta.
    - rewrite app_nil_r. auto.
    - simpl. destruct (group_comment_spec c m done H1 H2 H3) as (K1 & K2 & K3).
      specialize (IH _ _ K1 K2 K3). cbv zeta in IH.
      now rewrite <- app_assoc in IH. }
  apply (G l [] []); [constructor | intros k cs [] | intros x []].
Qed.

Lemma thread_view_lists_posts_witness :
  exists p,
    thread_view 1 []
      (apply_ops initial_db
         [CreateThreadOp [("title"%string, lit "one");
                          ("content"%string, lit "a")] 100;
          CreateThreadOp [("title"%string, lit "two");
                          ("content"%string, lit "b")] 200;
          ReplyOp 1 [("content"%string, lit "c")] 300])
    = Ok (ThreadPage p,
          apply_ops initial_db
            [CreateThreadOp [("title"%string, lit "one");
                             ("content"%string, lit "a")] 100;
             CreateThreadOp [("title"%string, lit "two");
                             ("content"%string, lit "b")] 200;
             ReplyOp 1 [("content"%string, lit "c")] 300])
    /\ map post_id (tp_posts p) = [1; 3]
    /\ thread_id (fst (tp_thread p)) = 1.
Proof.
  eexists.
  match goal with
  | |- ?G /\ _ => assert (E : G) by (lazy; reflexivity)
  end.
  split; [exact E|]. split; [reflexivity|].
  exact (proj1 (proj2 (thread_view_lists_posts _ _ _ _ E))).
Defined.

(** X14: the [comments_map] of a [thread_view] page has one entry per
    post of the page that has comments: the keys are distinct ids of
    posts shown on the page, each entry holds exactly the comments of
    that post, by ascending id and never empty, and every comment on a
    post of the page is found under its post. *)
Theorem thread_view_groups_comments
    (tid : Z) (args : dict) (d : db) (p : thread_page) :
  thread_view tid args d = Ok (ThreadPage p, d) ->
  NoDup (map fst (tp_comments_map p))
  /\ (forall k cs, In (k, cs) (tp_comments_map p) ->
        In k (map post_id (tp_posts p))
        /\ cs <> []
        /\ StronglySorted (fun a b => comment_id a <= comment_id b) cs
        /\ (forall c, In c cs <-> In c (comments d) /\ comment_post_id c = k))
  /\ (forall c, In c (comments d) ->
        In (comment_post_id c) (map post_id (tp_posts p)) ->
        exists cs, In (comment_post_id c, cs) (tp_comments_map p) /\ In c cs).
Proof.
  rewrite thread_view_explicit.
  destruct (fits_int64 tid); [|discriminate].
  destruct (find (fun t => thread_id t =? tid) (threads d)) as [t|];
    [|discriminate].
  destruct (fits_int64 ((page_of args - 1) * 50)); [|discriminate].
  intros [= <-]. cbn [tp_posts tp_comments_map].
  unfold page_comments_map.
  destruct (Z.of_nat (List.length (map post_id (page_posts tid args d))) =? 0)
    eqn:E0.
  - apply Z.eqb_eq in E0.
    destruct (map post_id (page_posts tid args d)) as [|x r];
      [|simpl in E0; lia].
    split; [constructor|]. split; [intros k cs []|intros c _ []].
  - clear E0. set (ids := map post_id (page_posts tid args d)).
    assert (Hl : forall c, In c (page_comments tid args d)
                           <-> In c (comments d) /\ In (comment_post_id c) ids).
    { intros c. unfold page_comments. fold ids. split.
      - intros H. apply (Permutation_in _ (order_by_perm _ _)) in H.
        apply filter_In in H as [H1 H2]. split; [exact H1|].
        apply existsb_exists in H2 as (x & Hx & Ex). apply Z.eqb_eq in Ex.
        now rewrite Ex.
      - intros [H1 H2].
        apply (Permutation_in _ (Permutation_sym (order_by_perm _ _))).
        apply filter_In. split; [exact H1|]. apply existsb_exists.
        exists (comment_post_id c). split; [exact H2 | apply Z.eqb_refl]. }
    destruct (comments_map_of_spec (page_comments tid args d))
      as (K1 & K2 & K3).
    split; [exact K1|]. split.
    + intros k cs Hin. destruct (K2 k cs Hin) as [Hne Hcs].
      assert (Hk : In k ids).
      { destruct cs as [|c cs']; [congruence|].
        assert (Hc : In c (filter (fun x => comment_post_id x =? k)
                                  (page_comments tid args d)))
          by (rewrite <- Hcs; now left).
        apply filter_In in Hc as [Hc Ek]. apply Z.eqb_eq in Ek.
        apply Hl in Hc as [_ Hc]. now rewrite <- Ek. }
      split; [exact Hk|]. split; [exact Hne|]. split.
      * rewrite Hcs. apply StronglySorted_filter.
        apply (leb_order_sorted comment_id).
      * intros c. rewrite Hcs, filter_In, Z.eqb_eq, Hl. split.
        -- intros [[H1 _] H2]. now split.
        -- intros [H1 H2]. split; [|exact H2]. split; [exact H1|].
           now rewrite H2.
    + intros c Hc Hid.
      assert (Hpc : In c (page_comments tid args d)) by (apply Hl; now split).
      specialize (K3 c Hpc). apply in_map_iff in K3 as ([k cs] & Ek & Hin).
      simpl in Ek. subst k. exists cs. split; [exact Hin|].
      destruct (K2 _ _ Hin) as [_ ->]. apply filter_In.
      split; [exact Hpc | apply Z.eqb_refl].
Qed.

Lemma thread_view_groups_comments_witness :
  exists p,
    thread_view 1 []
      (apply_ops initial_db
         [CreateThreadOp [("title"%string, lit "one");
                          ("content"%string, lit "a")] 100;
          ReplyOp 1 [("content"%string, lit "b")] 200;
          CommentOp 2 [("content"%string, lit "x")] 300;
          CommentOp 1 [("content"%string, lit "y")] 400;
          CommentOp 2 [("content"%string, lit "z")] 500])
    = Ok (ThreadPage p,
          apply_ops initial_db
            [CreateThreadOp [("title"%string, lit "one");
                             ("content"%string, lit "a")] 100;
             ReplyOp 1 [("content"%string, lit "b")] 200;
             CommentOp 2 [("content"%string, lit "x")] 300;
             CommentOp 1 [("content"%string, lit "y")] 400;
             CommentOp 2 [("content"%string, lit "z")] 500])
    /\ map (fun e => (fst e, map comment_id (snd e))) (tp_comments_map p)
       = [(2, [1; 3]); (1, [2])]
    /\ NoDup (map fst (tp_comments_map p)).
Proof.
  eexists.
  match goal with
  | |- ?G /\ _ => assert (E : G) by (lazy; reflexivity)
  end.
  split; [exact E|]. split; [reflexivity|].
  exact (proj1 (thread_view_groups_comments _ _ _ _ E)).
Defined.

(** X15: [thread_view] of an id that fits 64 bits and that no thread has
    ends in a 404 whatever the [page] argument is, also one whose offset
    would not fit: the thread is looked up before the page is used. *)
Theorem thread_view_missing_thread (tid : Z) (args : dict) (d : db) :
  fits_int64 tid = true ->
  existsb (fun t => thread_id t =? tid) (threads d) = false ->
  thread_view tid args d = Abort 404 "".
Proof.
  intros Hf Hno. rewrite thread_view_explicit, Hf.
  destruct (find (fun t => thread_id t =? tid) (threads d)) as [t|] eqn:Ht;
    [|reflexivity].
  apply find_some in Ht as [Hin Hid].
  assert (existsb (fun t => thread_id t =? tid) (threads d) = true)
    by (apply existsb_exists; now exists t).
  congruence.
Qed.

Lemma thread_view_missing_thread_witness :
  thread_view 7 [("page"%string, lit "184467440737095518")] initial_db
  = Abort 404 "".
Proof. apply thread_view_missing_thread; reflexivity. Defined.

(** ** From [create_thread] to [thread_view] *)

Lemma find_none_notin {A} (f : A -> bool) (l : list A) :
  (forall x, In x l -> f x = false) -> find f l = None.
Proof.
  induction l as [|y l IH]; intros H; [reflexivity|]. simpl.
  rewrite (H y (or_introl eq_refl)). apply IH. intros x Hx. apply H. now right.
Qed.

Lemma find_snoc_fresh {A} (f : A -> bool) (l : list A) (x : A) :
  (forall y, In y l -> f y = false) -> f x = true ->
  find f (l ++ [x]) = Some x.
Proof.
  induction l as [|y l IH]; intros H Hx; simpl; [now rewrite Hx|].
  rewrite (H y (or_introl eq_refl)). apply IH; [|exact Hx].
  intros z Hz. apply H. now right.
Qed.

Lemma filter_none {A} (f : A -> bool) (l : list A) :
  (forall x, In x l -> f x = false) -> filter f l = [].
Proof.
  induction l as [|y l IH]; intros H; [reflexivity|]. simpl.
  rewrite (H y (or_introl eq_refl)). apply IH. intros x Hx. apply H. now right.
Qed.

(** X16: the page a successful [create_thread] redirects to shows what
    was stored: the clamped title, a post count of 1, the first post with
    the clamped author and content as its only post, no comments, and
    page 1 of 1. *)
Theorem created_thread_is_shown
    (form : dict) (ts : Z) (d d' : db) (tid : Z) (anchor : option Z) :
  store_ok d ->
  create_thread form ts d = Ok (Redirect tid anchor, d') ->
  fits_int64 tid = true ->
  exists p,
    thread_view tid [] d' = Ok (ThreadPage p, d')
    /\ thread_id (fst (tp_thread p)) = tid
    /\ thread_title (fst (tp_thread p)) = clamp_text (field "title" form) 140
    /\ posts_count (fst (tp_thread p)) = 1
    /\ map post_author (tp_posts p) = [clamp_text (author_field form) 32]
    /\ map post_content (tp_posts p) = [clamp_text (field "content" form) 5000]
    /\ map post_created_at (tp_posts p) = [ts]
    /\ tp_comments_map p = []
    /\ tp_page p = 1
    /\ tp_total_pages p = 1.
Proof.
  intros (N1 & N2 & Hp & Hc) H Hfit.
  apply create_thread_rows in H
    as (cat & _ & _ & _ & _ & Hr & _ & Ht & Hps & Hcs).
  cbv zeta in *. injection Hr as -> ->.
  set (tid := next_rowid (seq_threads d) (map thread_id (threads d))) in *.
  set (pid := next_rowid (seq_posts d) (map post_id (posts d))) in *.
  assert (Hfresh : forall t, In t (threads d) -> (thread_id t =? tid) = false).
  { intros t Hin. apply Z.eqb_neq. intros E.
    apply (next_rowid_fresh (seq_threads d) (map thread_id (threads d))).
    fold tid. rewrite <- E. now apply in_map. }
  assert (Hposts : posts_of tid d'
                   = [mkPost pid tid (clamp_text (author_field form) 32)
                             (clamp_text (field "content" form) 5000) ts]).
  { unfold posts_of. rewrite Hps, filter_app. rewrite filter_none.
    - simpl. now rewrite Z.eqb_refl.
    - intros q Hq. apply Z.eqb_neq. intros E. specialize (Hp q Hq).
      rewrite E in Hp.
      now apply (next_rowid_fresh (seq_threads d) (map thread_id (threads d))). }
  assert (Hpage : page_posts tid [] d'
                  = [mkPost pid tid (clamp_text (author_field form) 32)
                            (clamp_text (field "content" form) 5000) ts]).
  { unfold page_posts. rewrite Hposts. reflexivity. }
  assert (Hcm : page_comments_map tid [] d' = []).
  { unfold page_comments_map, page_comments. rewrite Hpage.
    cbn [map post_id List.length]. change (Z.of_nat 1 =? 0) with false.
    cbv iota. rewrite Hcs, filter_none; [reflexivity|].
    intros c Hin. cbn [existsb]. rewrite orb_false_r. apply Z.eqb_neq.
    intros E. specialize (Hc c Hin). rewrite E in Hc.
    now apply (next_rowid_fresh (seq_posts d) (map post_id (posts d))). }
  rewrite thread_view_explicit, Hfit, Ht.
  rewrite (find_snoc_fresh _ _ _ Hfresh) by (cbn [thread_id]; apply Z.eqb_refl).
  change (fits_int64 ((page_of [] - 1) * 50)) with true. cbv iota.
  eexists. split; [reflexivity|].
  cbn [tp_thread tp_posts tp_comments_map tp_page tp_total_pages
       join_category fst thread_id thread_title posts_count].
  rewrite Hposts, Hpage, Hcm. repeat split.
Qed.

Lemma created_thread_is_shown_witness :
  exists p,
    thread_view 1 []
      (apply_ops initial_db
         [CreateThreadOp [("title"%string, lit " Hello ");
                          ("content"%string, lit "first")] 100])
    = Ok (ThreadPage p,
          apply_ops initial_db
            [CreateThreadOp [("title"%string, lit " Hello ");
                             ("content"%string, lit "first")] 100])
    /\ thread_title (fst (tp_thread p)) = lit "Hello"
    /\ map post_content (tp_posts p) = [lit "first"].
Proof.
  assert (Hs : store_ok initial_db).
  { unfold store_ok. vm_compute. repeat split; try constructor;
      intros ? []. }
  assert (Hc : create_thread [("title"%string, lit " Hello ");
                              ("content"%string, lit "first")] 100 initial_db
               = Ok (Redirect 1 None,
                     apply_ops initial_db
                       [CreateThreadOp [("title"%string, lit " Hello ");
                                        ("content"%string, lit "first")] 100]))
    by (vm_compute; reflexivity).
  destruct (created_thread_is_shown _ _ _ _ _ _ Hs Hc eq_refl)
    as (p & H1 & _ & H2 & _ & _ & H3 & _).
  exists p. split; [exact H1|]. split; [exact H2 | exact H3].
Defined.

(** ** What [init_db] does to the rows it finds *)

Lemma create_index_rows (n : string) (d : db) :
  stored_threads (create_index n d) = stored_threads d
  /\ stored_posts (create_index n d) = stored_posts d
  /\ stored_comments (create_index n d) = stored_comments d
  /\ (forall t, stored_category (create_index n d) t = stored_category d t).
Proof.
  unfold create_index. now destruct (has_index n (db_schema d)).
Qed.

Lemma create_categories_rows (d : db) :
  stored_threads (create_categories d) = stored_threads d
  /\ stored_posts (create_categories d) = stored_posts d
  /\ stored_comments (create_categories d) = stored_comments d
  /\ (forall t, stored_category (create_categories d) t = stored_category d t).
Proof.
  unfold create_categories. now destruct (has_categories (db_schema d)).
Qed.

Lemma create_threads_rows (d : db) :
  stored_threads (create_threads d) = stored_threads d
  /\ stored_posts (create_threads d) = stored_posts d
  /\ stored_comments (create_threads d) = stored_comments d
  /\ (forall t, stored_category (create_threads d) t = stored_category d t).
Proof.
  unfold create_threads, stored_threads, stored_category.
  destruct (has_threads (db_schema d)) eqn:E; cbn; rewrite ?E; repeat split.
Qed.

Lemma create_posts_rows (d : db) :
  stored_threads (create_posts d) = stored_threads d
  /\ stored_posts (create_posts d) = stored_posts d
  /\ stored_comments (create_posts d) = stored_comments d
  /\ (forall t, stored_category (create_posts d) t = stored_category d t).
Proof.
  unfold create_posts, stored_posts.
  destruct (has_posts (db_schema d)) eqn:E; cbn; rewrite ?E; repeat split.
Qed.

Lemma create_comments_rows (d : db) :
  stored_threads (create_comments d) = stored_threads d
  /\ stored_posts (create_comments d) = stored_posts d
  /\ stored_comments (create_comments d) = stored_comments d
  /\ (forall t, stored_category (create_comments d) t = stored_category d t).
Proof.
  unfold create_comments, stored_comments.
  destruct (has_comments (db_schema d)) eqn:E; cbn; rewrite ?E; repeat split.
Qed.

Lemma create_schema_rows (d : db) :
  stored_threads (create_schema d) = stored_threads d
  /\ stored_posts (create_schema d) = stored_posts d
  /\ stored_comments (create_schema d) = stored_comments d
  /\ (forall t, stored_category (create_schema d) t = stored_category d t).
Proof.
  unfold create_schema.
  repeat split; intros;
    repeat first
      [ rewrite (proj1 (create_index_rows _ _))
      | rewrite (proj1 (proj2 (create_index_rows _ _)))
      | rewrite (proj1 (proj2 (proj2 (create_index_rows _ _))))
      | rewrite (proj2 (proj2 (proj2 (create_index_rows _ _))))
      | rewrite (proj1 (create_comments_rows _))
      | rewrite (proj1 (proj2 (create_comments_rows _)))
      | rewrite (proj1 (proj2 (proj2 (create_comments_rows _))))
      | rewrite (proj2 (proj2 (proj2 (create_comments_rows _))))
      | rewrite (proj1 (create_posts_rows _))
      | rewrite (proj1 (proj2 (create_posts_rows _)))
      | rewrite (proj1 (proj2 (proj2 (create_posts_rows _))))
      | rewrite (proj2 (proj2 (proj2 (create_posts_rows _))))
      | rewrite (proj1 (create_threads_rows _))
      | rewrite (proj1 (proj2 (create_threads_rows _)))
      | rewrite (proj1 (proj2 (proj2 (create_threads_rows _))))
      | rewrite (proj2 (proj2 (proj2 (create_threads_rows _))))
      | rewrite (proj1 (create_categories_rows _))
      | rewrite (proj1 (proj2 (create_categories_rows _)))
      | rewrite (proj1 (proj2 (proj2 (create_categories_rows _))))
      | rewrite (proj2 (proj2 (proj2 (create_categories_rows _)))) ];
    reflexivity.
Qed.

Lemma map_with_category_ext (f g : thread -> option Z) (l : list thread) :
  (forall t, f t = g t) ->
  map (fun t => with_category (f t) t) l
  = map (fun t => with_category (g t) t) l.
Proof. intros H. apply map_ext. intros t. now rewrite H. Qed.

Lemma migrate_threads_rows (d : db) :
  has_threads (db_schema d) = true ->
  exists d',
    migrate_threads d = Ok (tt, d')
    /\ threads d'
       = map (fun t => with_category (stored_category d t) t) (threads d)
    /\ posts d' = posts d
    /\ comments d' = comments d.
Proof.
  destruct d as [[hc ht hp hm col idx] cs ts ps ms q1 q2 q3 q4].
  cbn. intros ->.
  unfold migrate_threads, bind, query, ret, threads_columns, stored_category.
  cbn. destruct col; cbn.
  - eexists. split; [reflexivity|]. cbn. repeat split.
    rewrite <- (map_id ts) at 1. apply map_ext. now intros [].
  - unfold alter_threads_add_category_id, execute. cbn.
    eexists. split; [reflexivity|].
    rewrite create_index_eq. cbn. repeat split.
Qed.

Lemma seed_categories_rows (d d' : db) :
  seed_categories d = Ok (tt, d') ->
  threads d' = threads d /\ posts d' = posts d /\ comments d' = comments d.
Proof.
  unfold seed_categories, bind, query, ret.
  destruct (categories d) as [|c cs] eqn:Hcs.
  - cbn [List.length Z.of_nat Z.eqb]. rewrite (seed_defaults d Hcs).
    cbv zeta. destruct (fits_int64 _); [|discriminate].
    intros [= <-]. destruct d as [s cs ts ps ms q1 q2 q3 q4].
    repeat split.
  - cbn [List.length]. rewrite Nat2Z.inj_succ.
    destruct (Z.succ (Z.of_nat (List.length cs)) =? 0) eqn:E;
      [apply Z.eqb_eq in E; lia|].
    intros [= <-]. repeat split.
Qed.

Lemma backfill_threads_rows (d d' : db) :
  backfill_threads d = Ok (tt, d') ->
  categories d <> [] ->
  exists default,
    lowest_category_id (categories d) = Some default
    /\ threads d' = map (coalesce_category default) (threads d)
    /\ posts d' = posts d
    /\ comments d' = comments d.
Proof.
  destruct d as [s cs ts ps ms q1 q2 q3 q4]. cbn [categories].
  intros H Hcs. destruct cs as [|c cs]; [contradiction|].
  destruct (lowest_category_id_some c cs) as [m Hm].
  unfold backfill_threads, bind, query, execute in H. cbn [categories] in H.
  rewrite Hm in H. injection H as <-. exists m. cbn. repeat split. exact Hm.
Qed.

(** X17: an [init_db] that has the rowids it needs for seeding (the
    categories table is missing, or holds rows, or four more ids are
    left) succeeds and loses no row.  Posts and comments of existing
    tables are left exactly as they are; every existing thread keeps its
    id, title, counters and times, keeps its category when it has one,
    and gets the category with the lowest id when it has none (or when
    the table predates the [category_id] column). *)
Theorem init_db_keeps_rows (d : db) :
  can_seed d = true ->
  exists d1 default,
    init_db d = Ok (tt, d1)
    /\ lowest_category_id (categories d1) = Some default
    /\ posts d1 = stored_posts d
    /\ comments d1 = stored_comments d
    /\ threads d1
       = map (fun t => with_category
                         (match stored_category d t with
                          | Some c => Some c
                          | None => Some default
                          end) t)
             (stored_threads d).
Proof.
  intros Hroom.
  pose proof (create_schema_tables d) as T. unfold tables_of in T.
  injection T as T1 T2 T3 T4.
  destruct (create_schema_rows d) as (R1 & R2 & R3 & R4).
  unfold stored_threads in R1 at 1. unfold stored_posts in R2 at 1.
  unfold stored_comments in R3 at 1. rewrite T2 in R1. rewrite T3 in R2.
  rewrite T4 in R3.
  destruct (migrate_threads_rows (create_schema d) T2)
    as (db_ & Eb & B1 & B2 & B3).
  assert (E0 : init_db_schema d = Ok (tt, db_)).
  { unfold init_db_schema.
    now rewrite (bind_Ok _ _ d (create_schema d) tt) by reflexivity. }
  destruct (init_db_schema_runs d) as (d0 & E0' & _ & _ & C0 & Q0).
  rewrite E0 in E0'. injection E0' as <-.
  rewrite (can_seed_after_schema d db_ C0 Q0) in Hroom.
  assert (Hseed : (Z.of_nat (List.length (categories db_)) =? 0) = false
                  \/ fits_int64 (Z.max (seq_categories db_) 0 + 4) = true).
  { apply orb_prop in Hroom as [H|H]; [left|now right].
    now apply negb_true_iff in H. }
  destruct (seed_categories_spec db_ Hseed) as (dc & Ec & _ & _ & C3 & _).
  destruct (seed_categories_rows _ _ Ec) as (S1 & S2 & S3).
  destruct (backfill_threads_spec dc C3) as (d1 & E1 & _ & D2 & _).
  destruct (backfill_threads_rows _ _ E1 C3) as (m & Hm & F1 & F2 & F3).
  exists d1, m. split.
  - rewrite (init_db_schema_Ok d db_ E0).
    now rewrite (bind_Ok _ _ db_ dc tt Ec).
  - split; [now rewrite D2|].
    split; [now rewrite F2, S2, B2|].
    split; [now rewrite F3, S3, B3|].
    rewrite F1, S1, B1, R1, map_map. apply map_ext. intros t.
    rewrite R4. unfold coalesce_category, with_category. cbn.
    now destruct (stored_category d t).
Qed.

Lemma init_db_keeps_rows_witness :
  exists d1,
    init_db (mkDb (mkSchema true true true true false [])
                  [mkCategory 7 (lit "misc") (lit "Misc")]
                  [mkThread 1 (lit "old") 1 50 60 (Some 3)]
                  [mkPost 1 1 (lit "anon") (lit "text") 50] [] 7 1 1 0)
    = Ok (tt, d1)
    /\ threads d1 = [mkThread 1 (lit "old") 1 50 60 (Some 7)]
    /\ posts d1 = [mkPost 1 1 (lit "anon") (lit "text") 50].
Proof.
  destruct (init_db_keeps_rows
              (mkDb (mkSchema true true true true false [])
                    [mkCategory 7 (lit "misc") (lit "Misc")]
                    [mkThread 1 (lit "old") 1 50 60 (Some 3)]
                    [mkPost 1 1 (lit "anon") (lit "text") 50] [] 7 1 1 0)
              eq_refl)
    as (d1 & m & E & Hm & Hp & _ & Ht).
  exists d1. split; [exact E|].
  assert (E' : init_db (mkDb (mkSchema true true true true false [])
                          [mkCategory 7 (lit "misc") (lit "Misc")]
                          [mkThread 1 (lit "old") 1 50 60 (Some 3)]
                          [mkPost 1 1 (lit "anon") (lit "text") 50] [] 7 1 1 0)
               = Ok (tt, d1)) by exact E.
  vm_compute in E'. injection E' as <-.
  split; reflexivity.
Defined.

(** ** [set_security_headers] *)

Lemma header_get_app (k : string) (h h' : headers) :
  header_get k (h ++ h')
  = match header_get k h with
    | Some x => Some x
    | None => header_get k h'
    end.
Proof.
  induction h as [|[k' v] h IH]; [reflexivity|]. simpl.
  now destruct (same_header k k').
Qed.

Lemma same_header_refl (k : string) : same_header k k = true.
Proof. apply String.eqb_refl. Qed.

Lemma header_setdefault_present (k v x : string) (h : headers) :
  header_get k h = Some x -> header_setdefault k v h = h.
Proof. unfold header_setdefault. now intros ->. Qed.

Lemma header_get_setdefault_same (k v : string) (h : headers) :
  header_get k (header_setdefault k v h)
  = Some (match header_get k h with Some x => x | None => v end).
Proof.
  unfold header_setdefault. destruct (header_get k h) as [x|] eqn:E.
  - exact E.
  - rewrite header_get_app, E. simpl. now rewrite same_header_refl.
Qed.

Lemma header_get_setdefault_other (k k' v : string) (h : headers) :
  same_header k k' = false ->
  header_get k (header_setdefault k' v h) = header_get k h.
Proof.
  intros Hk. unfold header_setdefault.
  destruct (header_get k' h); [reflexivity|].
  rewrite header_get_app. simpl. rewrite Hk. now destruct (header_get k h).
Qed.

Lemma header_setdefault_appends (k v : string) (h : headers) :
  exists added,
    header_setdefault k v h = h ++ added /\ incl added [(k, v)].
Proof.
  unfold header_setdefault. destruct (header_get k h).
  - exists []. split; [now rewrite app_nil_r | intros ? []].
  - exists [(k, v)]. split; [reflexivity | apply incl_refl].
Qed.

Lemma set_security_headers_get (resp : headers) (k v : string) :
  In (k, v) security_headers ->
  header_get k (set_security_headers resp)
  = Some (match header_get k resp with Some x => x | None => v end).
Proof.
  unfold security_headers, set_security_headers.
  intros [[= <- <-]|[[= <- <-]|[[= <- <-]|[[= <- <-]|[]]]]].
  - do 3 (rewrite header_get_setdefault_other by reflexivity).
    apply header_get_setdefault_same.
  - do 2 (rewrite header_get_setdefault_other by reflexivity).
    rewrite header_get_setdefault_same.
    now rewrite header_get_setdefault_other by reflexivity.
  - rewrite header_get_setdefault_other by reflexivity.
    rewrite header_get_setdefault_same.
    now do 2 (rewrite header_get_setdefault_other by reflexivity).
  - rewrite header_get_setdefault_same.
    now do 3 (rewrite header_get_setdefault_other by reflexivity).
Qed.

(** X18: [set_security_headers] only appends: the headers of the response
    stay as they are, in place, and what is added comes from the four
    security headers.  Afterwards each of the four names has a value, the
    one the response already carried (under any spelling of the name's
    case) or else the default; a second pass changes nothing. *)
Theorem set_security_headers_fills_missing (resp : headers) :
  (exists added,
     set_security_headers resp = resp ++ added
     /\ incl added security_headers)
  /\ (forall k v, In (k, v) security_headers ->
        header_get k (set_security_headers resp)
        = Some (match header_get k resp with Some x => x | None => v end))
  /\ (forall k x, header_get k resp = Some x ->
        header_get k (set_security_headers resp) = Some x)
  /\ set_security_headers (set_security_headers resp)
     = set_security_headers resp.
Proof.
  assert (P : exists added,
             set_security_headers resp = resp ++ added
             /\ incl added security_headers).
  { unfold set_security_headers.
    destruct (header_setdefault_appends "X-Content-Type-Options" "nosniff" resp)
      as (a1 & -> & I1).
    destruct (header_setdefault_appends "X-Frame-Options" "DENY" (resp ++ a1))
      as (a2 & -> & I2).
    destruct (header_setdefault_appends "Referrer-Policy" "no-referrer"
                ((resp ++ a1) ++ a2)) as (a3 & -> & I3).
    destruct (header_setdefault_appends "Content-Security-Policy"
                "default-src 'self'; img-src 'self' data:; style-src 'self'; script-src 'none'"
                (((resp ++ a1) ++ a2) ++ a3)) as (a4 & -> & I4).
    exists (a1 ++ a2 ++ a3 ++ a4). split; [now rewrite <- !app_assoc|].
    unfold security_headers. intros e He.
    apply in_app_or in He as [He|He]; [apply I1 in He|
    apply in_app_or in He as [He|He]; [apply I2 in He|
    apply in_app_or in He as [He|He]; [apply I3 in He|apply I4 in He]]];
      destruct He as [<-|[]]; simpl; auto. }
  split; [exact P|]. split; [apply set_security_headers_get|]. split.
  - intros k x Hk. destruct P as (added & -> & _).
    now rewrite header_get_app, Hk.
  - unfold set_security_headers at 1.
    rewrite (header_setdefault_present "X-Content-Type-Options" _ _ _
               (set_security_headers_get resp _ _ (or_introl eq_refl))).
    rewrite (header_setdefault_present "X-Frame-Options" _ _ _
               (set_security_headers_get resp _ _
                  (or_intror (or_introl eq_refl)))).
    rewrite (header_setdefault_present "Referrer-Policy" _ _ _
               (set_security_headers_get resp _ _
                  (or_intror (or_intror (or_introl eq_refl))))).
    apply (header_setdefault_present "Content-Security-Policy" _ _ _
             (set_security_headers_get resp _ _
                (or_intror (or_intror (or_intror (or_introl eq_refl)))))).
Qed.

Example set_security_headers_keeps_own_policy :
  set_security_headers
    [("Content-Type", "text/html"); ("x-frame-options", "SAMEORIGIN")]%string
  = [("Content-Type", "text/html"); ("x-frame-options", "SAMEORIGIN");
     ("X-Content-Type-Options", "nosniff");
     ("Referrer-Policy", "no-referrer");
     ("Content-Security-Policy",
      "default-src 'self'; img-src 'self' data:; style-src 'self'; script-src 'none'")
    ]%string.
Proof. reflexivity. Qed.

(** ** [_get_persistent_secret] *)

Example secret_file_beside_database :
  map (fun s => secret_file_of [("FORUM_DB_PATH"%string, lit s)])
      ["forum.db"; "/data/forum.db"; "//a/b"; "///a/b"; "data//x/./forum.db";
       ""; "/"; ".."; "a/b/"]%string
  = [mkPath 0 [lit "secret_key"];
     mkPath 1 [lit "data"; lit "secret_key"];
     mkPath 2 [lit "a"; lit "secret_key"];
     mkPath 1 [lit "a"; lit "secret_key"];
     mkPath 0 [lit "data"; lit "x"; lit "secret_key"];
     mkPath 0 [lit "secret_key"];
     mkPath 1 [lit "secret_key"];
     mkPath 0 [lit "secret_key"];
     mkPath 0 [lit "a"; lit "secret_key"]]
  /\ secret_file_of [] = mkPath 0 [lit "secret_key"].
Proof. split; reflexivity. Qed.

Lemma parts_eqb_eq (a b : list str) :
  Nat.eqb (List.length a) (List.length b)
  && forallb (fun ab => str_eqb (fst ab) (snd ab)) (combine a b) = true
  <-> a = b.
Proof.
  revert b. induction a as [|x a IH]; intros [|y b]; simpl;
    try (split; [discriminate | discriminate]); [now split|].
  split.
  - intros H. apply andb_prop in H as [Hl H]. apply andb_prop in H as [Hx Hf].
    apply str_eqb_eq in Hx. subst y. f_equal. apply IH. now rewrite Hl, Hf.
  - intros [= -> ->]. rewrite (proj2 (str_eqb_eq y y) eq_refl).
    cbn [andb]. now apply IH.
Qed.

Lemma path_eqb_eq (p q : Path) : path_eqb p q = true <-> p = q.
Proof.
  destruct p as [r a], q as [r' b]. unfold path_eqb. cbn [path_root path_parts].
  rewrite <- andb_assoc, andb_true_iff, Nat.eqb_eq, parts_eqb_eq. split.
  - now intros [-> ->].
  - now intros [= -> ->].
Qed.

Lemma path_eqb_refl (p : Path) : path_eqb p p = true.
Proof. now apply path_eqb_eq. Qed.

Lemma file_at_remove_other (p q : Path) (fs : files) :
  path_eqb q p = false -> file_at q (file_remove p fs) = file_at q fs.
Proof.
  intros Hq. unfold file_remove.
  induction fs as [|[r f] fs IH]; [reflexivity|]. simpl.
  destruct (path_eqb p r) eqn:E; simpl.
  - apply path_eqb_eq in E. subst r. now rewrite Hq.
  - now rewrite IH.
Qed.

Lemma file_at_put_same (p : Path) (f : file) (fs : files) :
  file_at p (file_put p f fs) = Some f.
Proof. unfold file_put. simpl. now rewrite path_eqb_refl. Qed.

Lemma file_at_put_other (p q : Path) (f : file) (fs : files) :
  path_eqb q p = false -> file_at q (file_put p f fs) = file_at q fs.
Proof.
  intros Hq. unfold file_put. simpl. rewrite Hq.
  now apply file_at_remove_other.
Qed.

Lemma write_secret_other (faults : os_faults) (p q : Path) (text : str)
    (fs : files) :
  path_eqb q p = false ->
  file_at q (write_secret faults p text fs) = file_at q fs.
Proof.
  intros Hq. unfold write_secret.
  destruct (write_raises faults) as [[partial|]|].
  - now apply file_at_put_other.
  - now apply file_at_remove_other.
  - now apply file_at_put_other.
Qed.

Lemma is_hex_char_not_space (c : char) :
  is_hex_char c = true -> py_isspace c = false.
Proof.
  unfold is_hex_char. intros H.
  assert (R : 48 <= c <= 57 \/ 97 <= c <= 102).
  { apply orb_prop in H as [H|H]; apply andb_prop in H as [H1 H2];
      apply Z.leb_le in H1, H2; lia. }
  unfold py_isspace.
  replace (c <=? 13) with false by (symmetry; apply Z.leb_gt; lia).
  replace (c <=? 32) with false by (symmetry; apply Z.leb_gt; lia).
  replace (8192 <=? c) with false by (symmetry; apply Z.leb_gt; lia).
  replace (c =? 133) with false by (symmetry; apply Z.eqb_neq; lia).
  replace (c =? 160) with false by (symmetry; apply Z.eqb_neq; lia).
  replace (c =? 5760) with false by (symmetry; apply Z.eqb_neq; lia).
  replace (c =? 8232) with false by (symmetry; apply Z.eqb_neq; lia).
  replace (c =? 8233) with false by (symmetry; apply Z.eqb_neq; lia).
  replace (c =? 8239) with false by (symmetry; apply Z.eqb_neq; lia).
  replace (c =? 8287) with false by (symmetry; apply Z.eqb_neq; lia).
  replace (c =? 12288) with false by (symmetry; apply Z.eqb_neq; lia).
  now rewrite !andb_false_r.
Qed.

Lemma strip_no_space (s : str) :
  forallb (fun c => negb (py_isspace c)) s = true -> strip s = s.
Proof.
  intros H. unfold strip, lstrip, rstrip.
  assert (L : lstrip_by py_isspace s = s).
  { destruct s as [|c t]; [reflexivity|]. simpl in *.
    apply andb_prop in H as [H _]. apply negb_true_iff in H. now rewrite H. }
  rewrite L. induction s as [|c t IH]; [reflexivity|].
  simpl in H. apply andb_prop in H as [Hc Ht]. apply negb_true_iff in Hc.
  simpl. rewrite IH.
  - destruct t; [now rewrite Hc | reflexivity].
  - exact Ht.
  - destruct t as [|c' t']; [reflexivity|]. simpl in *.
    apply andb_prop in Ht as [Ht _]. apply negb_true_iff in Ht. now rewrite Ht.
Qed.

Lemma strip_token_hex (n : nat) (s : str) :
  is_token_hex n s = true -> strip s = s.
Proof.
  unfold is_token_hex. intros H. apply andb_prop in H as [_ H].
  apply strip_no_space. rewrite forallb_forall in *. intros c Hc.
  apply negb_true_iff, is_hex_char_not_space. now apply H.
Qed.

(** X19: a key that was generated and written is the key of the next
    start.  Let the first start be able to look for the secret file, make
    the directory and write the file, and let a later start with the same
    environment reach the place the first one wrote to and be able to
    look for the file and read it.  Then the later start returns the same
    key and leaves the files as the first start left them, whatever new
    token it would draw and whatever else fails in it. *)
Theorem secret_survives_restart
    (sys sys' : os_paths) (environ : dict) (faults faults' : os_faults)
    (token token' : str) (fs : files) :
  exists_raises faults = false ->
  mkdir_raises faults = false ->
  write_raises faults = None ->
  is_token_hex 32 token = true ->
  (forall place, read_place sys (secret_file_of environ) = Some place ->
                 write_place sys (secret_file_of environ) = place) ->
  read_place sys' (secret_file_of environ)
  = Some (write_place sys (secret_file_of environ)) ->
  exists_raises faults' = false ->
  read_raises faults' = false ->
  _get_persistent_secret sys' environ faults' token'
    (snd (_get_persistent_secret sys environ faults token fs))
  = _get_persistent_secret sys environ faults token fs.
Proof.
  intros He Hm Hw Ht Hsame Hnext He' Hr'.
  unfold _get_persistent_secret, file_exists. cbv zeta.
  destruct (negb (is_empty (strip (dict_get_default "SECRET_KEY" [] environ))));
    [reflexivity|].
  rewrite He, Hm, He', Hr', Hnext.
  set (p := secret_file_of environ) in *.
  assert (G : forall fs0,
             file_at (write_place sys p) (write_secret faults (write_place sys p) token fs0)
             = Some (mkFile token
                       (if chmod_raises faults
                        then match file_at (write_place sys p) fs0 with
                             | Some f => file_mode f
                             | None => None
                             end
                        else Some 384))).
  { intros fs0. unfold write_secret. rewrite Hw. apply file_at_put_same. }
  destruct (read_place sys p) as [place|] eqn:El.
  - rewrite (Hsame place eq_refl) in *.
    destruct (file_at place fs) as [f|] eqn:Ef.
    + destruct (read_raises faults).
      * cbn [snd]. rewrite G. cbn [file_text].
        now rewrite (strip_token_hex _ _ Ht).
      * cbn [snd]. now rewrite Ef.
    + cbn [snd]. rewrite G. cbn [file_text].
      now rewrite (strip_token_hex _ _ Ht).
  - cbn [snd]. rewrite G. cbn [file_text].
    now rewrite (strip_token_hex _ _ Ht).
Qed.

Lemma secret_survives_restart_witness :
  _get_persistent_secret plain_paths
    [("FORUM_DB_PATH"%string, lit "data/forum.db")]
    (mkFaults false false true (Some None) true)
    (lit "ffffffffffffffffffffffffffffffffffffffffffffffffffffffffffffffff")
    (snd (_get_persistent_secret (paths_without (lit "data"))
            [("FORUM_DB_PATH"%string, lit "data/forum.db")] no_faults
            (lit "00112233445566778899aabbccddeeff00112233445566778899aabbccddeeff")
            []))
  = (lit "00112233445566778899aabbccddeeff00112233445566778899aabbccddeeff",
     [(mkPath 0 [lit "data"; lit "secret_key"],
       mkFile (lit "00112233445566778899aabbccddeeff00112233445566778899aabbccddeeff")
              (Some 384))]).
Proof.
  rewrite (secret_survives_restart (paths_without (lit "data")) plain_paths
             _ no_faults _ _ _ []);
    try reflexivity.
  intros place H. vm_compute in H. discriminate.
Defined.

(** The path of the secret file is read by the system, not by its
    spelling: with [FORUM_DB_PATH='sub/../forum.db'] the key stored in
    [secret_key] is found when [sub] exists; when it does not, the file
    is not seen, and the new key is written over it once [mkdir] has made
    [sub]. *)
Example secret_file_through_dotdot :
  _get_persistent_secret plain_paths
    [("FORUM_DB_PATH"%string, lit "sub/../forum.db")] no_faults (lit "abc")
    [(mkPath 0 [lit "secret_key"], mkFile (lit "stored") None)]
  = (lit "stored", [(mkPath 0 [lit "secret_key"], mkFile (lit "stored") None)])
  /\ _get_persistent_secret (paths_without (lit "sub"))
       [("FORUM_DB_PATH"%string, lit "sub/../forum.db")] no_faults (lit "abc")
       [(mkPath 0 [lit "secret_key"], mkFile (lit "stored") None)]
     = (lit "abc",
        [(mkPath 0 [lit "secret_key"], mkFile (lit "abc") (Some 384))]).
Proof. split; reflexivity. Qed.

(** X20: where the key comes from, and what is never touched.  A
    non-blank [SECRET_KEY] is used stripped; without it, the stripped
    text of the file that the secret path names, when it is there and can
    be read, is used, also when that text is empty; in both cases no file
    changes and the token is not used.  In every other case, whatever
    fails, the key is the token.  No file but the one at the place the
    secret path names for writing is ever changed, and a key that is
    generated without any fault is stored there with mode 0o600. *)
Theorem secret_source_order
    (sys : os_paths) (environ : dict) (faults : os_faults) (token : str)
    (fs : files) :
  let sk := strip (dict_get_default "SECRET_KEY" [] environ) in
  let p := secret_file_of environ in
  let r := _get_persistent_secret sys environ faults token fs in
  (is_empty sk = false -> r = (sk, fs))
  /\ (forall f, is_empty sk = true ->
        exists_raises faults = false -> read_raises faults = false ->
        file_exists sys p fs = Some f ->
        r = (strip (file_text f), fs))
  /\ (is_empty sk = true ->
      exists_raises faults = true \/ read_raises faults = true
      \/ file_exists sys p fs = None ->
      fst r = token)
  /\ (forall place, path_eqb place (write_place sys p) = false ->
        file_at place (snd r) = file_at place fs)
  /\ (is_empty sk = true ->
      file_exists sys p fs = None ->
      faults = no_faults ->
      file_at (write_place sys p) (snd r) = Some (mkFile token (Some 384))).
Proof.
  cbv zeta. unfold _get_persistent_secret. cbv zeta.
  destruct (is_empty (strip (dict_get_default "SECRET_KEY" [] environ)));
    cbn [negb].
  - split; [discriminate|]. split.
    { intros f _ -> -> ->. reflexivity. }
    split.
    { intros _ H. destruct (exists_raises faults); [reflexivity|].
      destruct (file_exists sys (secret_file_of environ) fs) as [f|].
      - destruct (read_raises faults).
        + now destruct (mkdir_raises faults).
        + destruct H as [H|[H|H]]; discriminate.
      - now destruct (mkdir_raises faults). }
    split.
    { intros place Hp. destruct (exists_raises faults); [reflexivity|].
      destruct (file_exists sys (secret_file_of environ) fs) as [f|].
      - destruct (read_raises faults); [|reflexivity].
        destruct (mkdir_raises faults); [reflexivity|].
        cbn [snd]. now apply write_secret_other.
      - destruct (mkdir_raises faults); [reflexivity|].
        cbn [snd]. now apply write_secret_other. }
    intros _ Hf ->. cbn [exists_raises mkdir_raises no_faults]. rewrite Hf.
    cbn [snd]. unfold write_secret. cbn [write_raises chmod_raises no_faults].
    apply file_at_put_same.
  - split; [reflexivity|]. split; [discriminate|]. split; [discriminate|].
    split; [reflexivity | discriminate].
Qed.

Lemma secret_source_order_witness :
  _get_persistent_secret plain_paths [("SECRET_KEY"%string, lit "  ")]
    no_faults (lit "abc")
    [(mkPath 0 [lit "secret_key"], mkFile (lit " ") None)]
  = ([], [(mkPath 0 [lit "secret_key"], mkFile (lit " ") None)])
  /\ _get_persistent_secret plain_paths [("SECRET_KEY"%string, lit " k ")]
       (mkFaults true true true (Some None) true) (lit "abc") []
     = (lit "k", []).
Proof.
  split.
  - exact (proj1 (proj2 (secret_source_order plain_paths
                           [("SECRET_KEY"%string, lit "  ")] no_faults
                           (lit "abc")
                           [(mkPath 0 [lit "secret_key"],
                             mkFile (lit " ") None)]))
             (mkFile (lit " ") None) eq_refl eq_refl eq_refl eq_refl).
  - exact (proj1 (secret_source_order plain_paths
                    [("SECRET_KEY"%string, lit " k ")]
                    (mkFaults true true true (Some None) true)
                    (lit "abc") []) eq_refl).
Defined.

(** ** [get_db] and [close_db] *)

Lemma get_db_many_held (n : nat) (c : app_ctx) (conn : nat) :
  g_db c = Some conn -> get_db_many n c = (repeat conn n, c).
Proof.
  intros H. induction n as [|n IH]; [reflexivity|].
  simpl. unfold get_db. rewrite H, IH. reflexivity.
Qed.

Lemma filter_not_conn (conn : nat) (l : list nat) :
  (forall x, In x l -> (x < conn)%nat) ->
  filter (fun x => negb (Nat.eqb x conn)) l = l.
Proof.
  induction l as [|y l IH]; intros H; [reflexivity|]. simpl.
  assert (E : Nat.eqb y conn = false).
  { apply Nat.eqb_neq. specialize (H y (or_introl eq_refl)). lia. }
  rewrite E. simpl. f_equal. apply IH. intros x Hx. apply H. now right.
Qed.

(** X21: within one application context, however often [get_db] is
    called, one connection is opened and every call returns it;
    [close_db] then closes exactly that connection and forgets it, and a
    second [close_db] does nothing. *)
Theorem get_db_opens_one_connection (n : nat) (c : app_ctx) :
  g_db c = None ->
  (forall x, In x (opened c) -> (x < next_conn c)%nat) ->
  fst (get_db_many (S n) c) = repeat (next_conn c) (S n)
  /\ opened (snd (get_db_many (S n) c)) = next_conn c :: opened c
  /\ opened (close_db (snd (get_db_many (S n) c))) = opened c
  /\ g_db (close_db (snd (get_db_many (S n) c))) = None
  /\ close_db (close_db (snd (get_db_many (S n) c)))
     = close_db (snd (get_db_many (S n) c)).
Proof.
  intros Hg Hop. cbn [get_db_many]. unfold get_db at 1 2 3 4 5 6. rewrite Hg.
  rewrite (get_db_many_held n _ (next_conn c)) by reflexivity.
  cbn [fst snd]. unfold close_db. cbn [g_db opened next_conn filter].
  rewrite Nat.eqb_refl. cbn [negb]. rewrite (filter_not_conn _ _ Hop).
  repeat split.
Qed.

Lemma get_db_opens_one_connection_witness :
  fst (get_db_many 3 (mkCtx None [0; 1]%nat 2%nat)) = [2; 2; 2]%nat
  /\ opened (close_db (snd (get_db_many 3 (mkCtx None [0; 1]%nat 2%nat))))
     = [0; 1]%nat.
Proof.
  assert (H : forall x, In x [0; 1]%nat -> (x < 2)%nat)
    by (intros x [<-|[<-|[]]]; lia).
  destruct (get_db_opens_one_connection 2 (mkCtx None [0; 1]%nat 2%nat)
              eq_refl H) as (H1 & _ & H3 & _).
  split; [exact H1 | exact H3].
Defined.

(** ** The side lists of [index] *)

Lemma str_leb_total (a b : str) : str_leb a b = false -> str_leb b a = true.
Proof.
  revert b. induction a as [|x a IH]; intros [|y b]; simpl; intros H;
    try reflexivity; try discriminate.
  apply orb_false_iff in H as [H1 H2]. apply Z.ltb_ge in H1.
  destruct (Z.eqb_spec x y) as [->|Hne].
  - rewrite Z.eqb_refl, Z.ltb_irrefl. simpl in *. now apply IH.
  - replace (y <? x) with true by (symmetry; apply Z.ltb_lt; lia).
    reflexivity.
Qed.

Lemma str_leb_trans (a b c : str) :
  str_leb a b = true -> str_leb b c = true -> str_leb a c = true.
Proof.
  revert b c. induction a as [|x a IH]; intros [|y b] [|z c]; simpl;
    intros H1 H2; try reflexivity; try discriminate.
  apply orb_prop in H1. apply orb_prop in H2. apply orb_true_iff.
  destruct H1 as [H1|H1], H2 as [H2|H2].
  - left. apply Z.ltb_lt in H1, H2. apply Z.ltb_lt. lia.
  - apply andb_prop in H2 as [H2 _]. apply Z.eqb_eq in H2. subst z. now left.
  - apply andb_prop in H1 as [H1 _]. apply Z.eqb_eq in H1. subst y. now left.
  - apply andb_prop in H1 as [E1 H1]. apply andb_prop in H2 as [E2 H2].
    apply Z.eqb_eq in E1, E2. subst y z. right. rewrite Z.eqb_refl.
    simpl. now apply (IH b c).
Qed.

Lemma recent_posts_joined (d : db) (q : post) (row : thread_row) :
  In (q, row)
     (flat_map
        (fun p =>
           match find (fun t => thread_id t =? post_thread_id p) (threads d) with
           | Some t => [(p, join_category d t)]
           | None => []
           end)
        (posts d)) ->
  In q (posts d)
  /\ In (fst row) (threads d)
  /\ thread_id (fst row) = post_thread_id q
  /\ snd row = find_category (category_id (fst row)) d.
Proof.
  intros H. apply in_flat_map in H as (p & Hp & H).
  destruct (find (fun t => thread_id t =? post_thread_id p) (threads d))
    as [t|] eqn:Ht; [|contradiction].
  destruct H as [[= <- <-]|[]]. apply find_some in Ht as [Hin Hid].
  apply Z.eqb_eq in Hid. now repeat split.
Qed.

(** X22: the side lists of an [index] page.  The categories are all the
    categories, ordered by name; the recent posts are at most 10, newest
    id first, each a stored post joined with its own thread and that
    thread's category. *)
Theorem index_side_lists (args : dict) (d : db) (p : index_page) :
  index args d = Ok (IndexPage p, d) ->
  Permutation (ip_categories p) (categories d)
  /\ StronglySorted (fun a b => str_leb (cat_name a) (cat_name b) = true)
                    (ip_categories p)
  /\ (List.length (ip_recent_posts p) <= 10)%nat
  /\ StronglySorted (fun a b => post_id (fst b) <= post_id (fst a))
                    (ip_recent_posts p)
  /\ (forall q row, In (q, row) (ip_recent_posts p) ->
        In q (posts d)
        /\ In (fst row) (threads d)
        /\ thread_id (fst row) = post_thread_id q
        /\ snd row = find_category (category_id (fst row)) d).
Proof.
  rewrite index_explicit.
  destruct (fits_int64 ((page_of args - 1) * 20)); [|discriminate].
  intros [= <-]. cbn [ip_categories ip_recent_posts]. unfold recent_posts.
  split; [apply order_by_perm|]. split.
  { apply (order_by_sorted (fun a b => str_leb (cat_name a) (cat_name b))).
    - intros a b. apply str_leb_total.
    - intros a b c. apply str_leb_trans. }
  split; [apply (limit_offset_length 10); lia|]. split.
  { apply limit_offset_sorted.
    apply (StronglySorted_impl
             (fun a b => (post_id (fst b) <=? post_id (fst a)) = true)).
    - intros a b. apply Z.leb_le.
    - apply (order_by_sorted
               (fun a b : post * thread_row =>
                  post_id (fst b) <=? post_id (fst a))).
      + intros a b H. apply Z.leb_gt in H. apply Z.leb_le. lia.
      + intros a b c H1 H2. apply Z.leb_le in H1, H2. apply Z.leb_le. lia. }
  intros q row H. apply limit_offset_sub in H.
  apply (Permutation_in _ (order_by_perm _ _)) in H.
  now apply recent_posts_joined.
Qed.

Lemma index_side_lists_witness :
  exists p,
    index [] (apply_ops initial_db
                [CreateThreadOp [("title"%string, lit "one");
                                 ("content"%string, lit "a")] 100;
                 ReplyOp 1 [("content"%string, lit "b")] 200])
    = Ok (IndexPage p,
          apply_ops initial_db
            [CreateThreadOp [("title"%string, lit "one");
                             ("content"%string, lit "a")] 100;
             ReplyOp 1 [("content"%string, lit "b")] 200])
    /\ map cat_name (ip_categories p)
       = [lit "Learning"; lit "Politics"; lit "Secret"; lit "Technology"]
    /\ map (fun r => post_id (fst r)) (ip_recent_posts p) = [2; 1]
    /\ Permutation (ip_categories p)
         (categories (apply_ops initial_db
            [CreateThreadOp [("title"%string, lit "one");
                             ("content"%string, lit "a")] 100;
             ReplyOp 1 [("content"%string, lit "b")] 200])).
Proof.
  eexists.
  match goal with
  | |- ?G /\ _ => assert (E : G) by (lazy; reflexivity)
  end.
  split; [exact E|]. split; [reflexivity|]. split; [reflexivity|].
  exact (proj1 (index_side_lists _ _ _ E)).
Defined.

(** ** From [reply] to [thread_view] *)

Lemma insert_sorted_snoc {A} (le : A -> A -> bool) (y x : A) (m : list A) :
  le y x = true ->
  insert_sorted le y (m ++ [x]) = insert_sorted le y m ++ [x].
Proof.
  intros H. induction m as [|z m IH]; simpl; [now rewrite H|].
  destruct (le y z); [reflexivity|]. now rewrite IH.
Qed.

Lemma order_by_snoc {A} (le : A -> A -> bool) (l : list A) (x : A) :
  (forall y, In y l -> le y x = true) ->
  order_by le (l ++ [x]) = order_by le l ++ [x].
Proof.
  induction l as [|y l IH]; intros H; [reflexivity|].
  unfold order_by in *. simpl. rewrite IH by (intros z Hz; apply H; now right).
  apply insert_sorted_snoc. apply H. now left.
Qed.

Lemma limit_offset_all {A} (limit : Z) (l : list A) :
  Z.of_nat (List.length l) <= limit -> limit_offset limit 0 l = l.
Proof.
  intros H. unfold limit_offset.
  replace (limit <? 0) with false by (symmetry; apply Z.ltb_ge; lia).
  destruct (Z.of_nat (List.length l) <=? 0) eqn:E.
  - apply Z.leb_le in E.
    destruct l; [now rewrite firstn_nil | simpl in E; lia].
  - simpl. apply firstn_all2. lia.
Qed.

Lemma find_map_bump_post (ts tid : Z) (l : list thread) :
  find (fun t => thread_id t =? tid) (map (bump_post_row ts tid) l)
  = option_map (bump_post_row ts tid)
               (find (fun t => thread_id t =? tid) l).
Proof.
  induction l as [|t l IH]; [reflexivity|]. simpl.
  unfold bump_post_row at 1.
  destruct (thread_id t =? tid) eqn:E; cbn [thread_id]; rewrite E.
  - simpl. unfold bump_post_row. now rewrite E.
  - exact IH.
Qed.

(** X23: a successful [reply] shows up where it redirects to.  For a
    thread of fewer than 50 posts, the page of the thread after the reply
    is the page before it with the new post, carrying the clamped author
    and content, added after the last post, the post count one higher and
    the last activity at the time of the reply; title, category and the
    comments shown are the same. *)
Theorem reply_is_shown
    (tid : Z) (form : dict) (ts : Z) (d d' : db) (r : response)
    (p : thread_page) :
  store_ok d ->
  thread_view tid [] d = Ok (ThreadPage p, d) ->
  (List.length (posts_of tid d) < 50)%nat ->
  reply tid form ts d = Ok (r, d') ->
  r = Redirect tid None
  /\ exists p' q,
       thread_view tid [] d' = Ok (ThreadPage p', d')
       /\ tp_posts p' = tp_posts p ++ [q]
       /\ post_author q = clamp_text (author_field form) 32
       /\ post_content q = clamp_text (field "content" form) 5000
       /\ post_created_at q = ts
       /\ posts_count (fst (tp_thread p')) = posts_count (fst (tp_thread p)) + 1
       /\ last_activity_at (fst (tp_thread p')) = ts
       /\ thread_title (fst (tp_thread p')) = thread_title (fst (tp_thread p))
       /\ snd (tp_thread p') = snd (tp_thread p)
       /\ tp_comments_map p' = tp_comments_map p.
Proof.
  intros (N1 & N2 & Hp & Hc) Hv Hlen H.
  apply reply_rows in H as (Hfit & _ & _ & _ & -> & Hcat & Ht & Hps & Hcs).
  split; [reflexivity|].
  set (pid := next_rowid (seq_posts d) (map post_id (posts d))) in *.
  set (q := mkPost pid tid (clamp_text (author_field form) 32)
                   (clamp_text (field "content" form) 5000) ts) in *.
  rewrite thread_view_explicit, Hfit in Hv.
  destruct (find (fun t => thread_id t =? tid) (threads d)) as [t|] eqn:Ef;
    [|discriminate].
  change (fits_int64 ((page_of [] - 1) * 50)) with true in Hv. cbv iota in Hv.
  injection Hv as <-.
  assert (Hid : thread_id t = tid)
    by (apply find_some in Ef as [_ Ef]; now apply Z.eqb_eq in Ef).
  assert (Hposts : posts_of tid d' = posts_of tid d ++ [q]).
  { unfold posts_of. rewrite Hps, filter_app. simpl. now rewrite Z.eqb_refl. }
  assert (Hle : forall y, In y (posts_of tid d) ->
                          (post_id y <=? post_id q) = true).
  { intros y Hy. apply posts_of_In in Hy as [Hy _]. apply Z.leb_le.
    cbn [post_id q]. unfold pid, next_rowid.
    pose proof (list_max_ge (map post_id (posts d)) (post_id y)
                  (in_map post_id _ _ Hy)). lia. }
  assert (Hpage : page_posts tid [] d
                  = order_by (fun a b => post_id a <=? post_id b)
                             (posts_of tid d)).
  { unfold page_posts. change ((page_of [] - 1) * 50) with 0.
    apply limit_offset_all. rewrite order_by_length. lia. }
  assert (Hpage' : page_posts tid [] d' = page_posts tid [] d ++ [q]).
  { rewrite Hpage. unfold page_posts. change ((page_of [] - 1) * 50) with 0.
    rewrite Hposts, (order_by_snoc _ _ _ Hle).
    apply limit_offset_all. rewrite length_app, order_by_length.
    cbn [List.length]. lia. }
  assert (Hfilter : forall ids,
             filter (fun c => existsb (Z.eqb (comment_post_id c)) (ids ++ [pid]))
                    (comments d)
             = filter (fun c => existsb (Z.eqb (comment_post_id c)) ids)
                      (comments d)).
  { intros ids. apply filter_ext_in. intros c Hin.
    rewrite existsb_app. cbn [existsb]. rewrite orb_false_r.
    replace (comment_post_id c =? pid) with false; [apply orb_false_r|].
    symmetry. apply Z.eqb_neq. intros E. specialize (Hc c Hin).
    rewrite E in Hc.
    now apply (next_rowid_fresh (seq_posts d) (map post_id (posts d))). }
  assert (Hpc : page_comments tid [] d' = page_comments tid [] d).
  { unfold page_comments. rewrite Hpage', map_app, Hcs. cbn [map post_id q].
    now rewrite Hfilter. }
  assert (Hcm : page_comments_map tid [] d' = page_comments_map tid [] d).
  { unfold page_comments_map. rewrite Hpc, Hpage', map_app, length_app.
    cbn [map List.length].
    replace (Z.of_nat (List.length (map post_id (page_posts tid [] d)) + 1)
             =? 0) with false by (symmetry; apply Z.eqb_neq; lia).
    destruct (map post_id (page_posts tid [] d)) as [|i ids] eqn:Ei;
      [|reflexivity].
    cbn [List.length Z.of_nat Z.eqb]. unfold page_comments. rewrite Ei.
    cbn [existsb]. now rewrite filter_none by reflexivity. }
  exists (mkThreadPage (join_category d' (bump_post_row ts tid t))
            (page_posts tid [] d') (page_comments_map tid [] d')
            (page_of [])
            (total_pages_of (Z.of_nat (List.length (posts_of tid d'))) 50)), q.
  split.
  { rewrite thread_view_explicit, Hfit, Ht, find_map_bump_post, Ef.
    cbn [option_map].
    change (fits_int64 ((page_of [] - 1) * 50)) with true. reflexivity. }
  cbn [tp_thread tp_posts tp_comments_map join_category fst snd].
  unfold bump_post_row. rewrite Hid, Z.eqb_refl.
  cbn [posts_count last_activity_at thread_title category_id].
  unfold find_category. rewrite Hcat.
  repeat split; assumption.
Qed.

Lemma reply_is_shown_witness :
  exists p',
    thread_view 1 []
      (apply_ops initial_db
         [CreateThreadOp [("title"%string, lit "one");
                          ("content"%string, lit "a")] 100;
          ReplyOp 1 [("content"%string, lit "b")] 200])
    = Ok (ThreadPage p',
          apply_ops initial_db
            [CreateThreadOp [("title"%string, lit "one");
                             ("content"%string, lit "a")] 100;
             ReplyOp 1 [("content"%string, lit "b")] 200])
    /\ map post_content (tp_posts p') = [lit "a"; lit "b"]
    /\ posts_count (fst (tp_thread p')) = 2.
Proof.
  assert (Hs : store_ok
                 (apply_ops initial_db
                    [CreateThreadOp [("title"%string, lit "one");
                                     ("content"%string, lit "a")] 100])).
  { apply (effect_store_ok 100 initial_db).
    - apply (apply_op_effect initial_db
               (CreateThreadOp [("title"%string, lit "one");
                                ("content"%string, lit "a")] 100)).
    - unfold store_ok. vm_compute.
      repeat split; try constructor; intros ? []. }
  pose proof (thread_view_explicit 1 []
                (apply_ops initial_db
                   [CreateThreadOp [("title"%string, lit "one");
                                    ("content"%string, lit "a")] 100])) as Hv.
  change (fits_int64 1) with true in Hv. cbv iota in Hv.
  match type of Hv with
  | _ = match ?f with _ => _ end =>
      let v := eval vm_compute in f in change f with v in Hv
  end.
  cbv iota in Hv.
  change (fits_int64 ((page_of [] - 1) * 50)) with true in Hv. cbv iota in Hv.
  assert (Hr : reply 1 [("content"%string, lit "b")] 200
                 (apply_ops initial_db
                    [CreateThreadOp [("title"%string, lit "one");
                                     ("content"%string, lit "a")] 100])
               = Ok (Redirect 1 None,
                     apply_ops initial_db
                       [CreateThreadOp [("title"%string, lit "one");
                                        ("content"%string, lit "a")] 100;
                        ReplyOp 1 [("content"%string, lit "b")] 200]))
    by (vm_compute; reflexivity).
  destruct (reply_is_shown _ _ _ _ _ _ _ Hs Hv ltac:(vm_compute; lia) Hr)
    as (_ & p' & q & E & Hq & _ & Hcq & _ & Hn & _).
  exists p'. split; [exact E|]. split.
  - rewrite Hq, map_app. cbn [map]. rewrite Hcq. reflexivity.
  - rewrite Hn. reflexivity.
Defined.

(** ** From [comment] to [thread_view] *)

Lemma find_map_bump_activity (ts tid : Z) (l : list thread) :
  find (fun t => thread_id t =? tid) (map (bump_activity_row ts tid) l)
  = option_map (bump_activity_row ts tid)
               (find (fun t => thread_id t =? tid) l).
Proof.
  induction l as [|t l IH]; [reflexivity|]. simpl.
  unfold bump_activity_row at 1.
  destruct (thread_id t =? tid) eqn:E; cbn [thread_id]; rewrite E.
  - simpl. unfold bump_activity_row. now rewrite E.
  - exact IH.
Qed.

Lemma find_thread_some (tid : Z) (l : list thread) :
  In tid (map thread_id l) ->
  exists t, find (fun t => thread_id t =? tid) l = Some t.
Proof.
  intros H. apply in_map_iff in H as (t & Ht & Hin).
  destruct (find (fun t => thread_id t =? tid) l) as [t'|] eqn:E; [eauto|].
  exfalso. apply (find_none _ _ E) in Hin. apply Z.eqb_neq in Hin. tauto.
Qed.

(** X24: a successful [comment] shows up where it redirects to.  When the
    thread of the post has at most 50 posts, the page of that thread after
    the comment lists the post, and under the post the comments it had,
    followed by the new comment with the clamped author and content; the
    thread's last activity is the time of the comment. *)
Theorem comment_is_shown
    (pid : Z) (form : dict) (ts : Z) (d d' : db) (tid : Z)
    (anchor : option Z) :
  store_ok d ->
  comment pid form ts d = Ok (Redirect tid anchor, d') ->
  fits_int64 tid = true ->
  (List.length (posts_of tid d) <= 50)%nat ->
  anchor = Some pid
  /\ exists p' cs c,
       thread_view tid [] d' = Ok (ThreadPage p', d')
       /\ In pid (map post_id (tp_posts p'))
       /\ In (pid, cs ++ [c]) (tp_comments_map p')
       /\ (forall x, In x cs <-> In x (comments d) /\ comment_post_id x = pid)
       /\ comment_author c = clamp_text (author_field form) 32
       /\ comment_content c = clamp_text (field "content" form) 2000
       /\ comment_created_at c = ts
       /\ last_activity_at (fst (tp_thread p')) = ts.
Proof.
  intros (N1 & N2 & Hp & Hc) H Hfit Hlen.
  apply comment_rows in H
    as (q & _ & Hq & _ & _ & Hr & Hcat & Ht & Hps & Hcs).
  injection Hr as -> ->. split; [reflexivity|].
  set (tid := post_thread_id q) in *.
  set (c := mkComment (next_rowid (seq_comments d)
                                  (map comment_id (comments d)))
                      pid (clamp_text (author_field form) 32)
                      (clamp_text (field "content" form) 2000) ts) in *.
  apply find_some in Hq as [Hqin Hqid]. apply Z.eqb_eq in Hqid.
  destruct (find_thread_some tid (threads d) (Hp q Hqin)) as [t Ef].
  assert (Hid : thread_id t = tid)
    by (apply find_some in Ef as [_ Ef']; now apply Z.eqb_eq in Ef').
  assert (Hposts : posts_of tid d' = posts_of tid d)
    by (unfold posts_of; now rewrite Hps).
  assert (Hpage : page_posts tid [] d'
                  = order_by (fun a b => post_id a <=? post_id b)
                             (posts_of tid d)).
  { unfold page_posts. change ((page_of [] - 1) * 50) with 0. rewrite Hposts.
    apply limit_offset_all. rewrite order_by_length. lia. }
  assert (Hpage0 : page_posts tid [] d = page_posts tid [] d').
  { rewrite Hpage. unfold page_posts. change ((page_of [] - 1) * 50) with 0.
    apply limit_offset_all. rewrite order_by_length. lia. }
  set (ids := map post_id (page_posts tid [] d')) in *.
  assert (Hpid : In pid ids).
  { unfold ids. rewrite Hpage, <- Hqid. apply in_map.
    apply (Permutation_in _ (Permutation_sym (order_by_perm _ _))).
    apply posts_of_In. now split. }
  assert (Hex : existsb (Z.eqb pid) ids = true).
  { apply existsb_exists. exists pid. split; [exact Hpid | apply Z.eqb_refl]. }
  assert (Hpc : page_comments tid [] d' = page_comments tid [] d ++ [c]).
  { unfold page_comments. rewrite Hpage0. fold ids.
    rewrite Hcs, filter_app. unfold c at 1. cbn [filter comment_post_id].
    rewrite Hex.
    apply order_by_snoc. intros y Hy. apply filter_In in Hy as [Hy _].
    apply Z.leb_le. cbn [comment_id c]. unfold next_rowid.
    pose proof (list_max_ge (map comment_id (comments d)) (comment_id y)
                  (in_map comment_id _ _ Hy)). lia. }
  assert (Hcm : page_comments_map tid [] d'
                = comments_map_of (page_comments tid [] d ++ [c])).
  { unfold page_comments_map. fold ids. rewrite Hpc.
    destruct ids as [|i ids']; [contradiction | reflexivity]. }
  destruct (comments_map_of_spec (page_comments tid [] d ++ [c]))
    as (_ & K2 & K3).
  assert (Hlast : In c (page_comments tid [] d ++ [c]))
    by (apply in_or_app; right; now left).
  specialize (K3 c Hlast).
  apply in_map_iff in K3 as ([k cs'] & Ek & Hin).
  cbn [fst] in Ek. unfold c in Ek. cbn [comment_post_id] in Ek. subst k.
  destruct (K2 _ _ Hin) as [_ Hcs'].
  rewrite filter_app in Hcs'. unfold c in Hcs'.
  cbn [filter comment_post_id] in Hcs'.
  rewrite Z.eqb_refl in Hcs'. subst cs'.
  exists (mkThreadPage (join_category d' (bump_activity_row ts tid t))
            (page_posts tid [] d') (page_comments_map tid [] d')
            (page_of [])
            (total_pages_of (Z.of_nat (List.length (posts_of tid d'))) 50)),
         (filter (fun x => comment_post_id x =? pid) (page_comments tid [] d)),
         c.
  split.
  { rewrite thread_view_explicit, Hfit, Ht, find_map_bump_activity, Ef.
    cbn [option_map].
    change (fits_int64 ((page_of [] - 1) * 50)) with true. reflexivity. }
  cbn [tp_thread tp_posts tp_comments_map join_category fst snd].
  split; [exact Hpid|]. split; [rewrite Hcm; exact Hin|]. split.
  { intros x. rewrite filter_In, Z.eqb_eq. unfold page_comments.
    rewrite Hpage0. fold ids. split.
    - intros [Hx E]. apply (Permutation_in _ (order_by_perm _ _)) in Hx.
      apply filter_In in Hx as [Hx _]. now split.
    - intros [Hx E]. split; [|exact E].
      apply (Permutation_in _ (Permutation_sym (order_by_perm _ _))).
      apply filter_In. split; [exact Hx|]. now rewrite E. }
  unfold bump_activity_row. rewrite Hid, Z.eqb_refl.
  cbn [last_activity_at]. repeat split.
Qed.

Lemma comment_is_shown_witness :
  exists p',
    thread_view 1 []
      (apply_ops initial_db
         [CreateThreadOp [("title"%string, lit "one");
                          ("content"%string, lit "a")] 100;
          CommentOp 1 [("content"%string, lit "x")] 200])
    = Ok (ThreadPage p',
          apply_ops initial_db
            [CreateThreadOp [("title"%string, lit "one");
                             ("content"%string, lit "a")] 100;
             CommentOp 1 [("content"%string, lit "x")] 200])
    /\ last_activity_at (fst (tp_thread p')) = 200
    /\ In 1 (map post_id (tp_posts p')).
Proof.
  assert (Hs : store_ok
                 (apply_ops initial_db
                    [CreateThreadOp [("title"%string, lit "one");
                                     ("content"%string, lit "a")] 100])).
  { apply (effect_store_ok 100 initial_db).
    - apply (apply_op_effect initial_db
               (CreateThreadOp [("title"%string, lit "one");
                                ("content"%string, lit "a")] 100)).
    - unfold store_ok. vm_compute.
      repeat split; try constructor; intros ? []. }
  assert (Hr : comment 1 [("content"%string, lit "x")] 200
                 (apply_ops initial_db
                    [CreateThreadOp [("title"%string, lit "one");
                                     ("content"%string, lit "a")] 100])
               = Ok (Redirect 1 (Some 1),
                     apply_ops initial_db
                       [CreateThreadOp [("title"%string, lit "one");
                                        ("content"%string, lit "a")] 100;
                        CommentOp 1 [("content"%string, lit "x")] 200]))
    by (vm_compute; reflexivity).
  destruct (comment_is_shown _ _ _ _ _ _ _ Hs Hr eq_refl
              ltac:(vm_compute; lia))
    as (_ & p' & cs & c & E & Hin & _ & _ & _ & _ & _ & Hl).
  exists p'. split; [exact E|]. split; [exact Hl | exact Hin].
Defined.
